(** * multi-video-analysis: a shallow embedding of the backend services

    The development follows the layout of the Python package:

    - [Py]                the Python values the services compute with
                          (strings, exceptions, slices, [sort], [min]);
    - [Video], [Frame], [Section]   the ORM rows of [app/models];
    - [Store]             the two stores every service shares: the relational
                          session and the filesystem tree under [storage/];
    - [PosixPath]         [os.path.join], [normpath], [abspath];
    - [VideoService]      [app/services/video_service.py];
    - [FrameExtractor]    [app/services/frame_extractor.py];
    - [SimpleEmbeddings]  [app/services/simple_embeddings.py];
    - [LangChain]         [app/services/langchain_service.py];
    - [Routes]            [app/api/routes.py];
    - [Fixtures], [Vocabulary]   concrete worlds and tools, and the names the
                          statements of Part II are written with.

    Conventions.  A Python [float] is a rational ([Q]): NaN and the
    infinities are not modelled.  Comparisons are exact; the sums and
    differences of [get_frame_by_timestamp] are rounded to binary64
    ([Py.fadd], [Py.fsub]) for magnitudes that cannot overflow
    ([Py.in_range]), the other float arithmetic is exact.  A Python
    [int] is [Z].  A Python [str] is the list of its code points.
    Third-party calls (yt-dlp, ffmpeg, CLIP, the transcript API, the QA
    chain) are oracles gathered in records; every theorem quantifies over
    them.  A call that may raise returns a [result]; stateful code threads a
    [World], which also keeps the trace of what was done to the outside.
    The construction of the service objects is taken to succeed, and so are
    the database calls, except that an integer outside the 64-bit range
    cannot be bound to a query where [Store.bindable] is tested.

    Part II states and proves the properties, service by service. *)

From Stdlib Require Import ZArith QArith Qabs Qround Lqa Lia List Ascii String.
From Stdlib Require Import DecimalString Sorted.
From stdpp Require Import gmap list strings sorting.
Import ListNotations.

(* ================================================================== *)
(** * Part I: the embedding                                            *)
(* ================================================================== *)

(** ** Python values *)

Module Py.

(** A [str] is a sequence of Unicode code points. *)
Definition str := list N.

(** The [str] of an ASCII literal. *)
Definition py (s : string) : str := map N_of_ascii (list_ascii_of_string s).

(** The exceptions the services raise or catch.  [LibraryError] stands for
    whatever a third-party call raises (all of them derive from
    [Exception], which is all the handlers look at). *)
Inductive exn :=
| ValueError (msg : str)
| Exception (msg : str)
| HTTPException (status_code : Z) (detail : str)
| LibraryError (msg : str).

(** [str(e)] *)
Definition str_of_exn (e : exn) : str :=
  match e with
  | ValueError m | Exception m | LibraryError m => m
  | HTTPException _ d => d
  end.

(** The outcome of a call: a value, or a raised exception. *)
Inductive result (A : Type) :=
| Ok (a : A)
| Raise (e : exn).
Arguments Ok {A} a.
Arguments Raise {A} e.

Definition bind {A B} (c : result A) (k : A -> result B) : result B :=
  match c with
  | Ok a => k a
  | Raise e => Raise e
  end.

(** [try: c except Exception as e: h e] *)
Definition try_except {A} (c : result A) (h : exn -> result A) : result A :=
  match c with
  | Ok a => Ok a
  | Raise e => h e
  end.

(** *** Sequences *)

(** [l[:k]]: a negative bound counts from the end. *)
Definition slice_to {A} (l : list A) (k : Z) : list A :=
  if (0 <=? k)%Z then take (Z.to_nat k) l
  else take (length l - Z.to_nat (- k)) l.

(** [a < b] on floats. *)
Definition Qltb (a b : Q) : bool := negb (Qle_bool b a).

(** *** Rounding to binary64

    A finite double is a rational; a sum or difference of two doubles is
    the exact result rounded to the nearest double, ties to the even
    significand.  Overflow to an infinity is left out. *)

(** The nearest integer, ties to even. *)
Definition round_half_even (q : Q) : Z :=
  let f := Qfloor q in
  match Qcompare (q - inject_Z f) (1 # 2) with
  | Lt => f
  | Gt => (f + 1)%Z
  | Eq => if Z.even f then f else (f + 1)%Z
  end.

(** [floor (log2 q)] for [q > 0]. *)
Definition floor_log2 (q : Q) : Z :=
  let g := (Z.log2 (Qnum q) - Z.log2 (Zpos (Qden q)))%Z in
  if Qle_bool (Qpower 2 g) q then g else (g - 1)%Z.

(** The double nearest to [q]: 53 significant bits, and no bit below
    [2^-1074] (the subnormal range). *)
Definition fl (q : Q) : Q :=
  if Qeq_bool q 0 then 0%Q
  else
    let e := Z.max (floor_log2 (Qabs q) - 52) (-1074) in
    (inject_Z (round_half_even (q / Qpower 2 e)) * Qpower 2 e)%Q.

(** [a + b] and [a - b] on floats. *)
Definition fadd (a b : Q) : Q := fl (a + b).
Definition fsub (a b : Q) : Q := fl (a - b).

(** Magnitudes up to [2^1022]: a sum or difference of two such doubles is
    below [2^1024] and does not overflow. *)
Definition in_range (q : Q) : Prop := (Qabs q <= inject_Z (2 ^ 1022))%Q.

(** Insertion step of [l.sort(key=key, reverse=True)]: [x] stood before every
    element of [l], so it goes before the first element whose key is not
    larger (the sort is stable). *)
Fixpoint insert_desc {A} (key : A -> Q) (x : A) (l : list A) : list A :=
  match l with
  | [] => [x]
  | y :: l' =>
      if Qle_bool (key y) (key x) then x :: y :: l'
      else y :: insert_desc key x l'
  end.

(** [l.sort(key=key, reverse=True)] *)
Fixpoint sort_desc {A} (key : A -> Q) (l : list A) : list A :=
  match l with
  | [] => []
  | x :: l' => insert_desc key x (sort_desc key l')
  end.


(** Insertion step of an ascending stable sort ([ORDER BY] a column). *)
Fixpoint insert_asc {A} (key : A -> Q) (x : A) (l : list A) : list A :=
  match l with
  | [] => [x]
  | y :: l' =>
      if Qle_bool (key x) (key y) then x :: y :: l'
      else y :: insert_asc key x l'
  end.

Fixpoint sort_asc {A} (key : A -> Q) (l : list A) : list A :=
  match l with
  | [] => []
  | x :: l' => insert_asc key x (sort_asc key l')
  end.

(** The scan of [min(l, key=key)]: the running best is replaced only by a
    strictly smaller key, so the first minimal element wins. *)
Fixpoint min_scan {A} (key : A -> Q) (best : A) (l : list A) : A :=
  match l with
  | [] => best
  | x :: l' => min_scan key (if Qltb (key x) (key best) then x else best) l'
  end.

(** [min(l, key=key)], for a non-empty [l]. *)
Definition min_by {A} (key : A -> Q) (l : list A) : option A :=
  match l with
  | [] => None
  | x :: l' => Some (min_scan key x l')
  end.

(** *** Strings *)

Definition char_eqb (a b : N) : bool := N.eqb a b.

(** [a == b] *)
Fixpoint str_eqb (a b : str) : bool :=
  match a, b with
  | [], [] => true
  | x :: a', y :: b' => char_eqb x y && str_eqb a' b'
  | _, _ => false
  end.

(** [s.startswith(p)] *)
Fixpoint startswith (p s : str) : bool :=
  match p, s with
  | [], _ => true
  | _ :: _, [] => false
  | a :: p', b :: s' => char_eqb a b && startswith p' s'
  end.

(** [s.endswith(p)] *)
Definition endswith (p s : str) : bool := startswith (rev p) (rev s).

(** [c in s] for a single character [c]. *)
Definition contains (c : N) (s : str) : bool := existsb (char_eqb c) s.

(** The longest prefix of [s] whose characters satisfy [p]. *)
Fixpoint take_while (p : N -> bool) (s : str) : str :=
  match s with
  | [] => []
  | c :: s' => if p c then c :: take_while p s' else []
  end.

Fixpoint drop_while (p : N -> bool) (s : str) : str :=
  match s with
  | [] => []
  | c :: s' => if p c then drop_while p s' else s
  end.

(** [s.split(sep)] for a one-character [sep]: always at least one field. *)
Fixpoint split (sep : N) (s : str) : list str :=
  match s with
  | [] => [[]]
  | c :: s' =>
      if char_eqb c sep then [] :: split sep s'
      else match split sep s' with
           | [] => [[c]]
           | w :: ws => (c :: w) :: ws
           end
  end.

(** [s.split(sep, 1)]: the text before the first [sep] and, when there is
    one, the text after it. *)
Fixpoint split1 (sep : N) (s : str) : str * option str :=
  match s with
  | [] => ([], None)
  | c :: s' =>
      if char_eqb c sep then ([], Some s')
      else let '(a, b) := split1 sep s' in (c :: a, b)
  end.

(** [sep.join(parts)] *)
Fixpoint join (sep : str) (parts : list str) : str :=
  match parts with
  | [] => []
  | [w] => w
  | w :: ws => w ++ sep ++ join sep ws
  end.

(** [str.isspace] of one character: the code points Python's [str.strip()]
    removes. *)
Definition isspace (c : N) : bool :=
  ((9 <=? c) && (c <=? 13) || (28 <=? c) && (c <=? 32)
   || (c =? 133) || (c =? 160) || (c =? 5760)
   || (8192 <=? c) && (c <=? 8202)
   || (c =? 8232) || (c =? 8233) || (c =? 8239) || (c =? 8287)
   || (c =? 12288))%N.

(** [s.strip()] *)
Definition strip (s : str) : str :=
  rev (drop_while isspace (rev (drop_while isspace s))).

(** [str(n)] for an [int]. *)
Definition str_of_Z (n : Z) : str := py (NilZero.string_of_int (Z.to_int n)).

(** [f"{n:0{width}d}"]: zero padding up to [width] columns, the sign
    included. *)
Definition format_0d (width : nat) (n : Z) : str :=
  let digits := str_of_Z (Z.abs n) in
  let sign := if (n <? 0)%Z then py "-" else [] in
  sign ++ replicate (width - length sign - length digits) 48%N ++ digits.

(** [f"{n:06d}"] *)
Definition format_06d (n : Z) : str := format_0d 6 n.

(** [f"{n:.2f}"] for an [int] [n]. *)
Definition format_2f (n : Z) : str := str_of_Z n ++ py ".00".

End Py.

Notation "'let*' x ':=' c 'in' k" := (Py.bind c (fun x => k))
  (at level 10, x name, c at level 100, k at level 200).

(** ** [os.path] on POSIX

    The three functions the routes call, after CPython's [posixpath]. *)

Module PosixPath.
Import Py.

Definition sep : N := 47.

(** [os.path.isabs] *)
Definition isabs (p : str) : bool := startswith [sep] p.

(** [os.path.join(a, b)] *)
Definition join (a b : str) : str :=
  if startswith [sep] b then b
  else if str_eqb a [] || endswith [sep] a then a ++ b
  else a ++ [sep] ++ b.

(** The number of leading slashes [normpath] keeps: two stay two, three or
    more collapse to one. *)
Definition initial_slashes (p : str) : nat :=
  if startswith [sep] p then
    if startswith [sep; sep] p && negb (startswith [sep; sep; sep] p)
    then 2 else 1
  else 0.

(** One turn of [normpath]'s loop over the components. *)
Definition normpath_step (slashes : nat) (new_comps : list str) (comp : str)
  : list str :=
  if str_eqb comp [] || str_eqb comp (py ".") then new_comps
  else if negb (str_eqb comp (py ".."))
          || (Nat.eqb slashes 0 && Nat.eqb (length new_comps) 0)
          || (negb (Nat.eqb (length new_comps) 0)
              && str_eqb (List.last new_comps []) (py ".."))
  then new_comps ++ [comp]
  else removelast new_comps.

(** [os.path.normpath] *)
Definition normpath (p : str) : str :=
  if str_eqb p [] then py "."
  else
    let slashes := initial_slashes p in
    let comps := fold_left (normpath_step slashes) (split sep p) [] in
    let path := replicate slashes sep ++ Py.join [sep] comps in
    if str_eqb path [] then py "." else path.

(** [os.path.abspath], with the process's working directory [cwd]. *)
Definition abspath (cwd p : str) : str :=
  normpath (if isabs p then p else join cwd p).

(** [os.path.basename] *)
Definition basename (p : str) : str :=
  List.last (split sep p) [].

(** The components of a normalised path. *)
Definition components (p : str) : list str :=
  List.filter (fun c => negb (str_eqb c [])) (split sep p).

End PosixPath.

(** ** The ORM rows ([app/models])

    The [created_at] and [updated_at] columns play no part in any service and
    are left out. *)

Module Video.
Record t := { id : Z; url : Py.str; title : Py.str }.
End Video.

Module Frame.
Record t := { id : Z; video_id : Z; timestamp : Q; path : Py.str }.
End Frame.

Module Section.
Record t :=
  { id : Z; video_id : Z; title : Py.str; start_time : Q; end_time : Q }.
End Section.

(** ** The shared stores: database session and filesystem *)

Module Store.
Import Py.

(** One entry of the pickled list: [{'frame_id', 'timestamp', 'embedding'}]. *)
Record EmbeddingRecord :=
  { frame_id : Z; timestamp : Q; embedding : list Q }.

(** What a file holds: the list [pickle.dump] wrote, or any other bytes (an
    image, a downloaded video, a damaged pickle). *)
Inductive FileContent :=
| Pickle (data : list EmbeddingRecord)
| Bytes (data : list N).

Record Tables :=
  { videos : list Video.t; frames : list Frame.t; sections : list Section.t }.

(** A session: the committed tables and the view of the open transaction
    (queries read the latter, [commit] publishes it, [rollback] drops it).
    No service queries between an [add] and the next [commit], so whether
    the session flushes before a query makes no difference here. *)
Record Session := { committed : Tables; working : Tables }.

(** What the services do to the outside world, in order. *)
Inductive Effect :=
| Download (url : str)
| Probe (video_path : str)
| Extract (video_path : str) (ss : Z) (out : str)
| Remove (path : str)
| WriteFile (path : str)
| Query
| Insert
| Commit
| Rollback.

(** Files and directories are keyed by absolute, normalised path. *)
Record World :=
  { cwd : str;
    files : gmap str FileContent;
    dirs : gset str;
    db : Session;
    trace : list Effect }.

Definition set_files (w : World) (fs : gmap str FileContent) : World :=
  {| cwd := cwd w; files := fs; dirs := dirs w; db := db w; trace := trace w |}.

Definition set_dirs (w : World) (ds : gset str) : World :=
  {| cwd := cwd w; files := files w; dirs := ds; db := db w; trace := trace w |}.

Definition set_db (w : World) (s : Session) : World :=
  {| cwd := cwd w; files := files w; dirs := dirs w; db := s; trace := trace w |}.

Definition emit (w : World) (e : Effect) : World :=
  {| cwd := cwd w; files := files w; dirs := dirs w; db := db w;
     trace := trace w ++ [e] |}.

(** *** Stateful computations: a world in, a world and an outcome out.
    An exception does not undo what was done before it. *)

Definition M (A : Type) : Type := World -> World * result A.

Definition ret {A} (a : A) : M A := fun w => (w, Ok a).

Definition raise {A} (e : exn) : M A := fun w => (w, Raise e).

Definition bindM {A B} (c : M A) (k : A -> M B) : M B :=
  fun w =>
    match c w with
    | (w', Ok a) => k a w'
    | (w', Raise e) => (w', Raise e)
    end.

(** A pure call that may raise. *)
Definition lift {A} (c : result A) : M A := fun w => (w, c).

Definition modify (f : World -> World) : M unit := fun w => (f w, Ok tt).

(** [try: c except Exception as e: h e] *)
Definition try_exceptM {A} (c : M A) (h : exn -> M A) : M A :=
  fun w =>
    match c w with
    | (w', Ok a) => (w', Ok a)
    | (w', Raise e) => h e w'
    end.

(** A computation with a loop in it: [None] while the loop has not come to
    an end within the turns it was given. *)
Definition P (A : Type) : Type := World -> option (World * result A).

(** *** Filesystem *)

Definition key (w : World) (p : str) : str := PosixPath.abspath (cwd w) p.

(** [os.path.exists(p)].  The path is looked up under its normalised
    name, which is what the kernel resolves it to as long as the components
    that a [..] steps back over exist. *)
Definition path_exists (w : World) (p : str) : bool :=
  match files w !! key w p with
  | Some _ => true
  | None => bool_decide (key w p ∈ dirs w)
  end.

(** [open(p, 'rb')]: the content of a regular file. *)
Definition read_file (w : World) (p : str) : result FileContent :=
  match files w !! key w p with
  | Some c => Ok c
  | None => Raise (LibraryError (py "No such file or directory"))
  end.

(** [OSError]s, with the text [str(e)] gives them. *)
Definition os_error (errno : str) (p : str) : exn :=
  LibraryError (errno ++ py ": '" ++ p ++ py "'").

Definition FileNotFoundError : str -> exn :=
  os_error (py "[Errno 2] No such file or directory").
Definition FileExistsError : str -> exn := os_error (py "[Errno 17] File exists").
Definition NotADirectoryError : str -> exn :=
  os_error (py "[Errno 20] Not a directory").
Definition IsADirectoryError : str -> exn :=
  os_error (py "[Errno 21] Is a directory").

Definition is_file (w : World) (k : str) : bool :=
  match files w !! k with
  | Some _ => true
  | None => false
  end.

(** The root is always there; any other directory is one of [dirs]. *)
Definition is_dir (w : World) (k : str) : bool :=
  str_eqb k [PosixPath.sep] || bool_decide (k ∈ dirs w).

(** The directories above an absolute path, outermost first, the root left
    out: its proper prefixes that end before a separator. *)
Definition ancestors (k : str) : list str :=
  omap (fun i => match k !! i with
                 | Some c => if char_eqb c PosixPath.sep then Some (take i k)
                             else None
                 | None => None
                 end)
       (seq 1 (length k - 1)).

(** The directory a path lies in. *)
Definition parent (k : str) : str := List.last (ancestors k) [PosixPath.sep].

(** [open(p, 'wb')] followed by a complete write.  A directory cannot be
    opened for writing.  The services write only into a directory they have
    just made, so the other failures of [open] cannot occur. *)
Definition write_file (p : str) (c : FileContent) : M unit :=
  fun w =>
    if is_dir w (key w p) then (w, Raise (IsADirectoryError p))
    else (emit (set_files w (<[key w p := c]> (files w))) (WriteFile p), Ok tt).

(** [os.remove(p)] *)
Definition remove (p : str) : M unit :=
  fun w =>
    match files w !! key w p with
    | Some _ => (emit (set_files w (delete (key w p) (files w))) (Remove p), Ok tt)
    | None => (w, Raise (LibraryError (py "No such file or directory")))
    end.

(** [Path(p).mkdir(exist_ok=True)]: nothing to do for a directory that is
    there; otherwise the directory above must be one, and nothing may be at
    the path. *)
Definition mkdir (p : str) : M unit :=
  fun w =>
    let k := key w p in
    if is_file w k then (w, Raise (FileExistsError p))
    else if is_dir w k then (w, Ok tt)
    else if existsb (is_file w) (ancestors k) then (w, Raise (NotADirectoryError p))
    else if is_dir w (parent k) then (set_dirs w ({[k]} ∪ dirs w), Ok tt)
    else (w, Raise (FileNotFoundError p)).

(** [Path(p).mkdir(parents=True, exist_ok=True)]: the missing directories
    above are made too; the call fails only on a regular file at the path
    or above it. *)
Definition mkdir_parents (p : str) : M unit :=
  fun w =>
    let k := key w p in
    if is_file w k then (w, Raise (FileExistsError p))
    else if existsb (is_file w) (ancestors k) then (w, Raise (NotADirectoryError p))
    else (set_dirs w ({[k]} ∪ list_to_set (ancestors k) ∪ dirs w), Ok tt).

(** *** Session *)

Definition set_working (w : World) (t : Tables) : World :=
  set_db w {| committed := committed (db w); working := t |}.

(** [db.commit()] *)
Definition commit : M unit :=
  modify (fun w =>
    emit (set_db w {| committed := working (db w); working := working (db w) |})
         Commit).

(** [db.rollback()] *)
Definition rollback : M unit :=
  modify (fun w =>
    emit (set_db w {| committed := committed (db w); working := committed (db w) |})
         Rollback).

(** An [int] the database driver can bind to a query: a signed 64-bit
    integer.  Any other raises [OverflowError] before the query runs. *)
Definition bindable (n : Z) : bool :=
  ((- 2 ^ 63 <=? n) && (n <? 2 ^ 63))%Z.

Definition OverflowError : exn :=
  LibraryError (py "Python int too large to convert to SQLite INTEGER").

(** [db.query(T)...]: a read of the open transaction's tables. *)
Definition run_query {A} (q : Tables -> A) (w : World) : World * A :=
  (emit w Query, q (working (db w))).

Definition query {A} (q : Tables -> A) : M A :=
  fun w => let '(w', a) := run_query q w in (w', Ok a).

(** The next value of an autoincrement primary key. *)
Definition next_id (ids : list Z) : Z := (1 + fold_right Z.max 0 ids)%Z.

(** [db.add(Video(url=url, title=title))]; the row gets its key. *)
Definition add_video (url title : str) : M Video.t :=
  fun w =>
    let t := working (db w) in
    let v := {| Video.id := next_id (map Video.id (videos t));
                Video.url := url; Video.title := title |} in
    (emit (set_working w {| videos := videos t ++ [v]; frames := frames t;
                            sections := sections t |}) Insert,
     Ok v).

(** [db.add(Frame(video_id=..., timestamp=..., path=...))] *)
Definition add_frame (video_id : Z) (timestamp : Q) (path : str) : M Frame.t :=
  fun w =>
    let t := working (db w) in
    let f := {| Frame.id := next_id (map Frame.id (frames t));
                Frame.video_id := video_id; Frame.timestamp := timestamp;
                Frame.path := path |} in
    (emit (set_working w {| videos := videos t; frames := frames t ++ [f];
                            sections := sections t |}) Insert,
     Ok f).

(** [db.add(Section(video_id=..., title=..., start_time=..., end_time=...))] *)
Definition add_section (video_id : Z) (title : str) (start_time end_time : Q)
  : M Section.t :=
  fun w =>
    let t := working (db w) in
    let s := {| Section.id := next_id (map Section.id (sections t));
                Section.video_id := video_id; Section.title := title;
                Section.start_time := start_time;
                Section.end_time := end_time |} in
    (emit (set_working w {| videos := videos t; frames := frames t;
                            sections := sections t ++ [s] |}) Insert,
     Ok s).

(** [db.delete(frame)]: the row with the frame's primary key goes from the
    open transaction.  Like an update, it leaves no event of its own in the
    trace; the commit that publishes it does. *)
Definition delete_frame (f : Frame.t) : M unit :=
  modify (fun w =>
    let t := working (db w) in
    set_working w
      {| videos := videos t;
         frames := List.filter (fun g => negb (Frame.id g =? Frame.id f)%Z) (frames t);
         sections := sections t |}).


(** [not any(Path(p).iterdir())]: nothing lies below the directory.  On a
    regular file [iterdir] raises. *)
Definition directory_is_empty (w : World) (p : str) : result bool :=
  match files w !! key w p with
  | Some _ => Raise (LibraryError (py "Not a directory"))
  | None =>
      Ok (forallb (fun k => negb (startswith (key w p ++ [PosixPath.sep]) k))
                  (elements (dom (files w)) ++ elements (dirs w)))
  end.

(** [Path(p).rmdir()] of a directory found empty. *)
Definition rmdir (p : str) : M unit :=
  modify (fun w => set_dirs w (dirs w ∖ {[key w p]})).

End Store.

Notation "'let!' x ':=' c 'in' k" := (Store.bindM c (fun x => k))
  (at level 10, x name, c at level 100, k at level 200).
Notation "c ';;!' k" := (Store.bindM c (fun _ => k))
  (at level 100, k at level 200, right associativity).

(** ** [app/services/video_service.py] *)

Module VideoService.
Import Py Store.

(** The class [[^&\n?#]] of both patterns. *)
Definition id_char (c : N) : bool :=
  negb ((c =? 38) || (c =? 10) || (c =? 63) || (c =? 35))%N.

(** The group [([^&\n?#]+)] at the head of [s]: the longest run of the
    class, which must not be empty. *)
Definition id_group (s : str) : option str :=
  match take_while id_char s with
  | [] => None
  | g => Some g
  end.

(** [literal([^&\n?#]+)] at the head of [s]. *)
Definition match_literal (literal s : str) : option str :=
  if startswith literal s then id_group (drop (length literal) s) else None.

(** The first pattern at the head of [s], its alternatives in order:
    [(?:youtube\.com/watch\?v=|youtu\.be/|youtube\.com/embed/)([^&\n?#]+)]. *)
Definition match_pattern1 (s : str) : option str :=
  match match_literal (py "youtube.com/watch?v=") s with
  | Some g => Some g
  | None =>
      match match_literal (py "youtu.be/") s with
      | Some g => Some g
      | None => match_literal (py "youtube.com/embed/") s
      end
  end.

(** [.*[?&]v=([^&\n?#]+)] at the head of [s].  The star is greedy and stops
    at a newline: the last [?v=] or [&v=] of the line that an id character
    follows is the one that matches. *)
Fixpoint match_query_v (s : str) : option str :=
  match s with
  | [] => None
  | c :: s' =>
      if (c =? 10)%N then None
      else
        match match_query_v s' with
        | Some g => Some g
        | None =>
            if ((c =? 63) || (c =? 38))%N then match_literal (py "v=") s'
            else None
        end
  end.

(** The second pattern at the head of [s]:
    [youtube\.com/.*[?&]v=([^&\n?#]+)]. *)
Definition match_pattern2 (s : str) : option str :=
  if startswith (py "youtube.com/") s
  then match_query_v (drop (length (py "youtube.com/")) s)
  else None.

(** [re.search(pattern, s)]: the leftmost position where the pattern
    matches; the value is group 1. *)
Fixpoint re_search (pattern : str -> option str) (s : str) : option str :=
  match pattern s with
  | Some g => Some g
  | None =>
      match s with
      | [] => None
      | _ :: s' => re_search pattern s'
      end
  end.

Definition extract_video_id (url : str) : result str :=
  match re_search match_pattern1 url with
  | Some g => Ok g
  | None =>
      match re_search match_pattern2 url with
      | Some g => Ok g
      | None =>
          Raise (ValueError (py "Could not extract video ID from URL: " ++ url))
      end
  end.

(** [title or default] *)
Definition title_or (title : option str) (default : str) : str :=
  match title with
  | Some (c :: t) => c :: t
  | _ => default
  end.

Definition create_video (url : str) (title : option str) : M Video.t :=
  try_exceptM
    (let! video_id_str := lift (extract_video_id url) in
     let! existing :=
       query (fun t => find (fun v => str_eqb (Video.url v) url) (videos t)) in
     match existing with
     | Some v => ret v
     | None =>
         let! video :=
           add_video url (title_or title (py "Video " ++ video_id_str)) in
         commit ;;! ret video
     end)
    (fun e => rollback ;;! raise e).

End VideoService.

(** ** [app/services/frame_extractor.py] *)

Module FrameExtractor.
Import Py Store.

(** The command-line tools behind the service.  [yt_dlp url dir] stands for
    the whole of yt-dlp's work in [download_video] (metadata, download, the
    lookup of the written file) and yields the path of the media file;
    [ffmpeg_probe] yields [float(video_info['duration'])]; [ffmpeg_run] is
    one [ffmpeg.input(video, ss=t).output(out, vframes=1, ...).run()].  Each
    sees the files and may raise. *)
Record Tools :=
  { yt_dlp : str -> str -> gmap str FileContent
             -> result (str * gmap str FileContent);
    ffmpeg_probe : str -> gmap str FileContent -> result Q;
    ffmpeg_run : str -> Z -> str -> gmap str FileContent
                 -> result (gmap str FileContent) }.

Definition frames_dir : str := py "storage/frames".
Definition temp_dir : str := py "storage/temp".

Definition download_video (T : Tools) (video_url output_path : str) : M str :=
  fun w =>
    let w1 := emit w (Download video_url) in
    match yt_dlp T video_url output_path (files w1) with
    | Ok (file, fs) => (set_files w1 fs, Ok file)
    | Raise e =>
        (w1, Raise (Exception (py "Error downloading video with yt-dlp: "
                               ++ str_of_exn e)))
    end.

(** [self.frames_dir / str(video_id)] *)
Definition video_frames_dir (video_id : Z) : str :=
  frames_dir ++ py "/" ++ str_of_Z video_id.

(** [video_frames_dir / f"frame_{frame_count:06d}_{timestamp:.2f}s.jpg"] *)
Definition frame_path (video_id frame_count timestamp : Z) : str :=
  video_frames_dir video_id ++ py "/frame_" ++ format_06d frame_count
  ++ py "_" ++ format_2f timestamp ++ py "s.jpg".

(** The [while current_time < duration] loop, given [fuel] turns. *)
Fixpoint extract_loop (T : Tools) (fuel : nat) (video_path : str)
    (video_id interval : Z) (duration : Q) (current_time frame_count : Z)
    (frame_paths : list str) (timestamps : list Z)
  : P (list str * list Z) :=
  fun w =>
    if Qltb (inject_Z current_time) duration then
      match fuel with
      | O => None
      | S fuel' =>
          let timestamp := current_time in
          let out := frame_path video_id frame_count timestamp in
          let w1 := emit w (Extract video_path timestamp out) in
          match ffmpeg_run T video_path timestamp out (files w1) with
          | Raise e => Some (w1, Raise e)
          | Ok fs =>
              let w2 := set_files w1 fs in
              let '(frame_paths', timestamps') :=
                if path_exists w2 out
                then (frame_paths ++ [out], timestamps ++ [timestamp])
                else (frame_paths, timestamps) in
              extract_loop T fuel' video_path video_id interval duration
                (current_time + interval)%Z (frame_count + 1)%Z
                frame_paths' timestamps' w2
          end
      end
    else Some (w, Ok (frame_paths, timestamps)).

Definition extraction_error {A} (e : exn) : result A :=
  Raise (Exception (py "Error extracting frames: " ++ str_of_exn e)).

Definition extract_frames_from_video (T : Tools) (fuel : nat)
    (video_path : str) (video_id interval : Z) : P (list (str * Z)) :=
  fun w =>
    match mkdir (video_frames_dir video_id) w with
    | (w0, Raise e) => Some (w0, extraction_error e)
    | (w0, Ok _) =>
        let w1 := emit w0 (Probe video_path) in
        match ffmpeg_probe T video_path (files w1) with
        | Raise e => Some (w1, extraction_error e)
        | Ok duration =>
            match extract_loop T fuel video_path video_id interval duration
                    0%Z 0%Z [] [] w1 with
            | None => None
            | Some (w2, Raise e) => Some (w2, extraction_error e)
            | Some (w2, Ok (frame_paths, timestamps)) =>
                Some (w2, Ok (combine frame_paths timestamps))
            end
        end
    end.

Fixpoint add_frames (video_id : Z) (frame_data : list (str * Z))
  : M (list Frame.t) :=
  match frame_data with
  | [] => ret []
  | (file_path, timestamp) :: rest =>
      let! frame := add_frame video_id (inject_Z timestamp) file_path in
      let! frames := add_frames video_id rest in
      ret (frame :: frames)
  end.

Definition save_frame_records (video_id : Z) (frame_data : list (str * Z))
  : M (list Frame.t) :=
  let! frames := add_frames video_id frame_data in
  commit ;;! ret frames.

Definition of_video (video_id : Z) (f : Frame.t) : bool :=
  (Frame.video_id f =? video_id)%Z.

(** The [finally] block of [process_video_frames]. *)
Definition remove_temporary (temp_video_path : option str) : M unit :=
  fun w =>
    match temp_video_path with
    | Some (c :: p) =>
        if path_exists w (c :: p) then remove (c :: p) w else (w, Ok tt)
    | _ => (w, Ok tt)
    end.

(** The [except] and [finally] blocks, run on the outcome of the [try]
    block and the value [temp_video_path] holds when it ends. *)
Definition leave_processing {A} (temp_video_path : option str)
    (out : World * result A) : World * result A :=
  let '(w, r) := out in
  let r' :=
    match r with
    | Ok a => Ok a
    | Raise e =>
        Raise (Exception (py "Error processing video frames: " ++ str_of_exn e))
    end in
  match remove_temporary temp_video_path w with
  | (w', Ok _) => (w', r')
  | (w', Raise e) => (w', Raise e)
  end.

Definition process_video_frames (T : Tools) (fuel : nat) (video_id : Z)
    (video_url : str) (interval : Z) : P (list Frame.t) :=
  fun w =>
    let '(w1, existing_frames) :=
      run_query (fun t => find (of_video video_id) (frames t)) w in
    match existing_frames with
    | Some _ =>
        let '(w2, all) :=
          run_query (fun t => List.filter (of_video video_id) (frames t)) w1 in
        Some (leave_processing None (w2, Ok all))
    | None =>
        match download_video T video_url temp_dir w1 with
        | (w2, Raise e) => Some (leave_processing None (w2, Raise e))
        | (w2, Ok temp_video_path) =>
            match extract_frames_from_video T fuel temp_video_path video_id
                    interval w2 with
            | None => None
            | Some (w3, Raise e) =>
                Some (leave_processing (Some temp_video_path) (w3, Raise e))
            | Some (w3, Ok frame_data) =>
                Some (leave_processing (Some temp_video_path)
                        (save_frame_records video_id frame_data w3))
            end
        end
    end.


(** The [filter(...)] of [get_frame_by_timestamp]: the two bounds are the
    doubles [timestamp - tolerance] and [timestamp + tolerance]. *)
Definition in_window (video_id : Z) (timestamp tolerance : Q) (f : Frame.t)
  : bool :=
  of_video video_id f
  && Qle_bool (fsub timestamp tolerance) (Frame.timestamp f)
  && Qle_bool (Frame.timestamp f) (fadd timestamp tolerance).

(** [abs(f.timestamp - timestamp)], the key of the [min]. *)
Definition distance (timestamp : Q) (f : Frame.t) : Q :=
  Qabs (fsub (Frame.timestamp f) timestamp).

Definition get_frame_by_timestamp (video_id : Z) (timestamp tolerance : Q)
  : M (option Frame.t) :=
  if negb (bindable video_id) then raise OverflowError
  else
    let! frames :=
      query (fun t => sort_asc Frame.timestamp
                        (List.filter (in_window video_id timestamp tolerance)
                                (frames t))) in
    match frames with
    | [] => ret None
    | _ => ret (min_by (distance timestamp) frames)
    end.

(** The [for frame in frames] loop of [cleanup_video_frames]. *)
Fixpoint remove_frames (frames : list Frame.t) : M unit :=
  match frames with
  | [] => ret tt
  | frame :: rest =>
      (fun w => if path_exists w (Frame.path frame)
                then remove (Frame.path frame) w
                else (w, Ok tt)) ;;!
      delete_frame frame ;;!
      remove_frames rest
  end.

Definition cleanup_video_frames (video_id : Z) : M unit :=
  try_exceptM
    (let! frames := query (fun t => List.filter (of_video video_id) (frames t)) in
     remove_frames frames ;;!
     (fun w =>
        if path_exists w (video_frames_dir video_id) then
          match directory_is_empty w (video_frames_dir video_id) with
          | Ok true => rmdir (video_frames_dir video_id) w
          | Ok false => (w, Ok tt)
          | Raise e => (w, Raise e)
          end
        else (w, Ok tt)) ;;!
     commit)
    (fun e => raise (Exception (py "Error cleaning up video frames: "
                                ++ str_of_exn e))).

End FrameExtractor.

(** ** [app/services/simple_embeddings.py] *)

Module SimpleEmbeddings.
Import Py Store.

(** The CLIP model once it is loaded.  [encode_image] is the chain
    [Image.open(path).convert('RGB')], [preprocess], [model.encode_image],
    normalisation, [.cpu().numpy()] on the bytes of a frame image;
    [encode_text] is tokenizer, [model.encode_text] and normalisation;
    [cosine_similarity] is [torch.from_numpy] on a stored vector followed by
    [torch.cosine_similarity(...).item()].  Any of them may raise. *)
Record Model :=
  { encode_image : FileContent -> result (list Q);
    encode_text : str -> result (list Q);
    cosine_similarity : list Q -> list Q -> result Q }.

(** The service object: [self.model] is [None] until the first load. *)
Record Service := { model : option Model }.

(** [_load_clip_model]; [open_clip] is the outcome of
    [open_clip.create_model_and_transforms] and [get_tokenizer]. *)
Definition _load_clip_model (open_clip : result Model) (self : Service)
  : result (Service * Model) :=
  match model self with
  | Some m => Ok (self, m)
  | None => let* m := open_clip in Ok ({| model := Some m |}, m)
  end.

Definition embeddings_dir (video_id : Z) : str :=
  py "storage/embeddings/video_" ++ str_of_Z video_id.

Definition embeddings_file (video_id : Z) : str :=
  embeddings_dir video_id ++ py "/frame_embeddings.pkl".

Definition of_video (video_id : Z) (f : Frame.t) : bool :=
  (Frame.video_id f =? video_id)%Z.

(** What [generate_frame_embeddings] returns. *)
Inductive Generated :=
| Error (error : str) (processed : Z)
| Success (processed : Z) (total_frames : nat) (embeddings_file : option str).

(** The body of the [for frame in frames] loop: the triple of a frame, or
    nothing when the frame is skipped (image missing, or any exception). *)
Definition embed_frame (m : Model) (w : World) (frame : Frame.t)
  : option EmbeddingRecord :=
  if path_exists w (Frame.path frame) then
    match (let* image := read_file w (Frame.path frame) in encode_image m image) with
    | Ok v =>
        Some {| frame_id := Frame.id frame;
                timestamp := Frame.timestamp frame;
                embedding := v |}
    | Raise _ => None
    end
  else None.

Fixpoint embed_loop (m : Model) (w : World) (frames : list Frame.t)
    (embeddings : list EmbeddingRecord) (processed_count : Z)
  : list EmbeddingRecord * Z :=
  match frames with
  | [] => (embeddings, processed_count)
  | frame :: rest =>
      match embed_frame m w frame with
      | Some r => embed_loop m w rest (embeddings ++ [r]) (processed_count + 1)%Z
      | None => embed_loop m w rest embeddings processed_count
      end
  end.

Definition generate_frame_embeddings (open_clip : result Model)
    (self : Service) (video_id : Z) (w : World)
  : World * Service * Generated :=
  match _load_clip_model open_clip self with
  | Raise e => (w, self, Error (str_of_exn e) 0)
  | Ok (self', m) =>
      if negb (bindable video_id) then
        (w, self', Error (str_of_exn OverflowError) 0)
      else
        let '(w1, frames) :=
          run_query (fun t => List.filter (of_video video_id) (frames t)) w in
        match frames with
        | [] => (w1, self', Error (py "No frames found") 0)
        | _ =>
            match mkdir_parents (embeddings_dir video_id) w1 with
            | (w2, Raise e) => (w2, self', Error (str_of_exn e) 0)
            | (w2, Ok _) =>
                let '(embeddings, processed_count) :=
                  embed_loop m w2 frames [] 0%Z in
                match embeddings with
                | [] => (w2, self', Success processed_count (length frames) None)
                | _ =>
                    match write_file (embeddings_file video_id)
                            (Pickle embeddings) w2 with
                    | (w3, Raise e) => (w3, self', Error (str_of_exn e) 0)
                    | (w3, Ok _) =>
                        (w3, self',
                         Success processed_count (length frames)
                                 (Some (embeddings_file video_id)))
                    end
                end
            end
        end
  end.

(** One scored entry of [similarities]. *)
Module Hit.
Record t := { frame_id : Z; timestamp : Q; similarity : Q }.
End Hit.

(** One entry of the list [search_visual_content] returns. *)
Module SearchResult.
Record t := { frame_id : Z; timestamp : Q; path : str; similarity : Q }.
End SearchResult.

(** [pickle.load(f)], used as the list of triples it should be. *)
Definition pickle_load (c : FileContent) : result (list EmbeddingRecord) :=
  match c with
  | Pickle data => Ok data
  | Bytes _ => Raise (LibraryError (py "could not unpickle the embeddings"))
  end.

(** The [for item in embeddings_data] loop. *)
Fixpoint score (m : Model) (text_embedding : list Q)
    (embeddings_data : list EmbeddingRecord) : result (list Hit.t) :=
  match embeddings_data with
  | [] => Ok []
  | item :: rest =>
      let* similarity := cosine_similarity m text_embedding (embedding item) in
      let* similarities := score m text_embedding rest in
      Ok ({| Hit.frame_id := frame_id item;
             Hit.timestamp := timestamp item;
             Hit.similarity := similarity |} :: similarities)
  end.

(** The [for result in results] loop: one query per surviving result. *)
Fixpoint detail (results : list Hit.t) (w : World)
  : World * list SearchResult.t :=
  match results with
  | [] => (w, [])
  | result :: rest =>
      let '(w1, frame) :=
        run_query (fun t => find (fun f => (Frame.id f =? Hit.frame_id result)%Z)
                                 (frames t)) w in
      let '(w2, detailed_results) := detail rest w1 in
      match frame with
      | Some f =>
          (w2, {| SearchResult.frame_id := Frame.id f;
                  SearchResult.timestamp := Frame.timestamp f;
                  SearchResult.path := Frame.path f;
                  SearchResult.similarity := Hit.similarity result |}
               :: detailed_results)
      | None => (w2, detailed_results)
      end
  end.

(** The ranking: everything between loading the artifact and the database
    lookups. *)
Definition rank (m : Model) (query : str) (limit : Z) (content : FileContent)
  : result (list Hit.t) :=
  let* embeddings_data := pickle_load content in
  match embeddings_data with
  | [] => Ok []
  | _ =>
      let* text_embedding := encode_text m query in
      let* similarities := score m text_embedding embeddings_data in
      Ok (slice_to (sort_desc Hit.similarity similarities) limit)
  end.

(** The [try] block of [search_visual_content]. *)
Definition search_try (open_clip : result Model) (self : Service)
    (video_id : Z) (query : str) (limit : Z) (w : World)
  : World * Service * result (list SearchResult.t) :=
  match _load_clip_model open_clip self with
  | Raise e => (w, self, Raise e)
  | Ok (self', m) =>
      if negb (path_exists w (embeddings_file video_id)) then (w, self', Ok [])
      else
        match (let* content := read_file w (embeddings_file video_id) in
               rank m query limit content) with
        | Raise e => (w, self', Raise e)
        | Ok results =>
            let '(w', detailed_results) := detail results w in
            (w', self', Ok detailed_results)
        end
  end.

Definition search_visual_content (open_clip : result Model) (self : Service)
    (video_id : Z) (query : str) (limit : Z) (w : World)
  : World * Service * result (list SearchResult.t) :=
  match search_try open_clip self video_id query limit w with
  | (w', self', Raise _) => (w', self', Ok [])
  | out => out
  end.

(** What [get_embeddings_status] returns. *)
Module Status.
Record t := { video_id : Z; embeddings_exist : bool; embeddings_file : option str }.
End Status.

Definition get_embeddings_status (video_id : Z) (w : World) : Status.t :=
  {| Status.video_id := video_id;
     Status.embeddings_exist := path_exists w (embeddings_file video_id);
     Status.embeddings_file :=
       if path_exists w (embeddings_file video_id)
       then Some (embeddings_file video_id) else None |}.

End SimpleEmbeddings.

(** ** [app/services/langchain_service.py] *)

Module LangChain.
Import Py Store.

(** One transcript segment: [{"text", "start", "duration"}]. *)
Record Segment := { text : str; start : Q; duration : Q }.

(** One chunk document handed to the vector store. *)
Record ChunkDoc :=
  { page_content : str; chunk_id : nat; approximate_start_time : Q;
    timestamp : str }.

(** The libraries behind the service: the transcript API, the text splitter,
    the vector store, and the retrieval chain.  [chroma_from_documents]
    yields the files it leaves behind, whether the build went through or
    raised.  [load_qa_chain dir] stands for
    [Chroma(persist_directory=dir, ...)], [as_retriever] and
    [RetrievalQA.from_chain_type]; the chain it yields maps a query to
    [result["result"]].  The service object is taken as constructed. *)
Record Libraries :=
  { get_transcript : str -> result (list Segment);
    split_text : str -> list str;
    chroma_from_documents : list ChunkDoc -> str -> gmap str FileContent
                            -> gmap str FileContent * result unit;
    load_qa_chain : str -> gmap str FileContent -> result (str -> result str) }.

(** The same text as [VideoService.extract_video_id]. *)
Definition extract_video_id (url : str) : result str :=
  VideoService.extract_video_id url.

Definition fetch_transcript (L : Libraries) (video_url : str) : list Segment :=
  match (let* video_id := extract_video_id video_url in
         get_transcript L video_id) with
  | Ok transcript => transcript
  | Raise _ => []
  end.

(** The dictionary [process_transcript] returns. *)
Record Processed :=
  { success : bool; message : str; segments_count : nat; chunks_count : nat;
    vectorstore_path : option str }.

Definition chroma_dir (video_id : Z) : str :=
  py "storage/chroma/video_" ++ str_of_Z video_id.

(** [f"{int(t//60):02d}:{int(t%60):02d}"] *)
Definition clock (t : Q) : str :=
  let minutes := Qfloor (t / 60)%Q in
  format_0d 2 minutes ++ py ":"
  ++ format_0d 2 (Qfloor (t - inject_Z (60 * minutes)))%Q.

(** The texts of the segments that are not blank, stripped. *)
Fixpoint full_text_parts (segments : list Segment) : list str :=
  match segments with
  | [] => []
  | segment :: rest =>
      match strip (text segment) with
      | [] => full_text_parts rest
      | t => t :: full_text_parts rest
      end
  end.

(** [segments[-1].get("start", 0)] *)
Definition last_start (segments : list Segment) : Q :=
  match List.last (map Some segments) None with
  | Some s => start s
  | None => 0%Q
  end.

(** The [for i, chunk in enumerate(chunks)] loop from index [i] on. *)
Fixpoint chunk_docs (n : nat) (last : Q) (i : nat) (chunks : list str)
  : list ChunkDoc :=
  match chunks with
  | [] => []
  | chunk :: rest =>
      let chunk_start :=
        (inject_Z (Z.of_nat i) / inject_Z (Z.of_nat n) * last)%Q in
      {| page_content := chunk; chunk_id := i;
         approximate_start_time := chunk_start;
         timestamp := clock chunk_start |}
      :: chunk_docs n last (S i) rest
  end.

Definition process_transcript (L : Libraries) (video_id : Z) (video_url : str)
  : M Processed :=
  fun w =>
    match fetch_transcript L video_url with
    | [] =>
        (w, Ok {| success := false;
                  message := py "No transcript available for this video";
                  segments_count := 0; chunks_count := 0;
                  vectorstore_path := None |})
    | segments =>
        let full_text := Py.join (py " ") (full_text_parts segments) in
        let chunks := split_text L full_text in
        let docs := chunk_docs (length chunks) (last_start segments) 0 chunks in
        match mkdir_parents (chroma_dir video_id) w with
        | (w1, Raise e) => (w1, Raise e)
        | (w1, Ok _) =>
            match chroma_from_documents L docs (chroma_dir video_id) (files w1) with
            | (fs, Ok _) =>
                (set_files w1 fs,
                 Ok {| success := true;
                       message := py "Transcript processed successfully";
                       segments_count := length segments;
                       chunks_count := length docs;
                       vectorstore_path := Some (chroma_dir video_id) |})
            | (fs, Raise e) =>
                (set_files w1 fs,
                 Ok {| success := false;
                       message := py "Failed to create embeddings: "
                                  ++ str_of_exn e;
                       segments_count := length segments; chunks_count := 0;
                       vectorstore_path := None |})
            end
        end
    end.

Definition get_qa_chain (L : Libraries) (video_id : Z) (w : World)
  : option (str -> result str) :=
  if negb (path_exists w (chroma_dir video_id)) then None
  else
    match load_qa_chain L (chroma_dir video_id) (files w) with
    | Ok chain => Some chain
    | Raise _ => None
    end.

(** A section as [generate_sections] drafts it. *)
Record Draft := { title : str; start_time : Q; end_time : Q }.

Definition sections_query : str :=
  py "
            Analyze this video transcript and create 3-5 main sections that best organize the content.
            For each section, provide a clear, descriptive title (3-8 words) that captures the main topic.
            
            Look for natural breaks in content, topic changes, or different phases of discussion.
            
            Format your response as a numbered list like this:
            1. Introduction and Overview
            2. Main Topic Discussion  
            3. Key Examples and Case Studies
            4. Practical Applications
            5. Summary and Conclusions
            
            Only provide the titles, one per line, numbered.
            ".

Section Titles.

(** [str.isdigit] on one character: the Unicode database's table of
    digits. *)
Variable isdigit : N -> bool.

(** The bullet character U+2022. *)
Definition bullet : N := 8226.

(** The removal of the numbering or the bullet of a stripped, non-empty
    line. *)
Definition clean_line (line : str) : str :=
  match line with
  | [] => []
  | c :: rest =>
      if isdigit c && contains 46 line then
        match split1 46 line with
        | (_, Some after) => strip after
        | (_, None) => line
        end
      else if char_eqb c 45 || char_eqb c bullet then strip rest
      else line
  end.

(** The [for line in lines] loop: the titles kept, in order. *)
Fixpoint parse_titles (lines : list str) : list str :=
  match lines with
  | [] => []
  | line :: rest =>
      match strip line with
      | [] => parse_titles rest
      | line' =>
          let cleaned_line := clean_line line' in
          if (5 <? length cleaned_line)%nat && (length cleaned_line <? 100)%nat
          then cleaned_line :: parse_titles rest
          else parse_titles rest
      end
  end.

(** The [for i, section in enumerate(sections)] loop from index [i] on. *)
Fixpoint add_timing (section_duration : Q) (i : nat) (titles : list str)
  : list Draft :=
  match titles with
  | [] => []
  | t :: rest =>
      {| title := t;
         start_time := (inject_Z (Z.of_nat i) * section_duration)%Q;
         end_time := (inject_Z (Z.of_nat (i + 1)) * section_duration)%Q |}
      :: add_timing section_duration (S i) rest
  end.

Definition total_duration : Q := 300%Q.

Definition generate_sections (L : Libraries) (video_id : Z) (w : World)
  : list Draft :=
  match get_qa_chain L video_id w with
  | None =>
      [ {| title := py "Introduction"; start_time := 0%Q; end_time := 60%Q |};
        {| title := py "Main Content"; start_time := 60%Q; end_time := 240%Q |};
        {| title := py "Conclusion"; start_time := 240%Q; end_time := 300%Q |} ]
  | Some qa_chain =>
      match qa_chain sections_query with
      | Ok answer =>
          let sections :=
            match parse_titles (split 10 answer) with
            | [] => [ py "Video Introduction"; py "Main Discussion";
                      py "Key Points"; py "Conclusion" ]
            | parsed => parsed
            end in
          let section_duration :=
            (total_duration / inject_Z (Z.of_nat (length sections)))%Q in
          add_timing section_duration 0 sections
      | Raise _ =>
          [ {| title := py "Video Introduction"; start_time := 0%Q; end_time := 75%Q |};
            {| title := py "Main Content"; start_time := 75%Q; end_time := 225%Q |};
            {| title := py "Summary"; start_time := 225%Q; end_time := 300%Q |} ]
      end
  end.

End Titles.

(** [str.isdigit] restricted to the ASCII digits, for concrete runs. *)
Definition ascii_isdigit (c : N) : bool := ((48 <=? c) && (c <=? 57))%N.

(** A retrieved source document: its text and the metadata keys
    [ask_question] reads, each of which may be absent. *)
Module Source.
Record t :=
  { page_content : str; timestamp : option str; start_time : option Q;
    approximate_start_time : option Q }.
End Source.

(** One formatted source of an answer. *)
Module Cited.
Record t := { content : str; timestamp : str; start_time : Q }.
End Cited.

(** What [ask_question] returns. *)
Module Answer.
Record t := { success : bool; answer : str; sources : list Cited.t }.
End Answer.

(** [text[:200] + "..." if len(text) > 200 else text] *)
Definition truncate_200 (text : str) : str :=
  if (200 <? length text)%nat then slice_to text 200 ++ py "..." else text.

(** The formatting of one source document. *)
Definition format_source (doc : Source.t) : Cited.t :=
  {| Cited.content := truncate_200 (Source.page_content doc);
     Cited.timestamp :=
       match Source.timestamp doc with
       | Some t => t
       | None => py "00:00"
       end;
     Cited.start_time :=
       match Source.start_time doc with
       | Some t => t
       | None =>
           match Source.approximate_start_time doc with
           | Some t => t
           | None => 0%Q
           end
       end |}.

(** [ask_question].  The call [qa_chain({"query": question})] yields the
    answer through the chain of [get_qa_chain] and, in the same result, the
    documents [source_documents question]. *)
Definition ask_question (L : Libraries) (source_documents : str -> list Source.t)
    (video_id : Z) (question : str) (w : World) : Answer.t :=
  match get_qa_chain L video_id w with
  | None =>
      {| Answer.success := false;
         Answer.answer :=
           py "Sorry, I cannot answer questions about this video. The transcript may not be available or processed yet.";
         Answer.sources := [] |}
  | Some qa_chain =>
      match qa_chain question with
      | Ok answer =>
          {| Answer.success := true;
             Answer.answer := answer;
             Answer.sources :=
               map format_source (slice_to (source_documents question) 3) |}
      | Raise e =>
          {| Answer.success := false;
             Answer.answer := py "Sorry, I encountered an error: " ++ str_of_exn e;
             Answer.sources := [] |}
      end
  end.

End LangChain.

(** ** [app/services/frame_service.py] *)

Module FrameService.
Import Py Store.

(** What [extract_frames] returns: the not-found dictionary, or a report
    with [message], [video_id], [extracted_count] and [status].  The lookup
    of the video stands before the [try]: what it raises leaves the
    method. *)
Inductive Extracted :=
| VideoNotFound
| Report (message : str) (video_id : Z) (extracted_count : nat) (status : str).

Definition extract_frames (T : FrameExtractor.Tools) (fuel : nat) (video_id : Z)
  : P Extracted :=
  fun w =>
    if negb (bindable video_id) then Some (w, Raise OverflowError)
    else
      let '(w1, video) :=
        run_query (fun t => find (fun v => (Video.id v =? video_id)%Z) (videos t))
                  w in
      match video with
      | None => Some (w1, Ok VideoNotFound)
      | Some video =>
          match FrameExtractor.process_video_frames T fuel video_id
                  (Video.url video) 10 w1 with
          | None => None
          | Some (w2, Ok frames) =>
              Some (w2, Ok (Report (py "Frame extraction completed successfully")
                                   video_id (length frames) (py "success")))
          | Some (w2, Raise e) =>
              Some (w2, Ok (Report (py "Frame extraction failed: " ++ str_of_exn e)
                                   video_id 0 (py "error")))
          end
      end.

End FrameService.

(** ** [app/api/routes.py] *)

Module Routes.
Import Py Store.

(** The body of the response to [POST /upload]. *)
Record Uploaded :=
  { video_id : Z; message : str; transcript : LangChain.Processed; url : str }.

(** The [for i, section_data in enumerate(sections_data)] loop from index
    [i] on. *)
Fixpoint save_sections (video_id : Z) (i : Z) (sections_data : list LangChain.Draft)
  : M unit :=
  match sections_data with
  | [] => ret tt
  | section_data :: rest =>
      let! _s := add_section video_id (LangChain.title section_data)
                   (inject_Z (i * 60)) (inject_Z ((i + 1) * 60)) in
      save_sections video_id (i + 1)%Z rest
  end.

Definition upload_video (isdigit : N -> bool) (L : LangChain.Libraries)
    (url : str) : M Uploaded :=
  try_exceptM
    (let! video := VideoService.create_video url None in
     let! transcript_result :=
       LangChain.process_transcript L (Video.id video) url in
     (if LangChain.success transcript_result then
        let! sections_data :=
          (fun w => (w, Ok (LangChain.generate_sections isdigit L
                              (Video.id video) w))) in
        save_sections (Video.id video) 0%Z sections_data
      else
        let! _s := add_section (Video.id video) (py "Video Content") 0%Q 300%Q in
        ret tt) ;;!
     commit ;;!
     ret {| video_id := Video.id video;
            message := py "Video uploaded and processed";
            transcript := transcript_result;
            url := url |})
    (fun e => raise (HTTPException 400 (str_of_exn e))).

(** What [FileResponse] is built from. *)
Record FileResponse := { path : str; media_type : str; filename : str }.

Definition serve_frame_image (file_path : str) (w : World) : result FileResponse :=
  let storage_path := PosixPath.join (py "storage") file_path in
  if negb (path_exists w storage_path) then
    Raise (HTTPException 404 (py "Frame image not found"))
  else
    let abs_storage_path := PosixPath.abspath (cwd w) storage_path in
    let abs_storage_dir := PosixPath.abspath (cwd w) (py "storage") in
    if negb (startswith abs_storage_dir abs_storage_path) then
      Raise (HTTPException 403 (py "Access denied"))
    else
      Ok {| path := storage_path; media_type := py "image/jpeg";
            filename := PosixPath.basename file_path |}.

(** The file a [FileResponse] sends: the one its path names. *)
Definition served (w : World) (r : FileResponse) : option FileContent :=
  files w !! key w (path r).

(** A path lies inside a directory when the directory's components are the
    first components of the path. *)
Definition inside (dir p : str) : bool :=
  let d := PosixPath.components dir in
  let c := PosixPath.components p in
  (length d <=? length c)%nat
  && forallb (fun '(a, b) => str_eqb a b) (combine d (take (length d) c)).

(** *** The other routes *)

(** The body of the response to [GET /langchain/status/{video_id}]. *)
Record LangChainStatus :=
  { status_video_id : Z; processed : bool; chroma_path : option str }.

Definition get_langchain_status (video_id : Z) (w : World) : LangChainStatus :=
  {| status_video_id := video_id;
     processed := path_exists w (LangChain.chroma_dir video_id);
     chroma_path :=
       if path_exists w (LangChain.chroma_dir video_id)
       then Some (LangChain.chroma_dir video_id) else None |}.


(** The body of the response to [POST /videos/{video_id}/generate-embeddings]:
    [{error, status: "error"}] or
    [{message, status: "success", processed, total_frames}].  The route's
    own [except] is reached by what its two queries raise; the service
    catches everything else itself. *)
Inductive Embedded :=
| EmbeddingError (error : str)
| EmbeddingSuccess (message : str) (processed : Z) (total_frames : nat).

Definition generate_embeddings (open_clip : result SimpleEmbeddings.Model)
    (video_id : Z) (w : World) : World * Embedded :=
  if negb (bindable video_id) then
    (w, EmbeddingError (py "Failed to generate embeddings: "
                        ++ str_of_exn OverflowError))
  else
    let '(w1, video) :=
      run_query (fun t => find (fun v => (Video.id v =? video_id)%Z) (videos t))
                w in
    match video with
    | None => (w1, EmbeddingError (py "Video not found"))
    | Some _ =>
        let '(w2, frames) :=
          run_query (fun t => List.filter (SimpleEmbeddings.of_video video_id)
                                          (frames t)) w1 in
        match frames with
        | [] => (w2, EmbeddingError (py "No frames found. Extract frames first."))
        | _ =>
            let '(w3, _, result) :=
              SimpleEmbeddings.generate_frame_embeddings open_clip
                {| SimpleEmbeddings.model := None |} video_id w2 in
            match result with
            | SimpleEmbeddings.Success processed total_frames _ =>
                (w3, EmbeddingSuccess
                       (py "Generated embeddings for " ++ str_of_Z processed
                        ++ py " frames")
                       processed total_frames)
            | SimpleEmbeddings.Error error _ => (w3, EmbeddingError error)
            end
        end
    end.

(** One formatted result of [GET /visual-search/{video_id}]. *)
Module Match.
Record t :=
  { frame_id : Z; timestamp : Q; path : str; score : Q; match_type : str }.
End Match.






End Routes.

(** ** Concrete worlds and tools for the examples *)

Module Fixtures.
Import Py Store.

Definition no_tables : Tables := {| videos := []; frames := []; sections := [] |}.

(** A fresh deployment in [/app]: empty database, an empty [storage/]. *)
Definition fresh : World :=
  {| cwd := py "/app";
     files := ∅;
     dirs := {[ py "/app/storage" ]};
     db := {| committed := no_tables; working := no_tables |};
     trace := [] |}.

(** [fresh] after the services were constructed: the directories their
    constructors make are there. *)
Definition deployed : World :=
  set_dirs fresh {[ py "/app/storage"; py "/app/storage/frames";
                    py "/app/storage/temp" ]}.

(** [fresh] with a file next to the storage root, [/app/storage_backup/x.jpg]. *)
Definition with_backup : World :=
  set_files fresh {[ py "/app/storage_backup/x.jpg" := Bytes [255; 216; 255]%N ]}.

(** The media file yt-dlp leaves in the scratch directory. *)
Definition scratch_video : str := py "storage/temp/video_abc123.mp4".

(** The request path that climbs out of [storage/] into the sibling
    directory. *)
Definition climbing_path : str := py "../storage_backup/x.jpg".

Definition row (id video_id : Z) (timestamp : Q) (path : str) : Frame.t :=
  {| Frame.id := id; Frame.video_id := video_id;
     Frame.timestamp := timestamp; Frame.path := path |}.

(** Two frames of video 1 (at 0 s and 10 s) and one of video 2 (at 12 s). *)
Definition three_frames : Tables :=
  {| videos := [];
     frames := [ row 1 1 0 (py "storage/frames/1/frame_000000_0.00s.jpg");
                 row 2 1 10 (py "storage/frames/1/frame_000001_10.00s.jpg");
                 row 3 2 12 (py "storage/frames/2/frame_000000_12.00s.jpg") ];
     sections := [] |}.

(** Frames far from zero, where doubles are 2 apart: video 1 has one at
    -10^16 and one at 10^16, video 2 has one at 10^16 + 4. *)
Definition far_apart : World :=
  let t := {| videos := [];
              frames := [ row 1 1 (-10000000000000000) (py "storage/frames/1/a.jpg");
                          row 2 1 10000000000000000 (py "storage/frames/1/b.jpg");
                          row 3 2 10000000000000004 (py "storage/frames/2/c.jpg") ];
              sections := [] |} in
  set_db fresh {| committed := t; working := t |}.

Definition with_frames : World :=
  set_db fresh {| committed := three_frames; working := three_frames |}.

(** Tools for a 25-second video: ffmpeg writes each frame it is asked for,
    except that the run at 10 s ends without writing a file. *)
Definition skipping_tools : FrameExtractor.Tools :=
  {| FrameExtractor.yt_dlp :=
       fun _ _ fs =>
         Ok (py "storage/temp/video_abc123.mp4",
             <[py "/app/storage/temp/video_abc123.mp4" := Bytes []]> fs);
     FrameExtractor.ffmpeg_probe := fun _ _ => Ok 25%Q;
     FrameExtractor.ffmpeg_run :=
       fun _ ss out fs =>
         Ok (if (ss =? 10)%Z then fs
             else <[PosixPath.abspath (py "/app") out := Bytes [255; 216]%N]> fs) |}.

(** [deployed] with a frame file of video 1 left on disk by an earlier
    run. *)
Definition leftover : World :=
  set_files
    (set_dirs deployed ({[ py "/app/storage/frames/1" ]} ∪ dirs deployed))
    {[ py "/app/storage/frames/1/frame_000001_10.00s.jpg" := Bytes [255; 216]%N ]}.

(** Tools for a 25-second video on which every ffmpeg run fails. *)
Definition crashing_tools : FrameExtractor.Tools :=
  {| FrameExtractor.yt_dlp := FrameExtractor.yt_dlp skipping_tools;
     FrameExtractor.ffmpeg_probe := fun _ _ => Ok 25%Q;
     FrameExtractor.ffmpeg_run :=
       fun _ _ _ _ => Raise (LibraryError (py "ffmpeg error")) |}.

(** A toy CLIP with one-dimensional vectors: an image embeds as its first
    byte over 256, every text as [1], and the similarity of a stored vector
    is its component. *)
Definition toy_model : SimpleEmbeddings.Model :=
  {| SimpleEmbeddings.encode_image :=
       fun c => match c with
                | Bytes (b :: _) => Ok [(inject_Z (Z.of_N b) / 256)%Q]
                | _ => Raise (LibraryError (py "cannot identify image file"))
                end;
     SimpleEmbeddings.encode_text := fun _ => Ok [1%Q];
     SimpleEmbeddings.cosine_similarity :=
       fun _ v => match v with
                  | [x] => Ok x
                  | _ => Raise (LibraryError (py "shape mismatch"))
                  end |}.

(** A service object that has not loaded its model yet. *)
Definition cold : SimpleEmbeddings.Service := {| SimpleEmbeddings.model := None |}.

Definition artifact_1 : str :=
  py "/app/storage/embeddings/video_1/frame_embeddings.pkl".

Definition triple (frame_id : Z) (timestamp : Q) (x : Q) : EmbeddingRecord :=
  {| frame_id := frame_id; timestamp := timestamp; embedding := [x] |}.

(** [with_frames] plus an artifact for video 1 that scores frame 1 at 1/2
    and frame 2 at 9/10. *)
Definition indexed : World :=
  set_files with_frames
    {[ artifact_1 := Pickle [triple 1 0 (1 # 2); triple 2 10 (9 # 10)] ]}.


(** [with_frames] plus an artifact left by an earlier run over a frame 9
    that is gone; the images of the present frames are not on disk. *)
Definition stale : World :=
  set_files with_frames {[ artifact_1 := Pickle [triple 9 90 (1 # 3)] ]}.

(** [stale] with the images of frames 1 and 2 on disk. *)
Definition stale_with_images : World :=
  set_files with_frames
    {[ artifact_1 := Pickle [triple 9 90 (1 # 3)];
       py "/app/storage/frames/1/frame_000000_0.00s.jpg" := Bytes [64; 216]%N;
       py "/app/storage/frames/1/frame_000001_10.00s.jpg" := Bytes [128; 216]%N ]}.

(** [with_frames] where a regular file sits at the path of the frame
    directory of video 1. *)
Definition blocked : World :=
  set_files with_frames {[ py "/app/storage/frames/1" := Bytes [] ]}.

(** [with_frames] plus an artifact that is not a pickle. *)
Definition corrupt : World :=
  set_files with_frames {[ artifact_1 := Bytes [0; 1; 2]%N ]}.

(** Libraries for a video without captions: the transcript API raises. *)
Definition no_captions : LangChain.Libraries :=
  {| LangChain.get_transcript :=
       fun _ => Raise (LibraryError (py "TranscriptsDisabled"));
     LangChain.split_text := fun s => [s];
     LangChain.chroma_from_documents := fun _ _ fs => (fs, Ok tt);
     LangChain.load_qa_chain :=
       fun _ _ => Raise (LibraryError (py "no vector store")) |}.

(** Libraries whose retrieval chain answers every query with [answer]. *)
Definition answering (answer : str) : LangChain.Libraries :=
  {| LangChain.get_transcript := fun _ => Ok [];
     LangChain.split_text := fun s => [s];
     LangChain.chroma_from_documents := fun _ _ fs => (fs, Ok tt);
     LangChain.load_qa_chain := fun _ _ => Ok (fun _ => Ok answer) |}.

(** Libraries for a video with a one-segment transcript, a vector store
    that builds, and a chain that answers every query with [answer]. *)
Definition captioned (answer : str) : LangChain.Libraries :=
  {| LangChain.get_transcript :=
       fun _ => Ok [ {| LangChain.text := py "hello world";
                        LangChain.start := 0%Q;
                        LangChain.duration := 2%Q |} ];
     LangChain.split_text := fun s => [s];
     LangChain.chroma_from_documents := fun _ _ fs => (fs, Ok tt);
     LangChain.load_qa_chain := fun _ _ => Ok (fun _ => Ok answer) |}.

(** [fresh] with the vector-store directory of video 1 in place. *)
Definition processed : World :=
  set_dirs fresh ({[ py "/app/storage/chroma/video_1" ]} ∪ dirs fresh).

End Fixtures.

(** ** Names the statements of Part II use *)

Module Vocabulary.
Import Py Store.

(** The failure result of [process_transcript]. *)
Definition no_transcript : LangChain.Processed :=
  {| LangChain.success := false;
     LangChain.message := py "No transcript available for this video";
     LangChain.segments_count := 0;
     LangChain.chunks_count := 0;
     LangChain.vectorstore_path := None |}.

(** The fallback section of the upload endpoint, as a predicate on a row. *)
Definition is_fallback_section (video_id : Z) (s : Section.t) : Prop :=
  Section.video_id s = video_id
  /\ Section.title s = py "Video Content"
  /\ Section.start_time s = 0%Q
  /\ Section.end_time s = 300%Q.

(** [g] is a usable id cut out of [s]: not empty, made of characters of the
    class [[^&\n?#]], and a contiguous piece of [s]. *)
Definition well_formed_id (s g : str) : Prop :=
  g <> []
  /\ Forall (fun c => VideoService.id_char c = true) g
  /\ exists before after, s = before ++ g ++ after.

(** The test of the lookup in [create_video]. *)
Definition same_url (url : str) (v : Video.t) : bool := str_eqb (Video.url v) url.

(** A frame the lookup by timestamp may return: a row of the video whose
    timestamp lies between the two bounds. *)
Definition candidate (w : World) (video_id : Z) (lo hi : Q) (g : Frame.t) : Prop :=
  In g (frames (working (db w)))
  /\ Frame.video_id g = video_id
  /\ (lo <= Frame.timestamp g)%Q /\ (Frame.timestamp g <= hi)%Q.


(** What a Frame row keeps of a [(path, timestamp)] pair. *)
Definition as_pair (f : Frame.t) : str * Q := (Frame.path f, Frame.timestamp f).

Definition of_pair (d : str * Z) : str * Q := (fst d, inject_Z (snd d)).

(** The times the upload endpoint gives the section of index [k]. *)
Definition slot (k : nat) : Q * Q :=
  (inject_Z (Z.of_nat k * 60), inject_Z ((Z.of_nat k + 1) * 60)).

Definition span (s : Section.t) : Q * Q :=
  (Section.start_time s, Section.end_time s).


(** The approximate start of chunk [i] out of [n]. *)
Definition chunk_time (n : nat) (last : Q) (i : nat) : Q :=
  (inject_Z (Z.of_nat i) / inject_Z (Z.of_nat n) * last)%Q.

(** Ascending order of approximate start times, ties allowed. *)
Definition by_start (a b : LangChain.ChunkDoc) : Prop :=
  (LangChain.approximate_start_time a <= LangChain.approximate_start_time b)%Q.

(** Ends of drafted sections grow strictly. *)
Definition ends_increase (a b : LangChain.Draft) : Prop :=
  (LangChain.end_time a < LangChain.end_time b)%Q.

(** The last element of a list, if any. *)
Definition final {A} (l : list A) : option A := List.last (map Some l) None.


(** *** The schedule of [extract_frames_from_video] *)

(** How many of the times [0, i, 2i, ...] lie strictly below [d]. *)
Definition attempts (d : Q) (interval : Z) : nat :=
  Z.to_nat (Qceiling (d / inject_Z interval)).

(** The time and the output path of the attempt of index [k]. *)
Definition attempt_time (interval : Z) (k : nat) : Z := (Z.of_nat k * interval)%Z.

Definition attempt_path (video_id interval : Z) (k : nat) : str :=
  FrameExtractor.frame_path video_id (Z.of_nat k) (attempt_time interval k).

Definition attempt_event (video_path : str) (video_id interval : Z) (k : nat)
  : Effect :=
  Extract video_path (attempt_time interval k) (attempt_path video_id interval k).

(** The attempt of index [k]: one ffmpeg run, recorded in the trace. *)
Definition run_attempt (T : FrameExtractor.Tools) (video_path : str)
    (video_id interval : Z) (k : nat) (w : World) : World :=
  let w1 := emit w (attempt_event video_path video_id interval k) in
  match FrameExtractor.ffmpeg_run T video_path (attempt_time interval k)
          (attempt_path video_id interval k) (files w1) with
  | Ok fs => set_files w1 fs
  | Raise _ => w1
  end.

(** The world after the attempts of index below [k]. *)
Fixpoint world_after (T : FrameExtractor.Tools) (video_path : str)
    (video_id interval : Z) (k : nat) (w : World) : World :=
  match k with
  | O => w
  | S k' =>
      run_attempt T video_path video_id interval k'
        (world_after T video_path video_id interval k' w)
  end.

(** The tool produced a file at attempt [k]: the output path exists right
    after that run. *)
Definition produced (T : FrameExtractor.Tools) (video_path : str)
    (video_id interval : Z) (w : World) (k : nat) : bool :=
  path_exists (world_after T video_path video_id interval (S k) w)
              (attempt_path video_id interval k).

(** The run of attempt [k] returns (it does not raise). *)
Definition run_returns (T : FrameExtractor.Tools) (video_path : str)
    (video_id interval : Z) (w : World) (k : nat) : Prop :=
  exists fs,
    FrameExtractor.ffmpeg_run T video_path (attempt_time interval k)
      (attempt_path video_id interval k)
      (files (emit (world_after T video_path video_id interval k w)
                   (attempt_event video_path video_id interval k)))
    = Ok fs.

(** The world in which the loop starts: the per-video directory made, the
    probe done. *)
Definition loop_start (video_path : str) (video_id : Z) (w : World) : World :=
  emit (fst (mkdir (FrameExtractor.video_frames_dir video_id) w)) (Probe video_path).

End Vocabulary.

(* ================================================================== *)
(** * Part II: verification                                            *)
(* ================================================================== *)

(** ** The embedding agrees with CPython on sample inputs *)

Module Samples.
Import Py.

Example format_06d_12 : format_06d 12 = py "000012".
Proof. reflexivity. Qed.

Example format_2f_10 : format_2f 10 = py "10.00".
Proof. reflexivity. Qed.

Example split_dots : split 46 (py "a.b..c") = [py "a"; py "b"; []; py "c"].
Proof. reflexivity. Qed.

Example strip_blanks : strip (py "  a b  ") = py "a b".
Proof. reflexivity. Qed.

Example slice_to_minus_one : slice_to [1; 2; 3] (-1) = [1; 2].
Proof. reflexivity. Qed.

Example normpath_mixed :
  PosixPath.normpath (py "//a/./b//../../../c/") = py "//c".
Proof. reflexivity. Qed.

Example normpath_relative : PosixPath.normpath (py "../a/../../b") = py "../../b".
Proof. reflexivity. Qed.

Example abspath_storage : PosixPath.abspath (py "/app") (py "storage") = py "/app/storage".
Proof. reflexivity. Qed.

Example video_id_short_link :
  VideoService.extract_video_id (py "https://youtu.be/abc123") = Ok (py "abc123").
Proof. reflexivity. Qed.

Example video_id_watch :
  VideoService.extract_video_id (py "https://www.youtube.com/watch?v=dQw4w9WgXcQ&t=1")
  = Ok (py "dQw4w9WgXcQ").
Proof. reflexivity. Qed.

Example video_id_last_v :
  VideoService.extract_video_id
    (py "https://www.youtube.com/watch?feature=x&v=AAA&v=BBB#f") = Ok (py "BBB").
Proof. reflexivity. Qed.

Example frame_path_second :
  FrameExtractor.frame_path 7 1 10 = py "storage/frames/7/frame_000001_10.00s.jpg".
Proof. reflexivity. Qed.

End Samples.

(** ** Facts about the Python values *)

Module PyFacts.
Import Py.

Lemma str_eqb_eq a b : str_eqb a b = true <-> a = b.
Proof.
  revert b. induction a as [|x a IH]; intros [|y b]; simpl;
    try (split; [ discriminate | congruence ]); [ tauto | ].
  unfold char_eqb. rewrite andb_true_iff, N.eqb_eq, IH.
  split; [ intros [-> ->]; reflexivity | intros [= -> ->]; auto ].
Qed.

Lemma Qltb_lt a b : Qltb a b = true <-> (a < b)%Q.
Proof.
  unfold Qltb. rewrite negb_true_iff.
  destruct (Qle_bool b a) eqn:H.
  - apply Qle_bool_iff in H. split; [ discriminate | intros; lra ].
  - split; [ intros _ | reflexivity ].
    destruct (Qlt_le_dec a b) as [Hlt|Hle]; [ exact Hlt | ].
    apply Qle_bool_iff in Hle. congruence.
Qed.

Lemma Qltb_ge a b : Qltb a b = false <-> (b <= a)%Q.
Proof.
  unfold Qltb. rewrite negb_false_iff. apply Qle_bool_iff.
Qed.

Section Sorting.
Context {A : Type} (key : A -> Q).

Lemma insert_asc_In x a l : In x (insert_asc key a l) <-> x = a \/ In x l.
Proof.
  induction l as [|y l IH]; simpl.
  - intuition.
  - destruct (Qle_bool (key a) (key y)); simpl; [ intuition | ].
    rewrite IH. intuition.
Qed.

Lemma sort_asc_In x l : In x (sort_asc key l) <-> In x l.
Proof.
  induction l as [|a l IH]; simpl; [ tauto | ].
  rewrite insert_asc_In, IH. intuition.
Qed.

Lemma insert_desc_In x a l : In x (insert_desc key a l) <-> x = a \/ In x l.
Proof.
  induction l as [|y l IH]; simpl.
  - intuition.
  - destruct (Qle_bool (key y) (key a)); simpl; [ intuition | ].
    rewrite IH. intuition.
Qed.

Lemma sort_desc_In x l : In x (sort_desc key l) <-> In x l.
Proof.
  induction l as [|a l IH]; simpl; [ tauto | ].
  rewrite insert_desc_In, IH. intuition.
Qed.





(** The running best of [min] is one of the elements seen, and no element
    seen has a smaller key. *)
Lemma min_scan_In best l : In (min_scan key best l) (best :: l).
Proof.
  revert best. induction l as [|x l IH]; intros best; simpl; [ auto | ].
  destruct (IH (if Qltb (key x) (key best) then x else best)) as [H|H]; auto.
  destruct (Qltb (key x) (key best)); auto.
Qed.

Lemma min_scan_le best l x :
  In x (best :: l) -> (key (min_scan key best l) <= key x)%Q.
Proof.
  revert best x. induction l as [|y l IH]; intros best x; simpl.
  - intros [->|[]]. apply Qle_refl.
  - intros Hx.
    assert (Hstep : (key (if Qltb (key y) (key best) then y else best) <= key best
                     /\ key (if Qltb (key y) (key best) then y else best) <= key y)%Q).
    { destruct (Qltb (key y) (key best)) eqn:Hlt.
      - apply Qltb_lt in Hlt. split; lra.
      - apply Qltb_ge in Hlt. split; lra. }
    destruct Hstep as [Hb Hy].
    pose proof (IH (if Qltb (key y) (key best) then y else best)) as IH'.
    assert (Hhead := IH' _ (or_introl eq_refl)).
    destruct Hx as [<-|[<-|Hx]].
    + eapply Qle_trans; eauto.
    + eapply Qle_trans; eauto.
    + apply IH'. now right.
Qed.

End Sorting.


(** [min] returns the first of the smallest: every element before it has a
    strictly larger key. *)
Lemma min_scan_first {A} (key : A -> Q) l : forall best,
  exists before after,
    best :: l = before ++ min_scan key best l :: after
    /\ Forall (fun g => (key (min_scan key best l) < key g)%Q) before.
Proof.
  induction l as [|x l IH]; intros best; simpl.
  - exists [], []. split; [ reflexivity | constructor ].
  - destruct (Qltb (key x) (key best)) eqn:Hlt.
    + destruct (IH x) as (l1 & l2 & Heq & Hall).
      exists (best :: l1), l2.
      split; [ rewrite <- app_comm_cons; f_equal; exact Heq | ].
      constructor; [ | exact Hall ].
      apply Qltb_lt in Hlt.
      pose proof (min_scan_le key x l x (or_introl eq_refl)). lra.
    + apply Qltb_ge in Hlt.
      destruct (IH best) as (l1 & l2 & Heq & Hall).
      destruct l1 as [|b l1].
      * injection Heq as Hb Hl. exists [], (x :: l2).
        split; [ cbn [app]; rewrite <- Hb, <- Hl; reflexivity | constructor ].
      * injection Heq as <- Hl. exists (best :: x :: l1), l2.
        split; [ rewrite <- !app_comm_cons; do 2 f_equal; exact Hl | ].
        inversion Hall as [|? ? Hb Hrest]; subst.
        constructor; [ exact Hb | ]. constructor; [ lra | exact Hrest ].
Qed.

Lemma insert_asc_sorted {A} (key : A -> Q) x l :
  StronglySorted (fun a b => (key a <= key b)%Q) l ->
  StronglySorted (fun a b => (key a <= key b)%Q) (insert_asc key x l).
Proof.
  induction 1 as [|y l Hl IH Hy]; simpl.
  - repeat constructor.
  - destruct (Qle_bool (key x) (key y)) eqn:Hle.
    + apply Qle_bool_iff in Hle. constructor; [ now constructor | ].
      constructor; [ exact Hle | ].
      eapply Forall_impl; [ exact Hy | ]. intros z Hz. simpl in *. lra.
    + assert (Hlt : (key y < key x)%Q).
      { destruct (Qlt_le_dec (key y) (key x)) as [H|H]; [ exact H | ].
        apply Qle_bool_iff in H. congruence. }
      constructor; [ exact IH | ].
      apply List.Forall_forall. intros z Hz.
      apply insert_asc_In in Hz as [->|Hz]; [ lra | ].
      eapply List.Forall_forall in Hy; eauto.
Qed.

Lemma sort_asc_sorted {A} (key : A -> Q) l :
  StronglySorted (fun a b => (key a <= key b)%Q) (sort_asc key l).
Proof.
  induction l as [|x l IH]; simpl; [ constructor | now apply insert_asc_sorted ].
Qed.

(** A slice [l[:k]] is a prefix of [l], of at most [k] elements when [k] is
    not negative. *)
Lemma slice_to_prefix {A} (l : list A) k : exists rest, l = slice_to l k ++ rest.
Proof.
  unfold slice_to. destruct (0 <=? k)%Z; eexists; symmetry; apply take_drop.
Qed.

Lemma slice_to_length {A} (l : list A) k :
  (0 <= k)%Z -> (Z.of_nat (length (slice_to l k)) <= k)%Z.
Proof.
  intros Hk. unfold slice_to.
  destruct (0 <=? k)%Z eqn:E; [ | lia ].
  rewrite length_take. lia.
Qed.


Lemma slice_to_In {A} (l : list A) k x : In x (slice_to l k) -> In x l.
Proof.
  destruct (slice_to_prefix l k) as [rest H]. intros Hx.
  rewrite H. apply in_or_app. now left.
Qed.


End PyFacts.

(** ** Facts about the filesystem calls *)

Module StoreFacts.
Import Py Store.

(** Making a directory changes nothing but the set of directories. *)
Lemma mkdir_world p w :
  files (fst (mkdir p w)) = files w /\ cwd (fst (mkdir p w)) = cwd w
  /\ db (fst (mkdir p w)) = db w /\ trace (fst (mkdir p w)) = trace w.
Proof.
  unfold mkdir.
  destruct (is_file w _); [ now repeat split | ].
  destruct (is_dir w (key w p)); [ now repeat split | ].
  destruct (existsb _ _); [ now repeat split | ].
  destruct (is_dir w _); now repeat split.
Qed.

Lemma mkdir_raises p w e : snd (mkdir p w) = Raise e -> fst (mkdir p w) = w.
Proof.
  unfold mkdir.
  destruct (is_file w _); [ reflexivity | ].
  destruct (is_dir w (key w p)); [ reflexivity | ].
  destruct (existsb _ _); [ reflexivity | ].
  destruct (is_dir w _); [ discriminate | reflexivity ].
Qed.

Lemma mkdir_parents_world p w :
  files (fst (mkdir_parents p w)) = files w /\ cwd (fst (mkdir_parents p w)) = cwd w
  /\ db (fst (mkdir_parents p w)) = db w
  /\ trace (fst (mkdir_parents p w)) = trace w.
Proof.
  unfold mkdir_parents.
  destruct (is_file w _); [ now repeat split | ].
  destruct (existsb _ _); now repeat split.
Qed.

Lemma mkdir_parents_raises p w e :
  snd (mkdir_parents p w) = Raise e -> fst (mkdir_parents p w) = w.
Proof.
  unfold mkdir_parents.
  destruct (is_file w _); [ reflexivity | ].
  destruct (existsb _ _); [ reflexivity | discriminate ].
Qed.

(** A directory that was made exists, whatever files are written next. *)
Lemma mkdir_parents_exists p w fs :
  snd (mkdir_parents p w) = Ok tt ->
  path_exists (set_files (fst (mkdir_parents p w)) fs) p = true.
Proof.
  unfold mkdir_parents.
  destruct (is_file w _); [ discriminate | ].
  destruct (existsb _ _); [ discriminate | ]. intros _.
  unfold path_exists, key. cbn [fst cwd files dirs set_files set_dirs].
  destruct (fs !! _); [ reflexivity | ].
  apply bool_decide_eq_true. set_solver.
Qed.

(** Without regular files every directory can be made. *)
Lemma mkdir_parents_no_files p w : files w = ∅ -> snd (mkdir_parents p w) = Ok tt.
Proof.
  intros Hf. unfold mkdir_parents, is_file. rewrite Hf, lookup_empty.
  assert (Hnone : existsb (fun k => match (∅ : gmap str FileContent) !! k with
                                    | Some _ => true
                                    | None => false
                                    end) (ancestors (key w p)) = false).
  { induction (ancestors (key w p)) as [|a l IH]; simpl; [ reflexivity | ].
    now rewrite lookup_empty. }
  now rewrite Hnone.
Qed.

End StoreFacts.

(** ** Frame serving *)

Module RoutesSpec.
Import Py Store Routes Fixtures.

(** C8 (the check misses its aim).  The route compares the two absolute
    paths as strings.  With the working directory [/app], the request path
    [../storage_backup/x.jpg] resolves to [/app/storage_backup/x.jpg], which
    starts with the characters of [/app/storage]: the file is served although
    it does not lie inside the storage root. *)
Theorem C8_prefix_check_serves_sibling_directory :
  PosixPath.abspath (cwd with_backup) (PosixPath.join (py "storage") climbing_path)
    = py "/app/storage_backup/x.jpg"
  /\ inside (PosixPath.abspath (cwd with_backup) (py "storage"))
            (py "/app/storage_backup/x.jpg") = false
  /\ serve_frame_image climbing_path with_backup
     = Ok {| path := py "storage/../storage_backup/x.jpg";
             media_type := py "image/jpeg";
             filename := py "x.jpg" |}
  /\ served with_backup {| path := py "storage/../storage_backup/x.jpg";
                           media_type := py "image/jpeg";
                           filename := py "x.jpg" |}
     = Some (Bytes [255; 216; 255]%N).
Proof. repeat split; vm_compute; reflexivity. Qed.

(** What the check does establish: a served path starts, as a string, with
    the absolute path of the storage root, and names something that
    exists. *)
Lemma serve_frame_image_prefix file_path w r :
  serve_frame_image file_path w = Ok r ->
  path r = PosixPath.join (py "storage") file_path
  /\ path_exists w (path r) = true
  /\ startswith (PosixPath.abspath (cwd w) (py "storage"))
                (PosixPath.abspath (cwd w) (path r)) = true.
Proof.
  unfold serve_frame_image.
  destruct (path_exists w _) eqn:Hex; simpl; [ | discriminate ].
  destruct (startswith _ _) eqn:Hpre; simpl; [ | discriminate ].
  intros [= <-]; simpl. auto.
Qed.

End RoutesSpec.

(** ** Video registry *)

Module VideoServiceSpec.
Import Py Store VideoService Fixtures.

(** An unusable URL stops [create_video] at its first statement. *)
Lemma create_video_invalid url title w e :
  extract_video_id url = Raise e ->
  create_video url title w
  = (emit (set_db w {| committed := committed (db w);
                       working := committed (db w) |}) Rollback, Raise e).
Proof.
  intros He. unfold create_video, try_exceptM, bindM, lift.
  rewrite He. reflexivity.
Qed.

(** The only exception [extract_video_id] raises is its [ValueError]. *)
Lemma extract_video_id_error url e :
  extract_video_id url = Raise e ->
  e = ValueError (py "Could not extract video ID from URL: " ++ url).
Proof.
  unfold extract_video_id.
  destruct (re_search match_pattern1 url); [ discriminate | ].
  destruct (re_search match_pattern2 url); [ discriminate | ].
  now intros [= <-].
Qed.

(** C10.  When no video id can be extracted from the URL, [create_video]
    raises the [ValueError] of [extract_video_id], and nothing but the
    rollback has touched the session: no query ran, no row was added, the
    committed tables are the ones before the call and the open transaction is
    back to them; the filesystem is untouched. *)
Theorem C10_create_video_invalid_url_leaves_database url title w e :
  extract_video_id url = Raise e ->
  let '(w', r) := create_video url title w in
  r = Raise (ValueError (py "Could not extract video ID from URL: " ++ url))
  /\ committed (db w') = committed (db w)
  /\ working (db w') = committed (db w)
  /\ videos (committed (db w')) = videos (committed (db w))
  /\ files w' = files w
  /\ trace w' = trace w ++ [Rollback].
Proof.
  intros He. rewrite (create_video_invalid _ _ _ _ He).
  rewrite (extract_video_id_error _ _ He). simpl. auto 10.
Qed.

(** C10 on a fresh database and the URL [not-a-url]. *)
Lemma C10_witness :
  let '(w', r) := create_video (py "not-a-url") None fresh in
  r = Raise (ValueError (py "Could not extract video ID from URL: not-a-url"))
  /\ committed (db w') = committed (db fresh)
  /\ working (db w') = committed (db fresh)
  /\ videos (committed (db w')) = videos (committed (db fresh))
  /\ files w' = files fresh
  /\ trace w' = trace fresh ++ [Rollback].
Proof.
  apply (C10_create_video_invalid_url_leaves_database
           (py "not-a-url") None fresh
           (ValueError (py "Could not extract video ID from URL: not-a-url"))).
  reflexivity.
Defined.

(** A usable URL: the row returned is the first with that URL, or a new
    row appended and committed. *)
Lemma create_video_valid url title w vid :
  extract_video_id url = Ok vid ->
  exists w' video,
    create_video url title w = (w', Ok video)
    /\ Video.url video = url
    /\ In video (videos (working (db w')))
    /\ sections (working (db w')) = sections (working (db w))
    /\ files w' = files w /\ dirs w' = dirs w /\ cwd w' = cwd w.
Proof.
  intros He. unfold create_video, try_exceptM, bindM, lift, query, run_query.
  rewrite He.
  match goal with
  | |- context [find ?f ?l] => destruct (find f l) as [v|] eqn:Hf
  end.
  - exists (emit w Query), v. apply find_some in Hf as [Hin Heq].
    apply PyFacts.str_eqb_eq in Heq. repeat split; auto.
  - simpl. eexists _, _. split; [ reflexivity | ].
    simpl. repeat split; auto.
    apply in_or_app. right. now left.
Qed.

End VideoServiceSpec.

(** ** Upload *)

Module UploadSpec.
Import Py Store Routes Fixtures Vocabulary.

(** Without a transcript, [process_transcript] returns its failure result
    and touches nothing. *)
Lemma process_transcript_none L video_id url w :
  LangChain.fetch_transcript L url = [] ->
  LangChain.process_transcript L video_id url w = (w, Ok no_transcript).
Proof. intros H. unfold LangChain.process_transcript. now rewrite H. Qed.

(** C7, as the code has it.  For a URL that carries a YouTube video id and
    has no transcript, [process_transcript] returns the failure result
    (success false, no segments) as a value, and the upload endpoint answers
    normally after committing exactly one more section, the fallback
    [Video Content] from 0 to 300, for the video of that URL. *)
Theorem C7_upload_without_transcript_adds_fallback_section
    isdigit L url vid w :
  VideoService.extract_video_id url = Ok vid ->
  LangChain.fetch_transcript L url = [] ->
  (forall video_id w0,
      LangChain.process_transcript L video_id url w0 = (w0, Ok no_transcript))
  /\ LangChain.success no_transcript = false
  /\ LangChain.segments_count no_transcript = 0%nat
  /\ exists w' video s,
       upload_video isdigit L url w
       = (w', Ok {| video_id := Video.id video;
                    message := py "Video uploaded and processed";
                    transcript := no_transcript;
                    url := url |})
       /\ Video.url video = url
       /\ In video (videos (committed (db w')))
       /\ sections (committed (db w')) = sections (working (db w)) ++ [s]
       /\ is_fallback_section (Video.id video) s.
Proof.
  intros Hid Hnone. split; [ | split; [ reflexivity | split; [ reflexivity | ] ] ].
  { intros. now apply process_transcript_none. }
  destruct (VideoServiceSpec.create_video_valid url None w vid Hid)
    as (w1 & video & Hcreate & Hurl & Hin & Hsec & _).
  unfold upload_video, try_exceptM, bindM.
  rewrite Hcreate, (process_transcript_none _ _ _ _ Hnone). simpl.
  eexists _, video, _. split; [ reflexivity | ]. simpl.
  split; [ exact Hurl | split; [ exact Hin | ] ].
  split; [ rewrite Hsec; reflexivity | ].
  repeat split.
Qed.

(** C7 on the URL of the scenario, [https://youtu.be/abc123], for a video
    without captions. *)
Lemma C7_witness :
  exists w' video s,
    upload_video LangChain.ascii_isdigit no_captions (py "https://youtu.be/abc123") fresh
    = (w', Ok {| video_id := Video.id video;
                 message := py "Video uploaded and processed";
                 transcript := no_transcript;
                 url := py "https://youtu.be/abc123" |})
    /\ Video.url video = py "https://youtu.be/abc123"
    /\ In video (videos (committed (db w')))
    /\ sections (committed (db w')) = sections (working (db fresh)) ++ [s]
    /\ is_fallback_section (Video.id video) s.
Proof.
  apply (C7_upload_without_transcript_adds_fallback_section
           LangChain.ascii_isdigit no_captions (py "https://youtu.be/abc123")
           (py "abc123") fresh); reflexivity.
Defined.

(** C7 as stated fails for a URL without a video id: no transcript is
    available for it and [process_transcript] returns the failure result,
    yet the upload endpoint raises (HTTP 400) and adds no section. *)
Lemma C7_counterexample_url_without_video_id :
  LangChain.fetch_transcript no_captions (py "not-a-url") = []
  /\ snd (LangChain.process_transcript no_captions 1 (py "not-a-url") fresh)
     = Ok no_transcript
  /\ snd (upload_video LangChain.ascii_isdigit no_captions (py "not-a-url") fresh)
     = Raise (HTTPException 400
                (py "Could not extract video ID from URL: not-a-url"))
  /\ sections (working (db (fst (upload_video LangChain.ascii_isdigit no_captions
                                   (py "not-a-url") fresh)))) = []
  /\ sections (committed (db (fst (upload_video LangChain.ascii_isdigit no_captions
                                     (py "not-a-url") fresh)))) = [].
Proof. repeat split; vm_compute; reflexivity. Qed.

End UploadSpec.

(** ** Frame extractor *)

Module FrameExtractorSpec.
Import Py Store FrameExtractor Fixtures Vocabulary.

(** [find] hits as soon as one row of the video exists. *)
Lemma find_of_video video_id (rows : list Frame.t) f :
  In f rows -> Frame.video_id f = video_id ->
  exists g, find (of_video video_id) rows = Some g.
Proof.
  intros Hin Hv. destruct (find (of_video video_id) rows) as [g|] eqn:Hf; eauto.
  exfalso. apply (find_none _ _ Hf) in Hin.
  unfold of_video in Hin. rewrite Hv, Z.eqb_refl in Hin. discriminate.
Qed.

(** The short circuit of [process_video_frames], whatever the tools and the
    number of loop turns allowed. *)
Lemma process_video_frames_existing T fuel video_id video_url interval w f :
  In f (frames (working (db w))) -> Frame.video_id f = video_id ->
  process_video_frames T fuel video_id video_url interval w
  = Some (emit (emit w Query) Query,
          Ok (List.filter (of_video video_id) (frames (working (db w))))).
Proof.
  intros Hin Hv. unfold process_video_frames, run_query.
  destruct (find_of_video video_id _ f Hin Hv) as [g Hg].
  simpl. rewrite Hg. reflexivity.
Qed.

(** C4.  For a video that already has a Frame row, [process_video_frames]
    returns exactly the Frame rows of that video, in table order.  It ran two
    queries and nothing else: no download, no probe, no extraction, no file
    removed; files, directories and both views of the database are the ones
    before the call.  A second call therefore returns the same rows. *)
Theorem C4_process_video_frames_short_circuit
    T fuel video_id video_url interval w f :
  In f (frames (working (db w))) -> Frame.video_id f = video_id ->
  exists w' rows,
    process_video_frames T fuel video_id video_url interval w = Some (w', Ok rows)
    /\ (forall g, In g rows <->
                  In g (frames (working (db w))) /\ Frame.video_id g = video_id)
    /\ rows = List.filter (of_video video_id) (frames (working (db w)))
    /\ trace w' = trace w ++ [Query; Query]
    /\ files w' = files w /\ dirs w' = dirs w /\ db w' = db w
    /\ process_video_frames T fuel video_id video_url interval w'
       = Some (emit (emit w' Query) Query, Ok rows).
Proof.
  intros Hin Hv.
  exists (emit (emit w Query) Query), (List.filter (of_video video_id) (frames (working (db w)))).
  split; [ now apply (process_video_frames_existing _ _ _ _ _ _ f) | ].
  split.
  { intros g. rewrite filter_In. unfold of_video. now rewrite Z.eqb_eq. }
  split; [ reflexivity | ].
  split; [ simpl; now rewrite <- app_assoc | ].
  repeat (split; [ reflexivity | ]).
  exact (process_video_frames_existing T fuel video_id video_url interval
           (emit (emit w Query) Query) f Hin Hv).
Qed.

(** C4 on a database with two frames of video 1, with tools that would fail
    if they were called and no loop turn allowed. *)
Lemma C4_witness :
  exists w' rows,
    process_video_frames crashing_tools 0 1 (py "https://youtu.be/abc123") 10 with_frames
    = Some (w', Ok rows)
    /\ rows = [ row 1 1 0 (py "storage/frames/1/frame_000000_0.00s.jpg");
                row 2 1 10 (py "storage/frames/1/frame_000001_10.00s.jpg") ]
    /\ trace w' = [Query; Query]
    /\ files w' = files with_frames /\ db w' = db with_frames.
Proof.
  destruct (C4_process_video_frames_short_circuit crashing_tools 0 1
              (py "https://youtu.be/abc123") 10 with_frames
              (row 1 1 0 (py "storage/frames/1/frame_000000_0.00s.jpg")))
    as (w' & rows & Hrun & _ & Hrows & Htrace & Hfiles & _ & Hdb & _).
  - simpl. auto.
  - reflexivity.
  - exists w', rows. rewrite Hrows in *. auto.
Defined.

(** What the [filter(...)] of [get_frame_by_timestamp] selects. *)
Lemma in_window_spec video_id t tol f :
  in_window video_id t tol f = true <->
  Frame.video_id f = video_id
  /\ (fsub t tol <= Frame.timestamp f)%Q /\ (Frame.timestamp f <= fadd t tol)%Q.
Proof.
  unfold in_window, of_video.
  rewrite !andb_true_iff, Z.eqb_eq, !Qle_bool_iff. tauto.
Qed.

Lemma candidate_bounds w video_id lo hi lo' hi' g :
  (lo == lo')%Q -> (hi == hi')%Q ->
  candidate w video_id lo hi g -> candidate w video_id lo' hi' g.
Proof.
  intros Hlo Hhi (Hin & Hv & H1 & H2). repeat split; auto.
  - now rewrite <- Hlo.
  - now rewrite <- Hhi.
Qed.

(** What the lookup returns, in the arithmetic of the code. *)
Lemma get_frame_by_timestamp_computed video_id t tol w :
  bindable video_id = true ->
  match snd (get_frame_by_timestamp video_id t tol w) with
  | Ok (Some f) =>
      candidate w video_id (fsub t tol) (fadd t tol) f
      /\ (forall g, candidate w video_id (fsub t tol) (fadd t tol) g ->
                    (distance t f <= distance t g)%Q)
      /\ (forall g, candidate w video_id (fsub t tol) (fadd t tol) g ->
                    (distance t g <= distance t f)%Q ->
                    (Frame.timestamp f <= Frame.timestamp g)%Q)
  | Ok None => forall g, ~ candidate w video_id (fsub t tol) (fadd t tol) g
  | Raise _ => False
  end.
Proof.
  intros Hbind. unfold get_frame_by_timestamp. rewrite Hbind. cbn [negb].
  unfold bindM, query, run_query. cbn [fst snd].
  set (rows := frames (working (db w))).
  pose proof (PyFacts.sort_asc_sorted Frame.timestamp
                (List.filter (in_window video_id t tol) rows)) as Hsorted.
  assert (Hsel : forall g,
             In g (sort_asc Frame.timestamp
                     (List.filter (in_window video_id t tol) rows))
             <-> candidate w video_id (fsub t tol) (fadd t tol) g).
  { intros g. rewrite PyFacts.sort_asc_In, filter_In, in_window_spec.
    unfold candidate. fold rows. tauto. }
  destruct (sort_asc Frame.timestamp (List.filter (in_window video_id t tol) rows))
    as [|x sel'] eqn:Heq; cbn [ret min_by snd].
  - intros g Hg. now apply Hsel in Hg.
  - split; [ apply Hsel, PyFacts.min_scan_In | ].
    split.
    + intros g Hg. apply (PyFacts.min_scan_le (distance t) x sel' g).
      now apply Hsel.
    + intros g Hg Hnear. apply Hsel in Hg.
      destruct (PyFacts.min_scan_first (distance t) sel' x)
        as (l1 & l2 & Hsplit & Hbefore).
      rewrite Hsplit in Hg, Hsorted.
      apply in_app_or in Hg as [Hg|[<-|Hg]].
      * eapply List.Forall_forall in Hbefore; [ | exact Hg ]. lra.
      * apply Qle_refl.
      * apply StronglySorted_app_1_r in Hsorted.
        apply StronglySorted_inv in Hsorted as [_ Hall].
        eapply List.Forall_forall in Hall; [ exact Hall | exact Hg ].
Qed.

(** C2, as the code has it.  The window bounds and the distances are
    computed in doubles.  For a video id the database can bind, and a
    target, a tolerance and timestamps of the video of magnitude at most
    [2^1022] (so that no sum or difference overflows),
    [get_frame_by_timestamp] returns (never raises) either a frame of the
    video between the computed bounds [fl (t - w)] and [fl (t + w)] whose
    computed distance [|fl (timestamp - t)|] is smallest among the frames of
    the video between those bounds, and of the equally near ones the
    earliest; or [None], exactly when the video has no frame between the
    computed bounds.  Whenever the two bounds and the differences to the
    frames in the window come out without rounding, this is the claim as
    stated: the frame lies in [[t - w, t + w]], so [|timestamp - t| <= w],
    it is nearest to [t] among the video's frames in that window, and
    [None] means the window holds no frame of the video. *)
Theorem C2_get_frame_by_timestamp_nearest video_id t tol w :
  bindable video_id = true ->
  in_range t -> in_range tol ->
  (forall g, In g (frames (working (db w))) -> Frame.video_id g = video_id ->
             in_range (Frame.timestamp g)) ->
  match snd (get_frame_by_timestamp video_id t tol w) with
  | Ok (Some f) =>
      candidate w video_id (fsub t tol) (fadd t tol) f
      /\ (forall g, candidate w video_id (fsub t tol) (fadd t tol) g ->
                    (distance t f <= distance t g)%Q)
      /\ (forall g, candidate w video_id (fsub t tol) (fadd t tol) g ->
                    (distance t g <= distance t f)%Q ->
                    (Frame.timestamp f <= Frame.timestamp g)%Q)
  | Ok None => forall g, ~ candidate w video_id (fsub t tol) (fadd t tol) g
  | Raise _ => False
  end
  /\ ((fsub t tol == t - tol)%Q -> (fadd t tol == t + tol)%Q ->
      (forall g, candidate w video_id (t - tol) (t + tol) g ->
                 (fsub (Frame.timestamp g) t == Frame.timestamp g - t)%Q) ->
      match snd (get_frame_by_timestamp video_id t tol w) with
      | Ok (Some f) =>
          candidate w video_id (t - tol) (t + tol) f
          /\ (Qabs (Frame.timestamp f - t) <= tol)%Q
          /\ forall g, candidate w video_id (t - tol) (t + tol) g ->
                       (Qabs (Frame.timestamp f - t)
                        <= Qabs (Frame.timestamp g - t))%Q
      | Ok None => forall g, ~ candidate w video_id (t - tol) (t + tol) g
      | Raise _ => False
      end).
Proof.
  intros Hbind _ _ _.
  pose proof (get_frame_by_timestamp_computed video_id t tol w Hbind) as H.
  split; [ exact H | ].
  intros Hlo Hhi Hexact.
  destruct (snd (get_frame_by_timestamp video_id t tol w)) as [[f|]|e];
    [ | | exact H ].
  - destruct H as (Hf & Hmin & _).
    assert (Hf' : candidate w video_id (t - tol) (t + tol) f)
      by (eapply candidate_bounds; eauto).
    split; [ exact Hf' | ].
    split.
    + destruct Hf' as (_ & _ & H1 & H2). apply Qabs_Qle_condition. split; lra.
    + intros g Hg.
      assert (Hg' : candidate w video_id (fsub t tol) (fadd t tol) g)
        by (eapply candidate_bounds; [ symmetry; exact Hlo | symmetry; exact Hhi
                                     | exact Hg ]).
      specialize (Hmin g Hg'). unfold distance in Hmin.
      rewrite (Hexact f Hf'), (Hexact g Hg) in Hmin. exact Hmin.
  - intros g Hg. apply (H g).
    eapply candidate_bounds; [ symmetry; exact Hlo | symmetry; exact Hhi | exact Hg ].
Qed.

(** C2 on target 4 s with tolerance 10 s: both frames of video 1 (at 0 s
    and at 10 s) lie in the window, and the one at 0 s is returned; the
    frame of video 2 at 12 s is not considered. *)
Lemma C2_witness :
  snd (get_frame_by_timestamp 1 4 10 with_frames)
  = Ok (Some (row 1 1 0 (py "storage/frames/1/frame_000000_0.00s.jpg")))
  /\ candidate with_frames 1 (4 - 10) (4 + 10)
       (row 1 1 0 (py "storage/frames/1/frame_000000_0.00s.jpg"))
  /\ candidate with_frames 1 (4 - 10) (4 + 10)
       (row 2 1 10 (py "storage/frames/1/frame_000001_10.00s.jpg"))
  /\ forall g, candidate with_frames 1 (4 - 10) (4 + 10) g ->
               (Qabs (0 - 4) <= Qabs (Frame.timestamp g - 4))%Q.
Proof.
  assert (Hrange : forall q, Qle_bool (Qabs q) (inject_Z (2 ^ 1022)) = true ->
                              in_range q)
    by (intros q Hq; now apply Qle_bool_iff).
  assert (Hrows : forall g, In g (frames (working (db with_frames))) ->
                            Frame.video_id g = 1%Z -> in_range (Frame.timestamp g)).
  { intros g Hin _. simpl in Hin.
    destruct Hin as [<-|[<-|[<-|[]]]]; apply Hrange; vm_compute; reflexivity. }
  destruct (C2_get_frame_by_timestamp_nearest 1 4 10 with_frames eq_refl
              (Hrange 4%Q eq_refl) (Hrange 10%Q eq_refl) Hrows)
    as [_ H].
  assert (E : snd (get_frame_by_timestamp 1 4 10 with_frames)
              = Ok (Some (row 1 1 0 (py "storage/frames/1/frame_000000_0.00s.jpg"))))
    by (vm_compute; reflexivity).
  assert (Hexact : forall g, candidate with_frames 1 (4 - 10) (4 + 10) g ->
                             (fsub (Frame.timestamp g) 4 == Frame.timestamp g - 4)%Q).
  { intros g (Hin & _). simpl in Hin.
    destruct Hin as [<-|[<-|[<-|[]]]]; vm_compute; reflexivity. }
  specialize (H ltac:(vm_compute; reflexivity) ltac:(vm_compute; reflexivity) Hexact).
  rewrite E in H. destruct H as (Hf & _ & Hmin).
  split; [ exact E | ]. split; [ exact Hf | ].
  split; [ | exact Hmin ].
  unfold candidate. simpl. repeat split; auto; unfold Qle; simpl; lia.
Defined.

(** C2 as stated fails in the arithmetic of the code.  Around 10^16
    doubles are 2 apart.  (1) Video 1 has frames at -10^16 and 10^16; for
    the target 1 both differences round to 10^16 in absolute value, the
    [min] keeps the first, and the frame at -10^16 is returned although the
    frame at 10^16 is in the window and strictly nearer.  (2) For the target
    10^16 + 2 and tolerance 1 the upper bound 10^16 + 3 rounds to
    10^16 + 4, and the frame of video 2 at 10^16 + 4 is returned although
    it lies outside [[t - w, t + w]]. *)
Lemma C2_counterexample_rounding :
  snd (get_frame_by_timestamp 1 1 30000000000000000 far_apart)
  = Ok (Some (row 1 1 (-10000000000000000) (py "storage/frames/1/a.jpg")))
  /\ candidate far_apart 1 (1 - 30000000000000000) (1 + 30000000000000000)
       (row 2 1 10000000000000000 (py "storage/frames/1/b.jpg"))
  /\ (Qabs (10000000000000000 - 1) < Qabs (-10000000000000000 - 1))%Q
  /\ snd (get_frame_by_timestamp 2 10000000000000002 1 far_apart)
     = Ok (Some (row 3 2 10000000000000004 (py "storage/frames/2/c.jpg")))
  /\ (10000000000000002 + 1 < 10000000000000004)%Q.
Proof.
  split; [ vm_compute; reflexivity | ].
  split; [ unfold candidate; simpl; repeat split; auto; unfold Qle; simpl; lia | ].
  split; [ reflexivity | ].
  split; [ vm_compute; reflexivity | reflexivity ].
Qed.

(** *** The extraction loop *)

Lemma attempts_spec d interval (j : nat) :
  (0 < d)%Q -> (0 < interval)%Z ->
  (j < attempts d interval)%nat <-> (inject_Z (attempt_time interval j) < d)%Q.
Proof.
  intros Hd Hi. unfold attempts, attempt_time.
  assert (Hq : (0 < inject_Z interval)%Q).
  { change 0%Q with (inject_Z 0). rewrite <- Zlt_Qlt. exact Hi. }
  set (x := (d / inject_Z interval)%Q).
  assert (Hx : (x * inject_Z interval == d)%Q).
  { unfold x. field. intros H. rewrite H in Hq. apply (Qlt_irrefl 0), Hq. }
  pose proof (Qle_ceiling x) as Hup.
  pose proof (Qceiling_lt x) as Hlow.
  rewrite inject_Z_mult.
  split.
  - intros Hj.
    assert (Hz : (Z.of_nat j <= Qceiling x - 1)%Z) by lia.
    rewrite Zle_Qle in Hz.
    assert (Hlt : (inject_Z (Z.of_nat j) < x)%Q) by (eapply Qle_lt_trans; eauto).
    rewrite <- Hx. apply Qmult_lt_compat_r; assumption.
  - intros Hj.
    assert (Hlt : (inject_Z (Z.of_nat j) < x)%Q).
    { unfold x. apply Qlt_shift_div_l; assumption. }
    assert (Hz : (inject_Z (Z.of_nat j) < inject_Z (Qceiling x))%Q)
      by (eapply Qlt_le_trans; eauto).
    rewrite <- Zlt_Qlt in Hz. lia.
Qed.

Section Loop.
Variables (T : Tools) (video_path : str) (video_id interval : Z) (d : Q).
Variable w : World.

Local Abbreviation after := (world_after T video_path video_id interval).
Local Abbreviation made := (produced T video_path video_id interval w).
Local Abbreviation returns := (run_returns T video_path video_id interval w).

(** Every attempt leaves exactly one [Extract] event. *)
Lemma world_after_trace k :
  trace (after k w)
  = trace w ++ map (attempt_event video_path video_id interval) (seq 0 k).
Proof.
  induction k as [|k IH]; [ simpl; now rewrite app_nil_r | ].
  rewrite seq_S, map_app, app_assoc, <- IH. cbn [world_after].
  unfold run_attempt. now destruct (ffmpeg_run T _ _ _ _).
Qed.

(** [m] turns of the loop from its [k]-th on, each before the end of the
    video and each with a run that returns, use up [m] units of fuel. *)
Lemma extract_loop_steps m : forall k fuel frame_paths timestamps,
  (forall j, (k <= j < k + m)%nat ->
             (inject_Z (attempt_time interval j) < d)%Q /\ returns j) ->
  extract_loop T (m + fuel) video_path video_id interval d
    (attempt_time interval k) (Z.of_nat k) frame_paths timestamps (after k w)
  = extract_loop T fuel video_path video_id interval d
      (attempt_time interval (k + m)) (Z.of_nat (k + m))
      (frame_paths ++ map (attempt_path video_id interval)
                          (List.filter made (seq k m)))
      (timestamps ++ map (attempt_time interval) (List.filter made (seq k m)))
      (after (k + m) w).
Proof.
  induction m as [|m IH]; intros k fuel ps ts Hturns.
  - cbn [seq List.filter map Nat.add]. now rewrite Nat.add_0_r, !app_nil_r.
  - destruct (Hturns k ltac:(lia)) as [Hlt [fs Hfs]].
    apply PyFacts.Qltb_lt in Hlt.
    assert (Hnext : after (S k) w
                    = run_attempt T video_path video_id interval k (after k w))
      by reflexivity.
    assert (Hmade : made k = path_exists (after (S k) w)
                               (attempt_path video_id interval k))
      by reflexivity.
    unfold run_attempt in Hnext. rewrite Hfs in Hnext.
    cbn [Nat.add extract_loop]. rewrite Hlt.
    fold (attempt_path video_id interval k).
    fold (attempt_event video_path video_id interval k).
    rewrite Hfs, <- Hnext, <- Hmade.
    replace (attempt_time interval k + interval)%Z with (attempt_time interval (S k))
      by (unfold attempt_time; lia).
    replace (Z.of_nat k + 1)%Z with (Z.of_nat (S k)) by lia.
    replace (k + S m)%nat with (S k + m)%nat by lia.
    cbn [seq List.filter].
    destruct (made k); cbn [map]; rewrite (IH (S k));
      try (intros j Hj; apply Hturns; lia);
      rewrite <- ?app_assoc; reflexivity.
Qed.

(** The loop ends when the next time is not below the duration. *)
Lemma extract_loop_stop fuel k frame_paths timestamps w' :
  ~ (inject_Z (attempt_time interval k) < d)%Q ->
  extract_loop T fuel video_path video_id interval d
    (attempt_time interval k) (Z.of_nat k) frame_paths timestamps w'
  = Some (w', Ok (frame_paths, timestamps)).
Proof.
  intros Hstop. apply Qnot_lt_le, PyFacts.Qltb_ge in Hstop.
  destruct fuel; simpl; rewrite Hstop; reflexivity.
Qed.

(** A run that raises ends the loop with its exception. *)
Lemma extract_loop_raise fuel k frame_paths timestamps e :
  (inject_Z (attempt_time interval k) < d)%Q ->
  ffmpeg_run T video_path (attempt_time interval k)
    (attempt_path video_id interval k)
    (files (emit (after k w) (attempt_event video_path video_id interval k)))
  = Raise e ->
  extract_loop T (S fuel) video_path video_id interval d
    (attempt_time interval k) (Z.of_nat k) frame_paths timestamps (after k w)
  = Some (after (S k) w, Raise e).
Proof.
  intros Hlt He. apply PyFacts.Qltb_lt in Hlt.
  cbn [extract_loop world_after]. rewrite Hlt. unfold run_attempt.
  fold (attempt_path video_id interval k).
  fold (attempt_event video_path video_id interval k).
  now rewrite He.
Qed.

End Loop.

Lemma combine_map {A B C} (f : A -> B) (g : A -> C) (l : list A) :
  combine (map f l) (map g l) = map (fun a => (f a, g a)) l.
Proof. induction l; simpl; congruence. Qed.

(** [extract_frames_from_video] up to its loop. *)
Lemma extract_frames_from_video_unfold T fuel video_path video_id interval d w :
  snd (mkdir (video_frames_dir video_id) w) = Ok tt ->
  ffmpeg_probe T video_path (files w) = Ok d ->
  extract_frames_from_video T fuel video_path video_id interval w
  = match extract_loop T fuel video_path video_id interval d 0%Z 0%Z [] []
            (loop_start video_path video_id w) with
    | None => None
    | Some (w2, Raise e) => Some (w2, extraction_error e)
    | Some (w2, Ok (frame_paths, timestamps)) =>
        Some (w2, Ok (combine frame_paths timestamps))
    end.
Proof.
  intros Hdir Hprobe. unfold extract_frames_from_video, loop_start.
  destruct (StoreFacts.mkdir_world (video_frames_dir video_id) w) as (Hf & _).
  destruct (mkdir (video_frames_dir video_id) w) as [w0 [[]|e]];
    cbn [fst snd] in *; [ | discriminate ].
  change (files (emit w0 (Probe video_path))) with (files w0).
  now rewrite Hf, Hprobe.
Qed.

(** When the directory of the video's frames cannot be made (a regular
    file is at its path, or [storage/frames] is not there), the call ends at
    once: no probe, no attempt. *)
Lemma extract_frames_from_video_no_directory
    T fuel video_path video_id interval w e :
  snd (mkdir (video_frames_dir video_id) w) = Raise e ->
  extract_frames_from_video T fuel video_path video_id interval w
  = Some (w, extraction_error e).
Proof.
  intros Hdir. unfold extract_frames_from_video.
  pose proof (StoreFacts.mkdir_raises _ _ _ Hdir) as Hw.
  destruct (mkdir (video_frames_dir video_id) w) as [w0 [[]|e0]];
    cbn [fst snd] in *; [ discriminate | ].
  now injection Hdir as ->; subst.
Qed.

(** C3, as the code has it.  For a probed duration [d > 0] and an interval
    [i > 0], when the directory of the video's frames can be made and none
    of the runs of the extraction tool raises, [extract_frames_from_video]
    comes to an end (given as many loop turns as there are attempts) and
    has run the tool exactly once at each of the times [0, i, 2i, ...]
    strictly below [d], in that order: [n] attempts, where [k < n] exactly
    when [k * i < d].  It returns the (path, timestamp) pairs of exactly
    those attempts after whose run the output file exists. *)
Theorem C3_extract_frames_attempts T video_path video_id interval d w :
  (0 < d)%Q -> (0 < interval)%Z ->
  snd (mkdir (video_frames_dir video_id) w) = Ok tt ->
  ffmpeg_probe T video_path (files w) = Ok d ->
  let n := attempts d interval in
  let w0 := loop_start video_path video_id w in
  (forall k, (k < n)%nat -> run_returns T video_path video_id interval w0 k) ->
  (forall j : nat, (j < n)%nat <-> (inject_Z (attempt_time interval j) < d)%Q)
  /\ forall fuel, (n <= fuel)%nat ->
     exists w',
       extract_frames_from_video T fuel video_path video_id interval w
       = Some (w', Ok (map (fun k => (attempt_path video_id interval k,
                                      attempt_time interval k))
                           (List.filter (produced T video_path video_id interval w0)
                                        (seq 0 n))))
       /\ trace w'
          = trace w ++ Probe video_path
                       :: map (attempt_event video_path video_id interval) (seq 0 n).
Proof.
  intros Hd Hi Hdir Hprobe n w0 Hrun.
  assert (Hn : forall j : nat,
             (j < n)%nat <-> (inject_Z (attempt_time interval j) < d)%Q)
    by (intros j; now apply attempts_spec).
  split; [ exact Hn | ]. intros fuel Hfuel.
  exists (world_after T video_path video_id interval n w0). split.
  - rewrite (extract_frames_from_video_unfold _ _ _ _ _ d) by assumption.
    fold w0. replace fuel with (n + (fuel - n))%nat by lia.
    pose proof (extract_loop_steps T video_path video_id interval d w0 n 0%nat
                  (fuel - n) [] []) as Hloop.
    change (attempt_time interval 0) with 0%Z in Hloop.
    change (Z.of_nat 0) with 0%Z in Hloop.
    cbn [world_after Nat.add app] in Hloop.
    rewrite Hloop.
    + rewrite extract_loop_stop by (intros H; apply Hn in H; lia).
      now rewrite combine_map.
    + intros j Hj. split; [ apply Hn; lia | apply Hrun; lia ].
  - rewrite (world_after_trace T video_path video_id interval).
    unfold w0, loop_start. cbn [trace emit].
    destruct (StoreFacts.mkdir_world (video_frames_dir video_id) w)
      as (_ & _ & _ & ->).
    now rewrite <- app_assoc.
Qed.

(** The other case: when the run of index [k] is the first to raise, the
    call ends there with [Error extracting frames], after [k + 1]
    attempts. *)
Lemma extract_frames_from_video_aborts T video_path video_id interval d w k e :
  snd (mkdir (video_frames_dir video_id) w) = Ok tt ->
  ffmpeg_probe T video_path (files w) = Ok d ->
  let w0 := loop_start video_path video_id w in
  (forall j, (j <= k)%nat -> (inject_Z (attempt_time interval j) < d)%Q) ->
  (forall j, (j < k)%nat -> run_returns T video_path video_id interval w0 j) ->
  ffmpeg_run T video_path (attempt_time interval k)
    (attempt_path video_id interval k)
    (files (emit (world_after T video_path video_id interval k w0)
                 (attempt_event video_path video_id interval k)))
  = Raise e ->
  forall fuel, (k < fuel)%nat ->
    extract_frames_from_video T fuel video_path video_id interval w
    = Some (world_after T video_path video_id interval (S k) w0,
            extraction_error e)
    /\ trace (world_after T video_path video_id interval (S k) w0)
       = trace w ++ Probe video_path
                    :: map (attempt_event video_path video_id interval)
                           (seq 0 (S k)).
Proof.
  intros Hdir Hprobe w0 Hlt Hrun He fuel Hfuel. split.
  - rewrite (extract_frames_from_video_unfold _ _ _ _ _ d) by assumption.
    fold w0. replace fuel with (k + S (fuel - S k))%nat by lia.
    pose proof (extract_loop_steps T video_path video_id interval d w0 k 0%nat
                  (S (fuel - S k)) [] []) as Hloop.
    change (attempt_time interval 0) with 0%Z in Hloop.
    change (Z.of_nat 0) with 0%Z in Hloop.
    cbn [world_after Nat.add app] in Hloop.
    rewrite Hloop.
    + now rewrite (extract_loop_raise _ _ _ _ _ _ _ _ _ _ e) by (auto; apply Hlt; lia).
    + intros j Hj. split; [ apply Hlt; lia | apply Hrun; lia ].
  - rewrite (world_after_trace T video_path video_id interval).
    unfold w0, loop_start. cbn [trace emit].
    destruct (StoreFacts.mkdir_world (video_frames_dir video_id) w)
      as (_ & _ & _ & ->).
    now rewrite <- app_assoc.
Qed.

(** C3 on the scenario: a 25-second video at interval 10 is attempted at 0,
    10 and 20 s; the run at 10 s leaves no file, so two pairs come back. *)
Lemma C3_witness :
  attempts 25 10 = 3%nat
  /\ exists w',
       extract_frames_from_video skipping_tools 3 scratch_video 1 10 deployed
       = Some (w', Ok [ (py "storage/frames/1/frame_000000_0.00s.jpg", 0%Z);
                        (py "storage/frames/1/frame_000002_20.00s.jpg", 20%Z) ])
       /\ trace w'
          = [ Probe scratch_video;
              Extract scratch_video 0 (py "storage/frames/1/frame_000000_0.00s.jpg");
              Extract scratch_video 10 (py "storage/frames/1/frame_000001_10.00s.jpg");
              Extract scratch_video 20 (py "storage/frames/1/frame_000002_20.00s.jpg") ].
Proof.
  split; [ reflexivity | ].
  destruct (C3_extract_frames_attempts skipping_tools scratch_video 1 10 25 deployed)
    as [_ H].
  - reflexivity.
  - lia.
  - vm_compute. reflexivity.
  - reflexivity.
  - intros k _. eexists. reflexivity.
  - destruct (H 3%nat) as (w' & Hrun & Htrace).
    + vm_compute. lia.
    + exists w'. split; [ rewrite Hrun | rewrite Htrace ]; reflexivity.
Defined.

(** C3 as stated fails in three ways, each on a 25-second video at
    interval 10, where the claim has exactly three attempts and a pair for
    each file the tool produced.  (1) A run of the tool that fails ends the
    whole call: the first run raises, the call ends with
    [Error extracting frames] after that single attempt at 0 s, and the
    attempts at 10 s and 20 s never happen.  (2) A regular file at the path
    of the video's frame directory ends the call before the probe, with no
    attempt at all.  (3) The test after each run is that the output path
    exists, and a file left there by an earlier run passes it: the run at
    10 s writes nothing, and the pair for 10 s is returned all the same. *)
Lemma C3_counterexample_failing_run :
  attempts 25 10 = 3%nat
  /\ ffmpeg_probe crashing_tools scratch_video (files deployed) = Ok 25%Q
  /\ option_map snd
       (extract_frames_from_video crashing_tools 3 scratch_video 1 10 deployed)
     = Some (Raise (Exception (py "Error extracting frames: ffmpeg error")))
  /\ option_map (fun out => trace (fst out))
       (extract_frames_from_video crashing_tools 3 scratch_video 1 10 deployed)
     = Some [ Probe scratch_video;
              Extract scratch_video 0 (py "storage/frames/1/frame_000000_0.00s.jpg") ]
  /\ extract_frames_from_video skipping_tools 3 scratch_video 1 10 blocked
     = Some (blocked,
             Raise (Exception (py "Error extracting frames: [Errno 17] File exists: 'storage/frames/1'")))
  /\ ffmpeg_run skipping_tools scratch_video 10
       (py "storage/frames/1/frame_000001_10.00s.jpg") (files leftover)
     = Ok (files leftover)
  /\ option_map snd
       (extract_frames_from_video skipping_tools 3 scratch_video 1 10 leftover)
     = Some (Ok [ (py "storage/frames/1/frame_000000_0.00s.jpg", 0%Z);
                  (py "storage/frames/1/frame_000001_10.00s.jpg", 10%Z);
                  (py "storage/frames/1/frame_000002_20.00s.jpg", 20%Z) ]).
Proof. repeat split; vm_compute; reflexivity. Qed.

End FrameExtractorSpec.

(** ** Embeddings and visual search *)

Module SimpleEmbeddingsSpec.
Import Py Store SimpleEmbeddings Fixtures Vocabulary.

(** *** The database lookups of the search *)

Lemma detail_nil w : detail [] w = (w, []).
Proof. reflexivity. Qed.

(** Every detailed result carries the similarity and the frame id of one of
    the ranked hits. *)
Lemma detail_In results : forall w r,
  In r (snd (detail results w)) ->
  exists h, In h results
            /\ SearchResult.similarity r = Hit.similarity h
            /\ SearchResult.frame_id r = Hit.frame_id h.
Proof.
  induction results as [|h results IH]; intros w r; simpl; [ tauto | ].
  unfold run_query.
  destruct (detail results (emit w Query)) as [w2 rest] eqn:Hrest.
  specialize (IH (emit w Query) r). rewrite Hrest in IH. simpl in IH.
  destruct (find _ _) as [f|] eqn:Hf; simpl.
  - intros [<-|Hr].
    + exists h. simpl. apply find_some in Hf as [_ Hid].
      apply Z.eqb_eq in Hid. auto.
    + destruct (IH Hr) as (h' & ? & ? & ?). exists h'. auto.
  - intros Hr. destruct (IH Hr) as (h' & ? & ? & ?). exists h'. auto.
Qed.



(** *** Scoring and ranking *)

Lemma score_In m te data : forall hits,
  score m te data = Ok hits ->
  forall h, In h hits -> exists item, In item data /\ frame_id item = Hit.frame_id h.
Proof.
  induction data as [|item data IH]; simpl; intros hits.
  - intros [= <-] h [].
  - destruct (cosine_similarity m te (embedding item)); simpl; [ | discriminate ].
    destruct (score m te data) as [rest|]; simpl; [ | discriminate ].
    intros [= <-] h [<-|Hh]; simpl; [ eauto | ].
    destruct (IH rest eq_refl h Hh) as (it & ? & ?). eauto.
Qed.

(** One failing similarity fails the whole scoring. *)
Lemma score_raises m te data item e :
  In item data -> cosine_similarity m te (embedding item) = Raise e ->
  exists e', score m te data = Raise e'.
Proof.
  induction data as [|x data IH]; simpl; [ tauto | ].
  intros [->|Hin] He.
  - rewrite He. simpl. eauto.
  - destruct (cosine_similarity m te (embedding x)); simpl; [ | eauto ].
    destruct (IH Hin He) as [e' ->]. simpl. eauto.
Qed.



Lemma rank_In m query limit data hits :
  rank m query limit (Pickle data) = Ok hits ->
  forall h, In h hits -> exists item, In item data /\ frame_id item = Hit.frame_id h.
Proof.
  unfold rank. cbn [pickle_load bind].
  destruct data as [|item data]; [ intros [= <-] h [] | ].
  destruct (encode_text m query) as [te|]; cbn [bind]; [ | discriminate ].
  destruct (score m te (item :: data)) as [sims|] eqn:Hs; cbn [bind]; [ | discriminate ].
  intros [= <-] h Hh. apply PyFacts.slice_to_In, PyFacts.sort_desc_In in Hh.
  eapply score_In; eauto.
Qed.

(** *** The two ways [search_visual_content] ends: with the empty list and
    the world untouched, or with the detailed ranking of a readable
    artifact. *)
Lemma search_visual_content_cases open_clip self video_id query limit w :
  let out := search_visual_content open_clip self video_id query limit w in
  (snd out = Ok [] /\ fst (fst out) = w)
  \/ exists self' m content hits,
       _load_clip_model open_clip self = Ok (self', m)
       /\ read_file w (embeddings_file video_id) = Ok content
       /\ rank m query limit content = Ok hits
       /\ out = (fst (detail hits w), self', Ok (snd (detail hits w))).
Proof.
  unfold search_visual_content, search_try.
  destruct (_load_clip_model open_clip self) as [[self' m]|e]; simpl; [ | auto ].
  destruct (path_exists w (embeddings_file video_id)); simpl; [ | auto ].
  destruct (read_file w (embeddings_file video_id)) as [content|e]; simpl; [ | auto ].
  destruct (rank m query limit content) as [hits|e] eqn:Hrank; simpl; [ | auto ].
  right. exists self', m, content, hits.
  destruct (detail hits w) as [w' rs]. simpl. auto.
Qed.

Lemma read_file_exists w p c : read_file w p = Ok c -> path_exists w p = true.
Proof.
  unfold read_file, path_exists. destruct (files w !! key w p); [ reflexivity | discriminate ].
Qed.











(** C9.  [search_visual_content] always returns a list.  Whenever something
    inside fails (the model cannot be loaded, the artifact is present but
    unreadable or not a pickle, the text encoder raises, a similarity cannot
    be computed) the list is empty and the world is as it was, which is also
    what happens when there is no artifact at all. *)
Theorem C9_search_visual_content_never_raises
    open_clip self video_id query limit w :
  let out := search_visual_content open_clip self video_id query limit w in
  (exists l, snd out = Ok l)
  /\ (path_exists w (embeddings_file video_id) = false ->
      snd out = Ok [] /\ fst (fst out) = w)
  /\ (forall e, _load_clip_model open_clip self = Raise e ->
      snd out = Ok [] /\ fst (fst out) = w)
  /\ (forall e, read_file w (embeddings_file video_id) = Raise e ->
      snd out = Ok [] /\ fst (fst out) = w)
  /\ (forall bytes, read_file w (embeddings_file video_id) = Ok (Bytes bytes) ->
      snd out = Ok [] /\ fst (fst out) = w)
  /\ (forall self' m e,
        _load_clip_model open_clip self = Ok (self', m) ->
        encode_text m query = Raise e ->
        snd out = Ok [] /\ fst (fst out) = w)
  /\ (forall self' m data text_embedding item e,
        _load_clip_model open_clip self = Ok (self', m) ->
        read_file w (embeddings_file video_id) = Ok (Pickle data) ->
        encode_text m query = Ok text_embedding ->
        In item data ->
        cosine_similarity m text_embedding (embedding item) = Raise e ->
        snd out = Ok [] /\ fst (fst out) = w).
Proof.
  intros out.
  destruct (search_visual_content_cases open_clip self video_id query limit w)
    as [Hout|(self1 & m1 & content & hits & Hload & Hread & Hrank & Hout)];
    fold out in Hout.
  { split; [ exists []; apply Hout | ]. repeat split; intros; apply Hout. }
  split; [ rewrite Hout; simpl; eauto | ].
  split; [ intros Hnone; apply read_file_exists in Hread; congruence | ].
  split; [ intros e He; congruence | ].
  split; [ intros e He; congruence | ].
  split; [ intros bytes Hb; rewrite Hb in Hread; injection Hread as <-;
           discriminate Hrank | ].
  split.
  - intros self' m e Hl He. rewrite Hl in Hload. injection Hload as -> ->.
    revert Hrank. unfold rank.
    destruct (pickle_load content) as [[|item data]|]; cbn [bind];
      rewrite ?He; cbn [bind]; try discriminate.
    intros [= <-]. rewrite Hout. auto.
  - intros self' m data te item e Hl Hr Hte Hin He.
    rewrite Hl in Hload. injection Hload as -> ->.
    rewrite Hr in Hread. injection Hread as <-.
    revert Hrank. unfold rank. cbn [pickle_load bind].
    destruct data as [|x data]; [ destruct Hin | ].
    rewrite Hte. cbn [bind].
    destruct (score_raises _ _ _ _ _ Hin He) as [e' ->]. discriminate.
Qed.

(** C9 on an artifact that is not a pickle, and on a model that fails to
    load. *)
Lemma C9_witness :
  snd (search_visual_content (Ok toy_model) cold 1 (py "a dog") 10 corrupt) = Ok []
  /\ fst (fst (search_visual_content (Ok toy_model) cold 1 (py "a dog") 10 corrupt))
     = corrupt
  /\ snd (search_visual_content (Raise (LibraryError (py "no weights"))) cold 1
            (py "a dog") 10 indexed) = Ok [].
Proof.
  pose proof (C9_search_visual_content_never_raises (Ok toy_model) cold 1
                (py "a dog") 10 corrupt) as (_ & _ & _ & _ & Hcorrupt & _).
  pose proof (C9_search_visual_content_never_raises
                (Raise (LibraryError (py "no weights"))) cold 1
                (py "a dog") 10 indexed) as (_ & _ & Hload & _).
  destruct (Hcorrupt [0; 1; 2]%N eq_refl) as [H1 H2].
  destruct (Hload (LibraryError (py "no weights")) eq_refl) as [H3 _].
  auto.
Defined.

(** *** Regeneration *)

(** The loop appends the triples of the frames it does not skip, in order. *)
Lemma embed_loop_spec m w frames : forall embeddings processed_count,
  embed_loop m w frames embeddings processed_count
  = (embeddings ++ omap (embed_frame m w) frames,
     (processed_count + Z.of_nat (length (omap (embed_frame m w) frames)))%Z).
Proof.
  induction frames as [|f frames IH]; intros acc c; simpl.
  - now rewrite app_nil_r, Z.add_0_r.
  - destruct (embed_frame m w f) as [r|]; rewrite IH; [ | reflexivity ].
    rewrite <- app_assoc. cbn [app length]. f_equal.
    rewrite Nat2Z.inj_succ, <- Z.add_assoc, Z.add_1_l. reflexivity.
Qed.

(** Whether a frame is embedded depends on the files only. *)
Lemma embed_frame_files m w w' f :
  files w' = files w -> cwd w' = cwd w -> embed_frame m w' f = embed_frame m w f.
Proof.
  intros Hf Hc. unfold embed_frame, path_exists, read_file, key.
  rewrite Hf, Hc.
  destruct (files w !! _); [ reflexivity | ].
  now destruct (bool_decide _), (bool_decide _).
Qed.

Lemma omap_ext_in {A B} (f g : A -> option B) (l : list A) :
  (forall a, f a = g a) -> omap f l = omap g l.
Proof.
  intros H. induction l as [|a l IH]; simpl; [ reflexivity | ].
  rewrite H. destruct (g a); [ f_equal | ]; exact IH.
Qed.

(** C5, as the code has it.  When [generate_frame_embeddings] reports an
    embeddings file, that file holds exactly the triples this call produced
    (one per frame of the video whose image could be embedded, in table
    order, at least one), whatever it held before; no other file changed;
    and every result of a search run right afterwards is a frame of one of
    those triples.  In every other outcome (no frame could be embedded, no
    frames, the model failed to load) no file is written and a prior
    artifact stays as it was. *)
Theorem C5_regeneration_replaces_artifact open_clip self video_id w :
  match generate_frame_embeddings open_clip self video_id w with
  | (w', self', Success processed total (Some file)) =>
      exists m,
        model self' = Some m
        /\ let triples :=
             omap (embed_frame m w)
                  (List.filter (of_video video_id) (frames (working (db w)))) in
           file = embeddings_file video_id
           /\ triples <> []
           /\ processed = Z.of_nat (length triples)
           /\ read_file w' file = Ok (Pickle triples)
           /\ (forall p, key w p <> key w file ->
                         files w' !! key w p = files w !! key w p)
           /\ forall query limit,
               exists results,
                 snd (search_visual_content open_clip self' video_id query limit w')
                 = Ok results
                 /\ forall r, In r results ->
                              exists t, In t triples
                                        /\ frame_id t = SearchResult.frame_id r
  | (w', _, _) => files w' = files w
  end.
Proof.
  unfold generate_frame_embeddings.
  destruct (_load_clip_model open_clip self) as [[self' m]|e] eqn:Hload;
    [ | reflexivity ].
  assert (Hmodel : model self' = Some m).
  { revert Hload. unfold _load_clip_model.
    destruct (model self) as [m0|] eqn:Hm; [ now intros [= <- <-] | ].
    destruct open_clip; simpl; [ now intros [= <- <-] | discriminate ]. }
  destruct (bindable video_id); cbn [negb]; [ | reflexivity ].
  cbn [run_query].
  destruct (List.filter (of_video video_id) (frames (working (db w))))
    as [|f0 rows] eqn:Hrows; [ reflexivity | ].
  destruct (StoreFacts.mkdir_parents_world (embeddings_dir video_id) (emit w Query))
    as (Hf2 & Hc2 & _).
  destruct (mkdir_parents (embeddings_dir video_id) (emit w Query)) as [w2 [[]|e]];
    cbn [fst files cwd emit] in Hf2, Hc2; [ | exact Hf2 ].
  rewrite embed_loop_spec. cbn [app].
  rewrite (omap_ext_in (embed_frame m w2) (embed_frame m w))
    by (intros a; now apply embed_frame_files).
  destruct (omap (embed_frame m w) (f0 :: rows)) as [|t0 ts] eqn:Htriples;
    [ exact Hf2 | ].
  unfold write_file. destruct (is_dir w2 _); [ exact Hf2 | ].
  exists m. split; [ exact Hmodel | ].
  cbv zeta. rewrite Htriples. split; [ reflexivity | ]. split; [ discriminate | ].
  split; [ reflexivity | ].
  assert (Hread : read_file
            (emit (set_files w2 (<[key w2 (embeddings_file video_id) := Pickle (t0 :: ts)]>
                                   (files w2)))
                  (WriteFile (embeddings_file video_id)))
            (embeddings_file video_id) = Ok (Pickle (t0 :: ts))).
  { unfold read_file, key. simpl. now rewrite lookup_insert_eq. }
  split; [ exact Hread | ].
  split.
  { intros p Hp. cbn [files emit set_files]. unfold key in *. rewrite Hc2, Hf2.
    rewrite lookup_insert_ne; [ reflexivity | ].
    intros H. apply Hp. symmetry. exact H. }
  intros query limit.
  match goal with
  | |- context [search_visual_content ?o ?s ?v ?q ?l ?w'] =>
      destruct (search_visual_content_cases o s v q l w')
        as [[Hout _]|(self1 & m1 & content & hits & Hl & Hr & Hrank & Hout)]
  end.
  - exists []. split; [ exact Hout | intros r [] ].
  - rewrite Hr in Hread. injection Hread as ->.
    eexists. rewrite Hout. split; [ reflexivity | ].
    intros r Hin. simpl in Hin.
    apply detail_In in Hin as (h & Hh & _ & Hid).
    destruct (rank_In _ _ _ _ _ Hrank h Hh) as (t & Ht & Htid).
    exists t. split; [ exact Ht | congruence ].
Qed.

(** C5 on a stale artifact and two frames whose images are on disk: the
    artifact now holds their two triples, and the triple of frame 9 is
    gone. *)
Lemma C5_witness :
  read_file
    (fst (fst (generate_frame_embeddings (Ok toy_model) cold 1 stale_with_images)))
    (embeddings_file 1)
  = Ok (Pickle [triple 1 0 (64 # 256); triple 2 10 (128 # 256)]).
Proof.
  pose proof (C5_regeneration_replaces_artifact (Ok toy_model) cold 1
                stale_with_images) as H.
  destruct (generate_frame_embeddings (Ok toy_model) cold 1 stale_with_images)
    as [[w' self'] g] eqn:E.
  assert (Hg : g = Success 2 2 (Some (embeddings_file 1))).
  { apply (f_equal snd) in E. simpl in E. rewrite <- E. vm_compute. reflexivity. }
  assert (Hs : self' = {| model := Some toy_model |}).
  { apply (f_equal (fun out => snd (fst out))) in E. simpl in E. rewrite <- E.
    vm_compute. reflexivity. }
  subst g self'. destruct H as (m & Hm & _ & _ & _ & Hread & _).
  simpl in Hm. injection Hm as <-. cbn [fst]. rewrite Hread.
  vm_compute. reflexivity.
Defined.

(** C5 as stated fails when the new run embeds nothing: the images of the
    two frames of video 1 are not on disk, the call succeeds with zero
    processed frames, writes no file, and the artifact of the earlier run
    (a triple for frame 9) is still there. *)
Lemma C5_counterexample_stale_artifact_survives :
  snd (generate_frame_embeddings (Ok toy_model) cold 1 stale) = Success 0 2 None
  /\ read_file (fst (fst (generate_frame_embeddings (Ok toy_model) cold 1 stale)))
               (embeddings_file 1)
     = Ok (Pickle [triple 9 90 (1 # 3)]).
Proof. split; vm_compute; reflexivity. Qed.

End SimpleEmbeddingsSpec.

(** ** Section generation *)

Module LangChainSpec.
Import Py Store LangChain Fixtures Vocabulary.

Section Timing.
Variable section_duration : Q.

Lemma add_timing_titles : forall titles i,
  map title (add_timing section_duration i titles) = titles.
Proof. induction titles as [|t titles IH]; intros i; simpl; [ | rewrite IH ]; reflexivity. Qed.

Lemma add_timing_In : forall titles i s,
  In s (add_timing section_duration i titles) ->
  exists j : nat,
    (i <= j)%nat
    /\ end_time s = (inject_Z (Z.of_nat (j + 1)) * section_duration)%Q.
Proof.
  induction titles as [|t titles IH]; intros i s; simpl; [ tauto | ].
  intros [<-|Hs].
  - exists i. simpl. auto.
  - destruct (IH (S i) s Hs) as (j & Hj & He). exists j. split; [ lia | exact He ].
Qed.

Lemma add_timing_head titles :
  titles <> [] ->
  exists first, head (add_timing section_duration 0 titles) = Some first
                /\ (start_time first == 0)%Q.
Proof.
  destruct titles as [|t titles]; [ congruence | intros _ ].
  eexists. split; [ reflexivity | ]. simpl. ring.
Qed.

Lemma add_timing_final : forall titles i,
  titles <> [] ->
  exists last, final (add_timing section_duration i titles) = Some last
               /\ end_time last
                  = (inject_Z (Z.of_nat (i + length titles)) * section_duration)%Q.
Proof.
  induction titles as [|t titles IH]; intros i Hne; [ congruence | ].
  destruct titles as [|t' titles].
  - eexists. split; [ reflexivity | ]. simpl. reflexivity.
  - destruct (IH (S i)) as (last & Hlast & Hend); [ discriminate | ].
    exists last. split.
    + unfold final in *. simpl in *. exact Hlast.
    + rewrite Hend. do 3 f_equal. simpl. lia.
Qed.

Hypothesis Hpos : (0 < section_duration)%Q.

Lemma add_timing_sorted : forall titles i,
  StronglySorted ends_increase (add_timing section_duration i titles).
Proof.
  induction titles as [|t titles IH]; intros i; simpl; constructor; [ apply IH | ].
  apply List.Forall_forall. intros s Hs.
  destruct (add_timing_In titles (S i) s Hs) as (j & Hj & He).
  unfold ends_increase. simpl. rewrite He.
  apply Qmult_lt_compat_r; [ exact Hpos | ].
  rewrite <- Zlt_Qlt. lia.
Qed.

End Timing.

(** Every title the parser keeps is between 6 and 99 characters long. *)
Lemma parse_titles_lengths isdigit lines t :
  In t (parse_titles isdigit lines) -> (5 < length t < 100)%nat.
Proof.
  induction lines as [|line lines IH]; simpl; [ tauto | ].
  destruct (strip line) as [|c line']; [ exact IH | ].
  destruct ((5 <? _)%nat && (_ <? 100)%nat) eqn:Hlen; [ | exact IH ].
  intros [<-|Ht]; [ | now apply IH ].
  apply andb_prop in Hlen as [H1 H2].
  apply Nat.ltb_lt in H1, H2. lia.
Qed.

(** The timing of [n >= 1] titles over the assumed duration. *)
Lemma timed_shape (titles : list str) :
  titles <> [] ->
  let timed :=
    add_timing (total_duration / inject_Z (Z.of_nat (length titles)))%Q 0 titles in
  StronglySorted ends_increase timed
  /\ (exists first, head timed = Some first /\ (start_time first == 0)%Q)
  /\ (exists last, final timed = Some last /\ (end_time last == total_duration)%Q).
Proof.
  intros Hne timed.
  assert (Hn : (0 < inject_Z (Z.of_nat (length titles)))%Q).
  { change 0%Q with (inject_Z 0). rewrite <- Zlt_Qlt.
    destruct titles; [ congruence | simpl; lia ]. }
  assert (Hsd : (0 < total_duration / inject_Z (Z.of_nat (length titles)))%Q).
  { apply Qlt_shift_div_l; [ exact Hn | ]. unfold total_duration. lra. }
  split; [ now apply add_timing_sorted | ].
  split; [ now apply add_timing_head | ].
  destruct (add_timing_final (total_duration / inject_Z (Z.of_nat (length titles)))%Q
              titles 0 Hne) as (last & Hlast & Hend).
  exists last. split; [ exact Hlast | ]. rewrite Hend. simpl (0 + _)%nat.
  field. intros H. rewrite H in Hn. now apply Qlt_irrefl in Hn.
Qed.

(** C6, as the code has it.  [generate_sections] always returns at least
    one titled section; the [end_time] values grow strictly, the first
    section starts at 0 and the last ends at the assumed total duration of
    300 seconds.  The number of sections is 3 when there is no retrieval
    chain or the chain raises, 4 when the reply has no parsable title, and
    otherwise the number of parsable title lines of the reply, whatever it
    is. *)
Theorem C6_generate_sections_shape isdigit L video_id w :
  let sections := generate_sections isdigit L video_id w in
  (1 <= length sections)%nat
  /\ (forall s, In s sections -> title s <> [])
  /\ StronglySorted ends_increase sections
  /\ (exists first, head sections = Some first /\ (start_time first == 0)%Q)
  /\ (exists last, final sections = Some last
                   /\ (end_time last == total_duration)%Q)
  /\ match get_qa_chain L video_id w with
     | None => length sections = 3%nat
     | Some qa_chain =>
         match qa_chain sections_query with
         | Raise _ => length sections = 3%nat
         | Ok answer =>
             match parse_titles isdigit (split 10 answer) with
             | [] => length sections = 4%nat
             | parsed => map title sections = parsed
             end
         end
     end.
Proof.
  assert (Hcanned : forall a b c : Draft,
             title a <> [] -> title b <> [] -> title c <> [] ->
             (end_time a < end_time b)%Q -> (end_time b < end_time c)%Q ->
             (start_time a == 0)%Q -> (end_time c == total_duration)%Q ->
             (1 <= length [a; b; c])%nat
             /\ (forall s, In s [a; b; c] -> title s <> [])
             /\ StronglySorted ends_increase [a; b; c]
             /\ (exists first, head [a; b; c] = Some first /\ (start_time first == 0)%Q)
             /\ (exists last, final [a; b; c] = Some last
                              /\ (end_time last == total_duration)%Q)
             /\ length [a; b; c] = 3%nat).
  { intros a b c Ha Hb Hc Hab Hbc Hs He.
    split; [ simpl; lia | ].
    split; [ intros s [<-|[<-|[<-|[]]]]; assumption | ].
    split.
    { repeat constructor; unfold ends_increase; try assumption.
      eapply Qlt_trans; eauto. }
    split; [ exists a; auto | ].
    split; [ exists c; auto | reflexivity ]. }
  unfold generate_sections.
  destruct (get_qa_chain L video_id w) as [qa_chain|].
  2: { apply Hcanned; simpl; try discriminate; reflexivity. }
  destruct (qa_chain sections_query) as [answer|e].
  2: { apply Hcanned; simpl; try discriminate; reflexivity. }
  cbv zeta.
  destruct (parse_titles isdigit (split 10 answer)) as [|t ts] eqn:Hparse.
  - match goal with
    | |- context [add_timing ?sd 0 ?titles] =>
        destruct (timed_shape titles) as (Hsorted & Hfirst & Hlast);
        [ discriminate | ]
    end.
    split; [ simpl; lia | ].
    split.
    { intros s Hs. simpl in Hs.
      destruct Hs as [<-|[<-|[<-|[<-|[]]]]]; discriminate. }
    split; [ exact Hsorted | ].
    split; [ exact Hfirst | ].
    split; [ exact Hlast | reflexivity ].
  - destruct (timed_shape (t :: ts)) as (Hsorted & Hfirst & Hlast);
      [ discriminate | ].
    split; [ simpl; lia | ].
    split.
    { intros s Hs. apply (in_map title) in Hs. rewrite add_timing_titles in Hs.
      rewrite <- Hparse in Hs. apply parse_titles_lengths in Hs.
      destruct (title s); [ simpl in Hs; lia | discriminate ]. }
    split; [ exact Hsorted | ].
    split; [ exact Hfirst | ].
    split; [ exact Hlast | apply add_timing_titles ].
Qed.

(** C6 as stated fails on the number of sections: a reply with a single
    parsable title line yields a single section (from 0 to 300), not
    between 3 and 5. *)
Lemma C6_counterexample_single_title :
  map title (generate_sections ascii_isdigit
               (answering (py "1. Introduction and Overview")) 1 processed)
  = [py "Introduction and Overview"]
  /\ length (generate_sections ascii_isdigit
               (answering (py "1. Introduction and Overview")) 1 processed)
     = 1%nat
  /\ (length (generate_sections ascii_isdigit
                (answering (py "1. Introduction and Overview")) 1 processed)
      < 3)%nat.
Proof. repeat split; vm_compute; lia || reflexivity. Qed.

(** C6 on a reply of one line, which is taken as the one title, on a video
    without vector store (three sections), and on a one-title reply. *)
Lemma C6_witness :
  (1 <= length (generate_sections ascii_isdigit
                  (answering (py "no titles here")) 1 processed))%nat
  /\ length (generate_sections ascii_isdigit
               (answering (py "no titles here")) 1 fresh) = 3%nat
  /\ StronglySorted ends_increase
       (generate_sections ascii_isdigit
          (answering (py "1. Introduction and Overview")) 1 processed).
Proof.
  pose proof (C6_generate_sections_shape ascii_isdigit
                (answering (py "no titles here")) 1 processed) as (H1 & _).
  pose proof (C6_generate_sections_shape ascii_isdigit
                (answering (py "no titles here")) 1 fresh) as (_ & _ & _ & _ & _ & H2).
  pose proof (C6_generate_sections_shape ascii_isdigit
                (answering (py "1. Introduction and Overview")) 1 processed)
    as (_ & _ & H3 & _).
  split; [ exact H1 | split; [ exact H2 | exact H3 ] ].
Defined.

End LangChainSpec.

(* ================================================================== *)
(** * Part III: further properties of the services                     *)
(* ================================================================== *)

(** ** Video registry: the extracted id and the lookup-or-insert *)

Module VideoServiceProps.
Import Py Store VideoService Fixtures Vocabulary.

Lemma startswith_app p s : startswith p s = true -> s = p ++ drop (length p) s.
Proof.
  revert s. induction p as [|a p IH]; intros [|b s]; simpl; try discriminate; auto.
  intros H. apply andb_prop in H as [Hab Hp].
  apply N.eqb_eq in Hab. subst b. f_equal. now apply IH.
Qed.

Lemma take_while_app f s : exists rest, s = take_while f s ++ rest.
Proof.
  induction s as [|c s [rest IH]]; simpl; [ now exists [] | ].
  destruct (f c); [ exists rest; simpl; now f_equal | now exists (c :: s) ].
Qed.

Lemma take_while_all f s : Forall (fun c => f c = true) (take_while f s).
Proof.
  induction s as [|c s IH]; simpl; [ constructor | ].
  destruct (f c) eqn:Hc; constructor; auto.
Qed.

(** [g] is a usable id cut out of [s]. *)
Lemma well_formed_later (s : str) g c : well_formed_id s g -> well_formed_id (c :: s) g.
Proof.
  intros (Hne & Hall & pre & post & ->). repeat split; auto.
  now exists (c :: pre), post.
Qed.

Lemma well_formed_after (pre s : str) g :
  well_formed_id s g -> well_formed_id (pre ++ s) g.
Proof. induction pre; simpl; auto using well_formed_later. Qed.

Lemma id_group_well_formed s g : id_group s = Some g -> well_formed_id s g.
Proof.
  unfold id_group. pose proof (take_while_all id_char s) as Hall.
  destruct (take_while_app id_char s) as [rest Hs].
  destruct (take_while id_char s) as [|c g'] eqn:Hg; [ discriminate | ].
  intros [= <-]. repeat split; [ discriminate | exact Hall | ].
  exists [], rest. exact Hs.
Qed.

Lemma match_literal_well_formed literal s g :
  match_literal literal s = Some g -> well_formed_id s g.
Proof.
  unfold match_literal. destruct (startswith literal s) eqn:Hs; [ | discriminate ].
  intros Hg. rewrite (startswith_app _ _ Hs).
  apply well_formed_after. now apply id_group_well_formed.
Qed.

Lemma match_pattern1_well_formed s g : match_pattern1 s = Some g -> well_formed_id s g.
Proof.
  unfold match_pattern1.
  destruct (match_literal (py "youtube.com/watch?v=") s) eqn:H1.
  { intros [= <-]. eapply match_literal_well_formed; eauto. }
  destruct (match_literal (py "youtu.be/") s) eqn:H2.
  { intros [= <-]. eapply match_literal_well_formed; eauto. }
  apply match_literal_well_formed.
Qed.

Lemma match_query_v_well_formed s g : match_query_v s = Some g -> well_formed_id s g.
Proof.
  induction s as [|c s IH]; simpl; [ discriminate | ].
  destruct (c =? 10)%N; [ discriminate | ].
  destruct (match_query_v s) as [g'|].
  { intros [= <-]. now apply well_formed_later, IH. }
  destruct ((c =? 63) || (c =? 38))%N; [ | discriminate ].
  intros H. apply well_formed_later. eapply match_literal_well_formed; eauto.
Qed.

Lemma match_pattern2_well_formed s g : match_pattern2 s = Some g -> well_formed_id s g.
Proof.
  unfold match_pattern2. destruct (startswith _ s) eqn:Hs; [ | discriminate ].
  intros Hg. rewrite (startswith_app _ _ Hs).
  apply well_formed_after. now apply match_query_v_well_formed.
Qed.

Lemma re_search_well_formed pattern :
  (forall s g, pattern s = Some g -> well_formed_id s g) ->
  forall s g, re_search pattern s = Some g -> well_formed_id s g.
Proof.
  intros Hp. induction s as [|c s IH]; intros g; simpl.
  - destruct (pattern []) eqn:H; [ intros [= <-]; auto | discriminate ].
  - destruct (pattern (c :: s)) eqn:H; [ intros [= <-]; auto | ].
    intros Hg. now apply well_formed_later, IH.
Qed.

(** X1.  An id that [extract_video_id] returns is never empty, holds none
    of the characters [&], newline, [?] and [#], and is a contiguous piece
    of the URL. *)
Theorem extract_video_id_well_formed url g :
  extract_video_id url = Ok g ->
  g <> []
  /\ Forall (fun c => c <> 38%N /\ c <> 10%N /\ c <> 63%N /\ c <> 35%N) g
  /\ exists before after, url = before ++ g ++ after.
Proof.
  intros H.
  assert (Hwf : well_formed_id url g).
  { revert H. unfold extract_video_id.
    destruct (re_search match_pattern1 url) eqn:H1.
    { intros [= <-]. eapply re_search_well_formed; eauto using match_pattern1_well_formed. }
    destruct (re_search match_pattern2 url) eqn:H2; [ | discriminate ].
    intros [= <-]. eapply re_search_well_formed; eauto using match_pattern2_well_formed. }
  destruct Hwf as (Hne & Hall & Hsub). repeat split; auto.
  eapply Forall_impl; [ exact Hall | ].
  intros c Hc. unfold id_char in Hc. apply negb_true_iff in Hc.
  repeat (apply orb_false_elim in Hc as [Hc ?]).
  repeat match goal with H : (_ =? _)%N = false |- _ => apply N.eqb_neq in H end.
  auto.
Qed.

Lemma extract_video_id_well_formed_witness :
  py "abc123" <> []
  /\ Forall (fun c => c <> 38%N /\ c <> 10%N /\ c <> 63%N /\ c <> 35%N) (py "abc123")
  /\ exists before after, py "https://youtu.be/abc123?t=4" = before ++ py "abc123" ++ after.
Proof.
  apply (extract_video_id_well_formed (py "https://youtu.be/abc123?t=4") (py "abc123")).
  reflexivity.
Defined.

(** *** Lookup-or-insert *)

Lemma str_eqb_refl a : str_eqb a a = true.
Proof. now apply PyFacts.str_eqb_eq. Qed.

Lemma find_app_fresh {A} (f : A -> bool) l v :
  find f l = None -> f v = true -> find f (l ++ [v]) = Some v.
Proof.
  induction l as [|a l IH]; simpl; intros Hnone Hv; [ now rewrite Hv | ].
  destruct (f a); [ discriminate | auto ].
Qed.

(** What [create_video] does with a usable URL, case by case. *)
Lemma create_video_cases url title w vid :
  extract_video_id url = Ok vid ->
  (exists v, find (same_url url) (videos (working (db w))) = Some v
             /\ create_video url title w = (emit w Query, Ok v))
  \/ (find (same_url url) (videos (working (db w))) = None
      /\ let v := {| Video.id := next_id (map Video.id (videos (working (db w))));
                     Video.url := url;
                     Video.title := title_or title (py "Video " ++ vid) |} in
         let t := {| videos := videos (working (db w)) ++ [v];
                     frames := frames (working (db w));
                     sections := sections (working (db w)) |} in
         create_video url title w
         = (emit (set_db (emit (emit w Query) Insert)
                         {| committed := t; working := t |}) Commit, Ok v)).
Proof.
  intros He. unfold create_video, try_exceptM, bindM, lift, query, run_query.
  rewrite He. fold (same_url url).
  destruct (find (same_url url) (videos (working (db w)))) as [v|] eqn:Hf.
  - left. exists v. auto.
  - right. split; reflexivity.
Qed.

(** X2.  [create_video] is a lookup-or-insert: called again with the same
    URL (whatever the title), it returns the very row of the first call and
    changes neither the tables nor anything committed; the second call only
    runs its query. *)
Theorem create_video_idempotent url title1 title2 w vid :
  extract_video_id url = Ok vid ->
  exists w1 w2 v,
    create_video url title1 w = (w1, Ok v)
    /\ create_video url title2 w1 = (w2, Ok v)
    /\ Video.url v = url
    /\ db w2 = db w1
    /\ files w2 = files w1
    /\ trace w2 = trace w1 ++ [Query].
Proof.
  intros He.
  destruct (create_video_cases url title1 w vid He) as [(v & Hf & H1)|[Hf H1]].
  - destruct (create_video_cases url title2 (emit w Query) vid He)
      as [(v' & Hf' & H2)|[Hf' _]]; simpl in Hf'; [ | congruence ].
    assert (v' = v) by congruence. subst v'.
    eexists _, _, v. split; [ exact H1 | ]. split; [ exact H2 | ].
    apply find_some in Hf as [_ Hu]. apply PyFacts.str_eqb_eq in Hu.
    split; [ exact Hu | repeat split ].
  - cbv zeta in H1.
    match type of H1 with
    | _ = (?a, Ok ?b) => set (w1 := a) in *; set (v := b) in *
    end.
    assert (Hfind : find (same_url url) (videos (working (db w1))) = Some v).
    { simpl. apply find_app_fresh; [ exact Hf | apply str_eqb_refl ]. }
    destruct (create_video_cases url title2 w1 vid He)
      as [(v' & Hf' & H2)|[Hf' _]]; [ | congruence ].
    assert (v' = v) by congruence. subst v'.
    exists w1, (emit w1 Query), v.
    split; [ exact H1 | split; [ exact H2 | repeat split ] ].
Qed.

Lemma create_video_idempotent_witness :
  exists w1 w2 v,
    create_video (py "https://youtu.be/abc123") None fresh = (w1, Ok v)
    /\ create_video (py "https://youtu.be/abc123") (Some (py "Again")) w1 = (w2, Ok v)
    /\ Video.url v = py "https://youtu.be/abc123"
    /\ db w2 = db w1
    /\ files w2 = files w1
    /\ trace w2 = trace w1 ++ [Query].
Proof.
  apply (create_video_idempotent (py "https://youtu.be/abc123") None
           (Some (py "Again")) fresh (py "abc123")).
  reflexivity.
Defined.

Lemma find_none_not_in url (l : list Video.t) :
  find (same_url url) l = None -> ~ In url (map Video.url l).
Proof.
  intros Hf Hin. apply in_map_iff in Hin as (v & Hu & Hv).
  apply (find_none _ _ Hf) in Hv. unfold same_url in Hv.
  rewrite Hu, str_eqb_refl in Hv. discriminate.
Qed.

(** X3.  [create_video] keeps the URLs of the table distinct without help
    from the database: if no two rows share a URL before the call, none do
    after it, whatever the URL and whatever the outcome, in the open
    transaction and in what is committed. *)
Theorem create_video_keeps_urls_distinct url title w :
  List.NoDup (map Video.url (videos (working (db w)))) ->
  List.NoDup (map Video.url (videos (committed (db w)))) ->
  let w' := fst (create_video url title w) in
  List.NoDup (map Video.url (videos (working (db w'))))
  /\ List.NoDup (map Video.url (videos (committed (db w')))).
Proof.
  intros Hw Hc.
  destruct (extract_video_id url) as [vid|e] eqn:He.
  - destruct (create_video_cases url title w vid He) as [(v & Hf & H1)|[Hf H1]];
      rewrite H1; simpl; [ auto | ].
    assert (Hn : List.NoDup (map Video.url (videos (working (db w)) ++
                   [{| Video.id := next_id (map Video.id (videos (working (db w))));
                       Video.url := url;
                       Video.title := title_or title (py "Video " ++ vid) |}]))).
    { rewrite map_app. simpl. apply NoDup_ListNoDup, NoDup_app.
      split; [ now apply NoDup_ListNoDup | ].
      split; [ | apply NoDup_ListNoDup; repeat constructor; simpl; tauto ].
      intros u Hu Hu'. apply list_elem_of_In in Hu, Hu'.
      destruct Hu' as [<-|[]]. now apply (find_none_not_in url _ Hf). }
    auto.
  - rewrite (VideoServiceSpec.create_video_invalid _ _ _ _ He). simpl. auto.
Qed.

Lemma create_video_keeps_urls_distinct_witness :
  List.NoDup (map Video.url
    (videos (working (db (fst (create_video (py "https://youtu.be/abc123") None
                                 fresh))))))
  /\ List.NoDup (map Video.url
    (videos (committed (db (fst (create_video (py "https://youtu.be/abc123") None
                                   fresh)))))).
Proof.
  apply (create_video_keeps_urls_distinct (py "https://youtu.be/abc123") None fresh);
    constructor.
Defined.

End VideoServiceProps.

(** ** Frame extractor: records, ordering, scratch file *)

Module FrameExtractorProps.
Import Py Store FrameExtractor Fixtures Vocabulary.

(** *** Saving and listing *)

(** The [for file_path, timestamp in frame_data] loop appends one row per
    pair, in order, and touches nothing else. *)
Lemma add_frames_spec video_id frame_data : forall w,
  exists w' rows,
    add_frames video_id frame_data w = (w', Ok rows)
    /\ frames (working (db w')) = frames (working (db w)) ++ rows
    /\ videos (working (db w')) = videos (working (db w))
    /\ sections (working (db w')) = sections (working (db w))
    /\ committed (db w') = committed (db w)
    /\ files w' = files w /\ dirs w' = dirs w /\ cwd w' = cwd w
    /\ map as_pair rows = map of_pair frame_data
    /\ Forall (fun f => Frame.video_id f = video_id) rows.
Proof.
  induction frame_data as [|[file_path timestamp] rest IH]; intros w.
  - exists w, []. simpl. rewrite app_nil_r. repeat split; constructor.
  - cbn [add_frames]. unfold bindM at 1. cbn [add_frame].
    match goal with
    | |- context [IH] => idtac
    | |- exists _ _, (match ?k ?a ?w1 with _ => _ end) = _ /\ _ => idtac
    | _ => idtac
    end.
    set (f := {| Frame.id := next_id (map Frame.id (frames (working (db w))));
                 Frame.video_id := video_id;
                 Frame.timestamp := inject_Z timestamp;
                 Frame.path := file_path |}).
    set (w1 := emit (set_working w _) Insert).
    destruct (IH w1) as (w' & rows & Hrun & Hf & Hv & Hs & Hc & Hfi & Hd & Hcw & Hp & Hall).
    exists w', (f :: rows). unfold bindM. rewrite Hrun. cbn [ret].
    split; [ reflexivity | ].
    split; [ rewrite Hf; simpl; now rewrite <- app_assoc | ].
    repeat (split; [ assumption | ]).
    split; [ simpl; now rewrite Hp | ].
    constructor; [ reflexivity | exact Hall ].
Qed.




Lemma save_frame_records_spec video_id frame_data w :
  exists w' rows,
    save_frame_records video_id frame_data w = (w', Ok rows)
    /\ map as_pair rows = map of_pair frame_data
    /\ Forall (fun f => Frame.video_id f = video_id) rows
    /\ frames (working (db w')) = frames (working (db w)) ++ rows
    /\ committed (db w') = working (db w').
Proof.
  destruct (add_frames_spec video_id frame_data w)
    as (w1 & rows & Hrun & Hf & Hv & Hs & Hc & Hfi & Hd & Hcw & Hp & Hall).
  unfold save_frame_records, bindM. rewrite Hrun. cbn [commit modify ret].
  eexists _, rows. split; [ reflexivity | ].
  split; [ exact Hp | ]. split; [ exact Hall | ].
  split; [ simpl; exact Hf | reflexivity ].
Qed.


(** *** The scratch file *)

(** The [finally] block leaves no file at a non-empty scratch path. *)
Lemma leave_processing_removes {A} temp_video_path (out : World * result A) w' r :
  temp_video_path <> [] ->
  leave_processing (Some temp_video_path) out = (w', r) ->
  files w' !! key w' temp_video_path = None.
Proof.
  intros Hne. destruct out as [w3 r3]. unfold leave_processing, remove_temporary.
  destruct temp_video_path as [|c p]; [ congruence | ].
  unfold path_exists, remove.
  destruct (files w3 !! key w3 (c :: p)) eqn:Hlook.
  - intros [= <- _]. unfold key. cbn [cwd files emit set_files].
    apply lookup_delete_eq.
  - destruct (bool_decide _); intros [= <- _]; exact Hlook.
Qed.

(** X6.  Once the download has put the media file at a path, the file is
    not there when [process_video_frames] is left, whether extraction and
    saving went through or raised. *)
Theorem process_video_frames_removes_scratch_file
    T fuel video_id video_url interval w temp_video_path fs w' r :
  find (of_video video_id) (frames (working (db w))) = None ->
  yt_dlp T video_url temp_dir (files w) = Ok (temp_video_path, fs) ->
  temp_video_path <> [] ->
  process_video_frames T fuel video_id video_url interval w = Some (w', r) ->
  files w' !! key w' temp_video_path = None.
Proof.
  intros Hnone Hdl Hne. unfold process_video_frames, run_query.
  rewrite Hnone.
  unfold download_video. cbn [files emit]. rewrite Hdl.
  destruct (extract_frames_from_video T fuel temp_video_path video_id interval _)
    as [[w3 [frame_data|e]]|]; [ | | discriminate ].
  - intros Heq. apply (inj Some) in Heq.
    exact (leave_processing_removes _ _ _ _ Hne Heq).
  - intros Heq. apply (inj Some) in Heq.
    exact (leave_processing_removes _ _ _ _ Hne Heq).
Qed.

(** X6 on a download whose every extraction run fails: the media file is
    gone when the call is left with its exception. *)
Lemma process_video_frames_removes_scratch_file_witness :
  exists w' r,
    process_video_frames crashing_tools 3 1 (py "https://youtu.be/abc123") 10 fresh
    = Some (w', r)
    /\ files w' !! key w' scratch_video = None.
Proof.
  destruct (process_video_frames crashing_tools 3 1 (py "https://youtu.be/abc123")
              10 fresh) as [[w' r]|] eqn:Hrun.
  - exists w', r. split; [ reflexivity | ].
    apply (process_video_frames_removes_scratch_file crashing_tools 3 1
             (py "https://youtu.be/abc123") 10 fresh scratch_video
             (<[py "/app/storage/temp/video_abc123.mp4" := Bytes []]> ∅) w' r).
    + reflexivity.
    + reflexivity.
    + discriminate.
    + exact Hrun.
  - vm_compute in Hrun. discriminate.
Defined.

(** *** The loop and the interval *)





(** *** A second call *)

Lemma extract_loop_db T video_path video_id interval d :
  forall fuel current_time frame_count frame_paths timestamps w w' r,
    extract_loop T fuel video_path video_id interval d current_time frame_count
      frame_paths timestamps w = Some (w', r) ->
    db w' = db w /\ cwd w' = cwd w.
Proof.
  induction fuel as [|fuel IH]; intros ct fc ps ts w w' r; cbn [extract_loop];
    destruct (Qltb _ _); try discriminate; try (intros [= <- _]; now split).
  destruct (ffmpeg_run T _ _ _ _) as [fs|e]; [ | intros [= <- _]; now split ].
  destruct (path_exists _ _); intros Hrun; apply IH in Hrun; exact Hrun.
Qed.

Lemma extract_frames_from_video_db T fuel video_path video_id interval w w' r :
  extract_frames_from_video T fuel video_path video_id interval w = Some (w', r) ->
  db w' = db w /\ cwd w' = cwd w.
Proof.
  unfold extract_frames_from_video.
  destruct (StoreFacts.mkdir_world (video_frames_dir video_id) w)
    as (_ & Hc0 & Hd0 & _).
  destruct (mkdir (video_frames_dir video_id) w) as [w0 [[]|e0]];
    cbn [fst] in Hc0, Hd0; [ | intros [= <- _]; now split ].
  rewrite <- Hc0, <- Hd0.
  destruct (ffmpeg_probe T _ _) as [d|e]; [ | intros [= <- _]; now split ].
  destruct (extract_loop _ _ _ _ _ _ _ _ _ _ _) as [[w2 [[ps ts]|e]]|] eqn:Hloop;
    try discriminate; intros [= <- _]; apply extract_loop_db in Hloop; exact Hloop.
Qed.

Lemma leave_processing_db {A} temp_video_path (out : World * result A) w' r :
  leave_processing temp_video_path out = (w', r) ->
  db w' = db (fst out).
Proof.
  destruct out as [w3 r3]. unfold leave_processing, remove_temporary.
  destruct temp_video_path as [[|c p]|]; try (intros [= <- _]; reflexivity).
  destruct (path_exists _ _); [ | intros [= <- _]; reflexivity ].
  unfold remove. destruct (files w3 !! _); intros [= <- _]; reflexivity.
Qed.

Lemma leave_processing_ok {A} temp_video_path (out : World * result A) w' a :
  leave_processing temp_video_path out = (w', Ok a) -> snd out = Ok a.
Proof.
  destruct out as [w3 r3]. unfold leave_processing.
  destruct (remove_temporary _ _) as [w4 [[]|e]]; [ | discriminate ].
  destruct r3; [ | discriminate ]. now intros [= _ ->].
Qed.

Lemma find_none_filter {A} (f : A -> bool) l :
  find f l = None -> List.filter f l = [].
Proof.
  induction l as [|x l IH]; simpl; [ reflexivity | ].
  destruct (f x); [ discriminate | exact IH ].
Qed.

Lemma filter_all {A} (f : A -> bool) l :
  Forall (fun x => f x = true) l -> List.filter f l = l.
Proof.
  induction 1 as [|x l Hx _ IH]; simpl; [ reflexivity | ].
  now rewrite Hx, IH.
Qed.

(** X8.  When [process_video_frames] has gone through the whole pipeline
    for a video that had no frames and has returned a non-empty list of
    rows, any later call for that video returns the same rows after its two
    queries alone: nothing is downloaded, extracted or written, whatever the
    URL, the interval and the tools. *)
Theorem process_video_frames_second_call
    T fuel video_id video_url interval w w1 rows T' fuel' video_url' interval' :
  find (of_video video_id) (frames (working (db w))) = None ->
  process_video_frames T fuel video_id video_url interval w = Some (w1, Ok rows) ->
  rows <> [] ->
  process_video_frames T' fuel' video_id video_url' interval' w1
  = Some (emit (emit w1 Query) Query, Ok rows).
Proof.
  intros Hnone Hrun Hrows.
  assert (Hdb : frames (working (db w1)) = frames (working (db w)) ++ rows
                /\ Forall (fun f => Frame.video_id f = video_id) rows).
  { revert Hrun. unfold process_video_frames, run_query. rewrite Hnone.
    destruct (download_video T video_url temp_dir _) as [w2 [path|e]] eqn:Hdl.
    2: { intros Heq. apply (inj Some) in Heq.
         apply leave_processing_ok in Heq. discriminate. }
    assert (Hdb2 : db w2 = db w).
    { revert Hdl. unfold download_video.
      destruct (yt_dlp T _ _ _) as [[file fs]|e]; intros [= <- _]; reflexivity. }
    destruct (extract_frames_from_video T fuel path video_id interval w2)
      as [[w3 [frame_data|e]]|] eqn:Hex; [ | | discriminate ].
    2: { intros Heq. apply (inj Some) in Heq.
         apply leave_processing_ok in Heq. discriminate. }
    apply extract_frames_from_video_db in Hex as [Hdb3 _].
    intros Heq. apply (inj Some) in Heq.
    pose proof (leave_processing_db _ _ _ _ Heq) as Hdb1.
    apply leave_processing_ok in Heq.
    destruct (save_frame_records_spec video_id frame_data w3)
      as (w4 & rows' & Hsave & _ & Hall & Hf & _).
    rewrite Hsave in Heq, Hdb1. cbn [fst snd] in Heq, Hdb1.
    injection Heq as ->. rewrite Hdb1, Hf, Hdb3, Hdb2. now split. }
  destruct Hdb as [Hframes Hall].
  assert (Hfilter : List.filter (of_video video_id) (frames (working (db w1))) = rows).
  { rewrite Hframes, List.filter_app, (find_none_filter _ _ Hnone). simpl.
    apply filter_all. eapply Forall_impl; [ exact Hall | ].
    intros f Hf. unfold of_video. now rewrite Hf, Z.eqb_refl. }
  unfold process_video_frames, run_query.
  destruct (find (of_video video_id) (frames (working (db w1)))) eqn:Hfind.
  - cbn [emit db]. now rewrite Hfilter.
  - apply find_none_filter in Hfind. congruence.
Qed.

(** X8 on the 25-second video: the two rows of the first call come back
    from a second call that is given a tool that would fail. *)
Lemma process_video_frames_second_call_witness :
  exists w1 rows,
    process_video_frames skipping_tools 3 1 (py "https://youtu.be/abc123") 10 deployed
    = Some (w1, Ok rows)
    /\ length rows = 2%nat
    /\ process_video_frames crashing_tools 0 1 (py "https://youtu.be/other") 0 w1
       = Some (emit (emit w1 Query) Query, Ok rows).
Proof.
  destruct (process_video_frames skipping_tools 3 1 (py "https://youtu.be/abc123")
              10 deployed) as [[w1 [rows|e]]|] eqn:Hrun;
    [ | vm_compute in Hrun; discriminate | vm_compute in Hrun; discriminate ].
  exists w1, rows. split; [ reflexivity | ].
  assert (Hlen : length rows = 2%nat).
  { pose proof Hrun as H. vm_compute in H. injection H as _ <-. reflexivity. }
  split; [ exact Hlen | ].
  apply (process_video_frames_second_call skipping_tools 3 1
           (py "https://youtu.be/abc123") 10 deployed w1 rows).
  - reflexivity.
  - exact Hrun.
  - intros ->. discriminate.
Defined.

(** *** Cleaning up *)

Lemma filter_twice {A} (p q : A -> bool) l :
  List.filter p (List.filter q l) = List.filter (fun x => q x && p x) l.
Proof.
  induction l as [|x l IH]; simpl; [ reflexivity | ].
  destruct (q x); simpl; [ destruct (p x) | ]; now rewrite IH.
Qed.

(** The row filter that [db.delete] leaves after the rows of [l]. *)
Lemma remove_frames_spec l : forall w w',
  remove_frames l w = (w', Ok tt) ->
  frames (working (db w'))
  = List.filter (fun g => negb (existsb (fun f => Frame.id g =? Frame.id f)%Z l))
                (frames (working (db w)))
  /\ videos (working (db w')) = videos (working (db w))
  /\ sections (working (db w')) = sections (working (db w))
  /\ committed (db w') = committed (db w)
  /\ cwd w' = cwd w /\ dirs w' = dirs w
  /\ (forall k, files w !! k = None -> files w' !! k = None)
  /\ (forall f, In f l -> files w' !! key w' (Frame.path f) = None).
Proof.
  induction l as [|f l IH]; intros w w'.
  - intros [= <-]. simpl.
    rewrite (filter_all (fun _ => true)) by (apply List.Forall_forall; auto).
    repeat split; auto. intros f [].
  - cbn [remove_frames]. unfold bindM, path_exists, remove, delete_frame, modify.
    destruct (files w !! key w (Frame.path f)) eqn:Hlook;
      [ | destruct (bool_decide _); [ discriminate | ] ];
      intros Hrest; apply IH in Hrest as (Hf & Hv & Hs & Hc & Hcw & Hd & Hk & Hp);
      cbn [set_working set_db emit set_files db working committed frames videos
           sections cwd dirs files] in Hf, Hv, Hs, Hc, Hcw, Hd, Hk;
      (split; [ rewrite Hf, filter_twice; apply filter_ext; intros g;
                cbn [existsb]; now rewrite negb_orb | ]);
      do 5 (split; [ assumption | ]).
    + split.
      * intros k Hk0. apply Hk. now apply lookup_delete_None; right.
      * intros g [<-|Hin]; [ | now apply Hp ].
        apply Hk. unfold key. rewrite Hcw. apply lookup_delete_eq.
    + split; [ exact Hk | ].
      intros g [<-|Hin]; [ | now apply Hp ].
      apply Hk. unfold key. rewrite Hcw. exact Hlook.
Qed.

(** Until the commit nothing of [cleanup_video_frames] touches the
    committed tables, and the session is neither committed nor rolled
    back. *)
Lemma remove_frames_committed l : forall w w' r,
  remove_frames l w = (w', r) ->
  committed (db w') = committed (db w)
  /\ exists evs, trace w' = trace w ++ evs
                 /\ Forall (fun ev => ev <> Commit /\ ev <> Rollback) evs.
Proof.
  induction l as [|f l IH]; intros w w' r.
  - intros [= <- _]. split; [ reflexivity | ].
    exists []. rewrite app_nil_r. split; [ reflexivity | constructor ].
  - cbn [remove_frames]. unfold bindM, path_exists, remove, delete_frame, modify.
    destruct (files w !! key w (Frame.path f)) eqn:Hlook;
      [ | destruct (bool_decide _) ].
    + intros Hrest. apply IH in Hrest as (Hc & evs & Ht & Hall).
      cbn [set_working set_db emit set_files db committed trace] in Hc, Ht.
      split; [ exact Hc | ].
      exists (Remove (Frame.path f) :: evs).
      split; [ now rewrite Ht, <- app_assoc | ].
      constructor; [ split; discriminate | exact Hall ].
    + intros [= <- _]. split; [ reflexivity | ].
      exists []. rewrite app_nil_r. split; [ reflexivity | constructor ].
    + intros Hrest. apply IH in Hrest as (Hc & evs & Ht & Hall).
      cbn [set_working set_db emit set_files db committed trace] in Hc, Ht.
      split; [ exact Hc | ]. now exists evs.
Qed.

Lemma key_unique {A} (id : A -> Z) l a b :
  List.NoDup (map id l) -> In a l -> In b l -> id a = id b -> a = b.
Proof.
  induction l as [|x l IH]; simpl; [ tauto | ].
  intros Hnd. inversion Hnd as [|? ? Hx Hl]; subst.
  intros [->|Ha] [->|Hb] Heq; auto.
  - exfalso. apply Hx. rewrite Heq. now apply in_map.
  - exfalso. apply Hx. rewrite <- Heq. now apply in_map.
Qed.

(** X9.  When [cleanup_video_frames] returns, with the primary keys of the
    Frame table distinct: the table holds the rows of the other videos,
    unchanged and in their order, and none of this video; the deletion is
    committed; the other tables are as they were; no row of the video has
    a file at its path any more; and no file has appeared. *)
Theorem cleanup_video_frames_removes video_id w w' :
  List.NoDup (map Frame.id (frames (working (db w)))) ->
  cleanup_video_frames video_id w = (w', Ok tt) ->
  frames (working (db w'))
  = List.filter (fun f => negb (of_video video_id f)) (frames (working (db w)))
  /\ committed (db w') = working (db w')
  /\ videos (working (db w')) = videos (working (db w))
  /\ sections (working (db w')) = sections (working (db w))
  /\ (forall f, In f (frames (working (db w))) -> Frame.video_id f = video_id ->
                files w' !! key w' (Frame.path f) = None)
  /\ (forall k, files w !! k = None -> files w' !! k = None).
Proof.
  intros Hnd. unfold cleanup_video_frames, try_exceptM.
  unfold bindM at 1. unfold query, run_query.
  set (l := List.filter (of_video video_id) (frames (working (db w)))).
  unfold bindM at 1.
  destruct (remove_frames l (emit w Query)) as [w1 [[]|e]] eqn:Hrm;
    [ | discriminate ].
  apply remove_frames_spec in Hrm as (Hf & Hv & Hs & Hc & Hcw & Hd & Hk & Hp).
  cbn [emit db files cwd] in Hf, Hv, Hs, Hc, Hcw, Hk.
  unfold bindM.
  set (sweep := if path_exists w1 _ then _ else _).
  assert (Hsweep : (exists e, snd sweep = Raise e)
                   \/ (snd sweep = Ok tt /\ db (fst sweep) = db w1
                       /\ files (fst sweep) = files w1 /\ cwd (fst sweep) = cwd w1)).
  { subst sweep. destruct (path_exists w1 _); [ | right; now repeat split ].
    destruct (directory_is_empty w1 _) as [[|]|e];
      [ right | right | left; eauto ]; now repeat split. }
  destruct sweep as [w2 [[]|e]]; cbn [fst snd] in Hsweep;
    destruct Hsweep as [[e' He']|(_ & Hdb2 & Hf2 & Hcw2)]; try discriminate.
  unfold commit, modify. intros [= <-]. cbn [emit set_db db files working committed].
  rewrite Hdb2.
  split.
  { rewrite Hf. apply filter_ext_in. intros g Hg. f_equal.
    destruct (of_video video_id g) eqn:Hov.
    - apply existsb_exists. exists g. split; [ | apply Z.eqb_refl ].
      apply filter_In. now split.
    - apply Bool.not_true_is_false. intros Hex.
      apply existsb_exists in Hex as (f & Hin & Heq).
      apply filter_In in Hin as [Hin Hfv]. apply Z.eqb_eq in Heq.
      assert (g = f) by (eapply (key_unique Frame.id); eauto).
      subst. congruence. }
  split; [ reflexivity | ]. split; [ exact Hv | ]. split; [ exact Hs | ].
  split.
  - intros f Hin Hvid. unfold key. cbn [cwd emit set_db]. rewrite Hcw2, Hf2.
    apply Hp. apply filter_In. split; [ exact Hin | ].
    unfold of_video. now rewrite Hvid, Z.eqb_refl.
  - intros k Hk0. rewrite Hf2. now apply Hk.
Qed.

(** X9 on the three-frame table with the images of video 1 on disk: the
    frame of video 2 is what is left, and the first image is gone. *)
Lemma cleanup_video_frames_removes_witness :
  exists w',
    cleanup_video_frames 1 stale_with_images = (w', Ok tt)
    /\ frames (working (db w'))
       = [ row 3 2 12 (py "storage/frames/2/frame_000000_12.00s.jpg") ]
    /\ files w' !! py "/app/storage/frames/1/frame_000000_0.00s.jpg" = None.
Proof.
  destruct (cleanup_video_frames 1 stale_with_images) as [w' [[]|e]] eqn:Hrun;
    [ | vm_compute in Hrun; discriminate ].
  exists w'. split; [ reflexivity | ].
  destruct (cleanup_video_frames_removes 1 stale_with_images w')
    as (Hf & _ & _ & _ & Hp & _).
  - vm_compute. repeat constructor; intros H; simpl in H; intuition discriminate.
  - exact Hrun.
  - split; [ rewrite Hf; reflexivity | ].
    pose proof (Hp (row 1 1 0 (py "storage/frames/1/frame_000000_0.00s.jpg"))) as H.
    assert (Hcw : cwd w' = py "/app")
      by (pose proof Hrun as H'; vm_compute in H'; now injection H' as <-).
    unfold key in H. rewrite Hcw in H. apply H; [ now left | reflexivity ].
Defined.

(** X10.  When [cleanup_video_frames] raises, nothing has been committed
    and nothing is rolled back: the committed tables are those of before,
    no commit and no rollback has been issued, so the rows deleted up to
    that point stay deleted in the open transaction; the exception is the
    wrapped one. *)
Theorem cleanup_video_frames_failure video_id w w' e :
  cleanup_video_frames video_id w = (w', Raise e) ->
  committed (db w') = committed (db w)
  /\ (exists cause,
        e = Exception (py "Error cleaning up video frames: " ++ str_of_exn cause))
  /\ exists evs, trace w' = trace w ++ evs
                 /\ Forall (fun ev => ev <> Commit /\ ev <> Rollback) evs.
Proof.
  unfold cleanup_video_frames, try_exceptM.
  unfold bindM at 1. unfold query, run_query.
  set (l := List.filter (of_video video_id) (frames (working (db w)))).
  unfold bindM at 1.
  destruct (remove_frames l (emit w Query)) as [w1 [[]|e0]] eqn:Hrm;
    apply remove_frames_committed in Hrm as (Hc & evs & Ht & Hall);
    cbn [emit db trace] in Hc, Ht.
  2: { unfold raise. intros [= <- <-]. split; [ exact Hc | ].
       split; [ eauto | ]. exists (Query :: evs).
       split; [ now rewrite Ht, <- app_assoc | ].
       constructor; [ split; discriminate | exact Hall ]. }
  unfold bindM.
  set (sweep := if path_exists w1 _ then _ else _).
  assert (Hsweep : db (fst sweep) = db w1 /\ trace (fst sweep) = trace w1).
  { subst sweep. destruct (path_exists w1 _); [ | now split ].
    destruct (directory_is_empty w1 _) as [[|]|e1]; now split. }
  destruct sweep as [w2 [[]|e1]]; cbn [fst] in Hsweep; destruct Hsweep as [Hdb2 Ht2].
  - unfold commit, modify. discriminate.
  - unfold raise. intros [= <- <-]. split; [ now rewrite Hdb2 | ].
    split; [ eauto | ]. exists (Query :: evs).
    split; [ now rewrite Ht2, Ht, <- app_assoc | ].
    constructor; [ split; discriminate | exact Hall ].
Qed.

(** X10 where a regular file sits at the path of the frame directory: the
    call raises after the two rows of video 1 have left the open
    transaction, and the committed table still holds all three. *)
Lemma cleanup_video_frames_failure_witness :
  exists w' e,
    cleanup_video_frames 1 blocked = (w', Raise e)
    /\ committed (db w') = three_frames
    /\ length (frames (working (db w'))) = 1%nat.
Proof.
  destruct (cleanup_video_frames 1 blocked) as [w' [[]|e]] eqn:Hrun;
    [ vm_compute in Hrun; discriminate | ].
  exists w', e. split; [ reflexivity | ].
  destruct (cleanup_video_frames_failure 1 blocked w' e Hrun) as (Hc & _ & _).
  split; [ exact Hc | ].
  pose proof Hrun as H. vm_compute in H. now injection H as <- _.
Defined.

End FrameExtractorProps.

(** ** Embeddings: what a search reads and what a generation reports *)

Module SimpleEmbeddingsProps.
Import Py Store SimpleEmbeddings Fixtures Vocabulary.

(** Every detailed result is read off a row of the Frame table. *)
Lemma detail_rows results : forall w r,
  In r (snd (detail results w)) ->
  exists f, In f (frames (working (db w)))
            /\ SearchResult.frame_id r = Frame.id f
            /\ SearchResult.timestamp r = Frame.timestamp f
            /\ SearchResult.path r = Frame.path f.
Proof.
  induction results as [|h results IH]; intros w r; simpl; [ tauto | ].
  unfold run_query.
  destruct (detail results (emit w Query)) as [w2 rest] eqn:Hrest.
  specialize (IH (emit w Query) r). rewrite Hrest in IH. simpl in IH.
  destruct (find _ _) as [f|] eqn:Hf; simpl; [ | exact IH ].
  intros [<-|Hr]; [ | exact (IH Hr) ].
  exists f. apply find_some in Hf as [Hin _]. simpl. auto.
Qed.

(** The lookups run one query per hit and change nothing. *)
Lemma detail_world results : forall w,
  db (fst (detail results w)) = db w
  /\ files (fst (detail results w)) = files w
  /\ dirs (fst (detail results w)) = dirs w
  /\ trace (fst (detail results w)) = trace w ++ replicate (length results) Query.
Proof.
  induction results as [|h results IH]; intros w; simpl.
  - now rewrite app_nil_r.
  - unfold run_query. specialize (IH (emit w Query)).
    destruct (detail results (emit w Query)) as [w2 rest]. simpl in IH.
    destruct IH as (Hdb & Hf & Hd & Ht).
    assert (Hgoal : db w2 = db w /\ files w2 = files w /\ dirs w2 = dirs w
                    /\ trace w2 = trace w ++ Query :: replicate (length results) Query).
    { repeat split; auto. now rewrite Ht, <- app_assoc. }
    destruct (find _ _); exact Hgoal.
Qed.

(** X11.  A search reads and never writes: the tables, the files and the
    directories are as before, and the only events are database queries.
    The timestamp and the path of every result are those of a Frame row
    with the result's frame id, not those stored in the artifact. *)
Theorem search_visual_content_reads_rows open_clip self video_id query limit w :
  let out := search_visual_content open_clip self video_id query limit w in
  db (fst (fst out)) = db w
  /\ files (fst (fst out)) = files w
  /\ dirs (fst (fst out)) = dirs w
  /\ (exists n, trace (fst (fst out)) = trace w ++ replicate n Query)
  /\ exists results,
       snd out = Ok results
       /\ forall r, In r results ->
            exists f, In f (frames (working (db w)))
                      /\ SearchResult.frame_id r = Frame.id f
                      /\ SearchResult.timestamp r = Frame.timestamp f
                      /\ SearchResult.path r = Frame.path f.
Proof.
  intros out.
  destruct (SimpleEmbeddingsSpec.search_visual_content_cases
              open_clip self video_id query limit w)
    as [[Hout Hw]|(self' & m & content & hits & _ & _ & _ & Hout)];
    fold out in Hout.
  - fold out in Hw. rewrite Hw. repeat split.
    + exists 0%nat. simpl. now rewrite app_nil_r.
    + exists []. split; [ exact Hout | intros r [] ].
  - rewrite Hout. cbn [fst snd].
    destruct (detail_world hits w) as (Hdb & Hf & Hd & Ht).
    repeat split; auto.
    + eauto.
    + eexists. split; [ reflexivity | ]. apply detail_rows.
Qed.

Lemma omap_length_le {A B} (f : A -> option B) l :
  (length (omap f l) <= length l)%nat.
Proof.
  induction l as [|a l IH]; simpl; [ lia | ].
  destruct (f a); simpl.
  - apply le_n_S. exact IH.
  - apply Nat.le_trans with (length l); [ exact IH | apply Nat.le_succ_diag_r ].
Qed.

(** The ways [generate_frame_embeddings] ends, each with its cause. *)
Lemma generate_frame_embeddings_cases open_clip self video_id w :
  let rows := List.filter (of_video video_id) (frames (working (db w))) in
  match generate_frame_embeddings open_clip self video_id w with
  | (w', _, Success processed total_frames file) =>
      (exists self' m, _load_clip_model open_clip self = Ok (self', m))
      /\ bindable video_id = true
      /\ rows <> []
      /\ snd (mkdir_parents (embeddings_dir video_id) (emit w Query)) = Ok tt
      /\ total_frames = length rows
      /\ (0 <= processed <= Z.of_nat total_frames)%Z
      /\ (file = None <-> processed = 0%Z)
      /\ (file <> None ->
          file = Some (embeddings_file video_id)
          /\ path_exists w' (embeddings_file video_id) = true)
      /\ db w' = db w
  | (w', _, Error error processed) =>
      processed = 0%Z /\ files w' = files w /\ db w' = db w
      /\ ((exists e, _load_clip_model open_clip self = Raise e
                     /\ error = str_of_exn e)
          \/ (bindable video_id = false /\ error = str_of_exn OverflowError)
          \/ (bindable video_id = true /\ rows = []
              /\ error = py "No frames found")
          \/ (bindable video_id = true /\ rows <> []
              /\ exists e,
                   snd (mkdir_parents (embeddings_dir video_id) (emit w Query))
                   = Raise e
                   /\ error = str_of_exn e)
          \/ (bindable video_id = true /\ rows <> []
              /\ error = str_of_exn (IsADirectoryError (embeddings_file video_id))))
  end.
Proof.
  intros rows. subst rows. unfold generate_frame_embeddings.
  destruct (_load_clip_model open_clip self) as [[self' m]|e];
    [ | repeat split; left; eauto ].
  destruct (bindable video_id) eqn:Hbind; cbn [negb];
    [ | repeat split; right; left; now split ].
  cbn [run_query].
  destruct (List.filter (of_video video_id) (frames (working (db w))))
    as [|f0 rows] eqn:Hrows;
    [ repeat split; right; right; left; now repeat split | ].
  destruct (StoreFacts.mkdir_parents_world (embeddings_dir video_id) (emit w Query))
    as (Hf2 & Hc2 & Hd2 & _).
  destruct (mkdir_parents (embeddings_dir video_id) (emit w Query))
    as [w2 [[]|e]] eqn:Hmk; cbn [fst snd files cwd db emit] in *.
  2: { repeat split; auto. right; right; right; left.
       repeat split; [ discriminate | eauto ]. }
  rewrite SimpleEmbeddingsSpec.embed_loop_spec. cbn [app].
  pose proof (omap_length_le (embed_frame m w2) (f0 :: rows)) as Hle.
  destruct (omap (embed_frame m w2) (f0 :: rows)) as [|t0 ts] eqn:Htriples.
  - split; [ eauto | ]. split; [ reflexivity | ]. split; [ discriminate | ].
    split; [ reflexivity | ]. split; [ reflexivity | ].
    split; [ simpl; lia | ]. split; [ split; reflexivity | ].
    split; [ congruence | exact Hd2 ].
  - unfold write_file. destruct (is_dir w2 _).
    + repeat split; auto. right; right; right; right.
      repeat split. discriminate.
    + split; [ eauto | ]. split; [ reflexivity | ]. split; [ discriminate | ].
      split; [ reflexivity | ]. split; [ reflexivity | ].
      split; [ cbn [length] in *; lia | ].
      split; [ split; [ discriminate | cbn [length]; lia ] | ].
      split; [ | exact Hd2 ].
      intros _. split; [ reflexivity | ].
      unfold path_exists, key. cbn [files cwd emit set_files].
      now rewrite lookup_insert_eq.
Qed.

(** X12.  What [generate_frame_embeddings] reports.  On success the total
    is the number of Frame rows of the video and is at least one, the
    processed count lies between zero and the total, a file is named exactly
    when at least one frame was embedded, and it is then the file
    [get_embeddings_status] finds afterwards.  An error always reports zero
    processed frames and leaves the files alone.  The tables are never
    touched. *)
Theorem generate_frame_embeddings_report open_clip self video_id w :
  match generate_frame_embeddings open_clip self video_id w with
  | (w', _, Success processed total_frames file) =>
      total_frames
      = length (List.filter (of_video video_id) (frames (working (db w))))
      /\ (1 <= total_frames)%nat
      /\ (0 <= processed <= Z.of_nat total_frames)%Z
      /\ (file = None <-> processed = 0%Z)
      /\ (file <> None ->
          get_embeddings_status video_id w'
          = {| Status.video_id := video_id;
               Status.embeddings_exist := true;
               Status.embeddings_file := file |})
      /\ db w' = db w
  | (w', _, Error _ processed) =>
      processed = 0%Z /\ files w' = files w /\ db w' = db w
  end.
Proof.
  pose proof (generate_frame_embeddings_cases open_clip self video_id w) as H.
  cbv zeta in H.
  destruct (generate_frame_embeddings open_clip self video_id w)
    as [[w' self'] [error processed|processed total file]].
  - destruct H as (H1 & H2 & H3 & _). auto.
  - destruct H as (_ & _ & Hrows & _ & Htotal & Hp & Hfile & Hstatus & Hdb).
    split; [ exact Htotal | ].
    split.
    { rewrite Htotal.
      destruct (List.filter (of_video video_id) (frames (working (db w))));
        [ congruence | simpl; lia ]. }
    split; [ exact Hp | ]. split; [ exact Hfile | ]. split; [ | exact Hdb ].
    intros Hsome. destruct (Hstatus Hsome) as [-> Hex].
    unfold get_embeddings_status. now rewrite Hex.
Qed.

End SimpleEmbeddingsProps.

(** ** Transcript processing and questions *)

Module LangChainProps.
Import Py Store LangChain Fixtures Vocabulary.

(** X13.  [process_transcript] and the status endpoint.  Without a
    transcript nothing changes and the failure result is returned.  With a
    transcript the vector-store directory is made first, outside any
    [try]: if that fails (a regular file is at its path or above it) the
    exception leaves the method and nothing has changed.  Otherwise the
    method returns a result; the directory is there afterwards, so
    [get_langchain_status] reports the video as processed, also when
    building the store failed and the result says [success] false with
    zero chunks; [success] is true exactly when the build went through, and
    the chunk count is then the number of chunks of the splitter.  The
    tables are never touched. *)
Theorem process_transcript_status L video_id video_url w :
  let out := process_transcript L video_id video_url w in
  let segments := fetch_transcript L video_url in
  let chunks := split_text L (Py.join (py " ") (full_text_parts segments)) in
  let docs := chunk_docs (length chunks) (last_start segments) 0 chunks in
  let made := mkdir_parents (chroma_dir video_id) w in
  db (fst out) = db w
  /\ (segments = [] -> out = (w, Ok no_transcript))
  /\ (segments <> [] -> forall e, snd made = Raise e -> out = (w, Raise e))
  /\ (segments <> [] -> snd made = Ok tt ->
      exists r,
        snd out = Ok r
        /\ segments_count r = length segments
        /\ Routes.processed (Routes.get_langchain_status video_id (fst out)) = true
        /\ (success r = true <->
            snd (chroma_from_documents L docs (chroma_dir video_id) (files w))
            = Ok tt)
        /\ (success r = false -> chunks_count r = 0%nat /\ vectorstore_path r = None)
        /\ (success r = true ->
            chunks_count r = length chunks
            /\ vectorstore_path r = Some (chroma_dir video_id))).
Proof.
  intros out segments chunks docs made. subst out segments chunks docs made.
  unfold process_transcript.
  destruct (fetch_transcript L video_url) as [|seg rest] eqn:Hseg.
  - repeat split; congruence.
  - destruct (StoreFacts.mkdir_parents_world (chroma_dir video_id) w)
      as (Hf1 & _ & Hd1 & _).
    pose proof (StoreFacts.mkdir_parents_exists (chroma_dir video_id) w) as Hdir.
    pose proof (StoreFacts.mkdir_parents_raises (chroma_dir video_id) w) as Hsame.
    assert (Hlen : forall n last i l, length (chunk_docs n last i l) = length l).
    { intros n last i l. revert i.
      induction l as [|c l IH]; intros i; simpl; [ | rewrite IH ]; reflexivity. }
    destruct (mkdir_parents (chroma_dir video_id) w) as [w1 [[]|e]];
      cbn [fst snd] in *.
    + rewrite Hf1.
      destruct (chroma_from_documents L _ _ _) as [fs [[]|e]]; cbn [fst snd].
      * split; [ exact Hd1 | ]. split; [ discriminate | ].
        split; [ intros _ e He; discriminate He | ]. intros _ _.
        eexists. split; [ reflexivity | ].
        cbn [segments_count success chunks_count vectorstore_path].
        split; [ reflexivity | ].
        split; [ unfold Routes.get_langchain_status; cbn [Routes.processed];
                 now apply Hdir | ].
        split; [ now split | ].
        split; [ discriminate | ]. intros _. split; [ apply Hlen | reflexivity ].
      * split; [ exact Hd1 | ]. split; [ discriminate | ].
        split; [ intros _ e0 He; discriminate He | ]. intros _ _.
        eexists. split; [ reflexivity | ].
        cbn [segments_count success chunks_count vectorstore_path].
        split; [ reflexivity | ].
        split; [ unfold Routes.get_langchain_status; cbn [Routes.processed];
                 now apply Hdir | ].
        split; [ split; discriminate | ].
        split; [ now split | discriminate ].
    + rewrite (Hsame e eq_refl).
      split; [ reflexivity | ]. split; [ discriminate | ].
      split; [ now intros _ e0 [= <-] | ]. intros _ He. discriminate He.
Qed.

(** *** Chunk documents *)

Lemma chunk_time_mono n last i j :
  (0 < n)%nat -> (0 <= last)%Q -> (i <= j)%nat ->
  (chunk_time n last i <= chunk_time n last j)%Q.
Proof.
  intros Hn Hlast Hij. unfold chunk_time.
  apply Qmult_le_compat_r; [ | exact Hlast ].
  unfold Qdiv. apply Qmult_le_compat_r.
  - rewrite <- Zle_Qle. lia.
  - apply Qinv_le_0_compat. change 0%Q with (inject_Z 0). rewrite <- Zle_Qle. lia.
Qed.

Lemma chunk_time_top n last : (0 < n)%nat -> (chunk_time n last n == last)%Q.
Proof.
  intros Hn. unfold chunk_time. field.
  intros H. unfold Qeq in H. simpl in H. lia.
Qed.

Lemma chunk_time_zero n last : (chunk_time n last 0 == 0)%Q.
Proof. unfold chunk_time, Qdiv. simpl. ring. Qed.

(** The loop from index [i] on. *)
Lemma chunk_docs_from n last : forall chunks i,
  (0 <= last)%Q -> (i + length chunks <= n)%nat ->
  map chunk_id (chunk_docs n last i chunks) = seq i (length chunks)
  /\ map page_content (chunk_docs n last i chunks) = chunks
  /\ Forall (fun d => (chunk_time n last i <= approximate_start_time d)%Q
                      /\ (approximate_start_time d <= last)%Q
                      /\ timestamp d = clock (approximate_start_time d))
            (chunk_docs n last i chunks)
  /\ StronglySorted by_start (chunk_docs n last i chunks).
Proof.
  induction chunks as [|c chunks IH]; intros i Hlast Hin; cbn [chunk_docs length].
  - repeat split; constructor.
  - cbn [length] in Hin.
    destruct (IH (S i) Hlast ltac:(lia)) as (Hid & Hpc & Hall & Hs).
    fold (chunk_time n last i).
    assert (Hn : (0 < n)%nat) by lia.
    split; [ cbn [map seq chunk_id]; now rewrite Hid | ].
    split; [ cbn [map page_content]; now rewrite Hpc | ].
    split.
    + constructor.
      * cbn [approximate_start_time timestamp].
        split; [ apply Qle_refl | ]. split; [ | reflexivity ].
        apply Qle_trans with (chunk_time n last n);
          [ apply chunk_time_mono; auto; lia | ].
        apply Qle_lteq. right. now apply chunk_time_top.
      * eapply Forall_impl; [ exact Hall | ].
        intros d (Hlo & Hhi & Hts). split; [ | now split ].
        eapply Qle_trans; [ | exact Hlo ]. apply chunk_time_mono; auto.
    + constructor; [ exact Hs | ].
      eapply Forall_impl; [ exact Hall | ].
      intros d (Hlo & _). unfold by_start. cbn [approximate_start_time].
      eapply Qle_trans; [ | exact Hlo ]. apply chunk_time_mono; auto.
Qed.

(** X14.  The chunk documents handed to the vector store, for a last
    segment that does not start before zero: one per chunk, in the order of
    the chunks, numbered from 0; their approximate start times lie between
    0 and the start of the last segment and never decrease; and each
    carries the clock reading of its own start time. *)
Theorem chunk_docs_times last chunks :
  (0 <= last)%Q ->
  let docs := chunk_docs (length chunks) last 0 chunks in
  map chunk_id docs = seq 0 (length chunks)
  /\ map page_content docs = chunks
  /\ Forall (fun d => (0 <= approximate_start_time d)%Q
                      /\ (approximate_start_time d <= last)%Q
                      /\ timestamp d = clock (approximate_start_time d)) docs
  /\ StronglySorted by_start docs.
Proof.
  intros Hlast docs.
  destruct (chunk_docs_from (length chunks) last chunks 0 Hlast ltac:(lia))
    as (Hid & Hpc & Hall & Hs).
  split; [ exact Hid | ]. split; [ exact Hpc | ]. split; [ | exact Hs ].
  eapply Forall_impl; [ exact Hall | ].
  intros d (Hlo & Hhi & Hts). split; [ | now split ].
  apply Qle_trans with (chunk_time (length chunks) last 0); [ | exact Hlo ].
  apply Qle_lteq. right. symmetry. apply chunk_time_zero.
Qed.

(** X14 on three chunks of a transcript whose last segment starts at
    90 s: the chunks start at 0, 30 and 60 s. *)
Lemma chunk_docs_times_witness :
  map approximate_start_time (chunk_docs 3 90 0 [py "a"; py "b"; py "c"])
  = [ (0 / 3 * 90)%Q; (1 / 3 * 90)%Q; (2 / 3 * 90)%Q ]
  /\ StronglySorted by_start (chunk_docs 3 90 0 [py "a"; py "b"; py "c"]).
Proof.
  split; [ reflexivity | ].
  apply (chunk_docs_times 90 [py "a"; py "b"; py "c"]). discriminate.
Defined.

(** *** Questions *)

Lemma truncate_200_length text : (length (truncate_200 text) <= 203)%nat.
Proof.
  unfold truncate_200. destruct (200 <? length text)%nat eqn:E.
  - rewrite length_app. pose proof (PyFacts.slice_to_length text 200 ltac:(lia)).
    change (length (py "...")) with 3%nat. lia.
  - apply Nat.ltb_ge in E. lia.
Qed.

(** X15.  [ask_question] answers with success exactly when the chain is
    there and answers; it then cites the first three retrieved documents
    (all of them when there are fewer), in their order, each formatted:
    the text as it is when it has at most 200 characters, and cut to its
    first 200 characters followed by three dots otherwise; the timestamp,
    or [00:00] without one; the start time, else the approximate start
    time, else 0.  An answer that is not a success cites none; without a
    vector-store directory, or with a chain that cannot be loaded, the
    answer is the fixed apology. *)
Theorem ask_question_sources L source_documents video_id question w :
  let a := ask_question L source_documents video_id question w in
  let docs := source_documents question in
  (Answer.success a = true ->
   (exists qa_chain, get_qa_chain L video_id w = Some qa_chain
                     /\ qa_chain question = Ok (Answer.answer a))
   /\ Answer.sources a = map format_source (take 3 docs)
   /\ length (Answer.sources a) = Nat.min 3 (length docs))
  /\ (Answer.success a = false -> Answer.sources a = [])
  /\ (forall qa_chain answer,
        get_qa_chain L video_id w = Some qa_chain ->
        qa_chain question = Ok answer -> Answer.success a = true)
  /\ (forall doc,
        Cited.content (format_source doc)
        = (if (length (Source.page_content doc) <=? 200)%nat
           then Source.page_content doc
           else take 200 (Source.page_content doc) ++ py "...")
        /\ Cited.timestamp (format_source doc)
           = default (py "00:00") (Source.timestamp doc)
        /\ Cited.start_time (format_source doc)
           = default (default 0%Q (Source.approximate_start_time doc))
                     (Source.start_time doc))
  /\ Forall (fun c => (length (Cited.content c) <= 203)%nat) (Answer.sources a)
  /\ (get_qa_chain L video_id w = None ->
      Answer.success a = false
      /\ Answer.answer a
         = py "Sorry, I cannot answer questions about this video. The transcript may not be available or processed yet.")
  /\ (path_exists w (chroma_dir video_id) = false -> get_qa_chain L video_id w = None).
Proof.
  intros a docs. subst a docs. unfold ask_question.
  assert (Hdir : path_exists w (chroma_dir video_id) = false ->
                 get_qa_chain L video_id w = None).
  { intros H. unfold get_qa_chain. now rewrite H. }
  assert (Hformat : forall doc,
             Cited.content (format_source doc)
             = (if (length (Source.page_content doc) <=? 200)%nat
                then Source.page_content doc
                else take 200 (Source.page_content doc) ++ py "...")
             /\ Cited.timestamp (format_source doc)
                = default (py "00:00") (Source.timestamp doc)
             /\ Cited.start_time (format_source doc)
                = default (default 0%Q (Source.approximate_start_time doc))
                          (Source.start_time doc)).
  { intros doc. unfold format_source, truncate_200.
    cbn [Cited.content Cited.timestamp Cited.start_time].
    split; [ | split ].
    - rewrite Nat.leb_antisym. now destruct (200 <? _)%nat.
    - now destruct (Source.timestamp doc).
    - destruct (Source.start_time doc); [ reflexivity | ].
      now destruct (Source.approximate_start_time doc). }
  destruct (get_qa_chain L video_id w) as [qa_chain|].
  2: { cbn [Answer.success Answer.sources Answer.answer].
       split; [ discriminate | ]. split; [ reflexivity | ].
       split; [ discriminate | ]. split; [ exact Hformat | ].
       split; [ constructor | ]. split; [ now split | exact Hdir ]. }
  destruct (qa_chain question) as [answer|e] eqn:Hq;
    cbn [Answer.sources Answer.success Answer.answer].
  2: { split; [ discriminate | ]. split; [ reflexivity | ].
       split; [ intros q a [= <-] Ha; congruence | ].
       split; [ exact Hformat | ]. split; [ constructor | ].
       split; [ discriminate | exact Hdir ]. }
  split.
  { intros _. split; [ exists qa_chain; now split | ].
    split; [ reflexivity | ].
    rewrite length_map. unfold slice_to. cbn [Z.leb Z.compare Z.to_nat Pos.to_nat].
    change (Pos.iter_op Init.Nat.add 3 1)%nat with 3%nat.
    apply length_take. }
  split; [ discriminate | ]. split; [ reflexivity | ].
  split; [ exact Hformat | ].
  split; [ | split; [ discriminate | exact Hdir ] ].
  apply List.Forall_forall. intros c Hc. apply in_map_iff in Hc as (doc & <- & _).
  apply truncate_200_length.
Qed.

End LangChainProps.

(** ** The endpoints *)

Module RoutesProps.
Import Py Store Routes Fixtures Vocabulary.

(** *** Upload *)

(** The [for i, section_data in enumerate(sections_data)] loop appends one
    row per draft, with the draft's title and the times of its index. *)
Lemma save_sections_spec video_id sections_data : forall k w,
  exists w' rows,
    save_sections video_id (Z.of_nat k) sections_data w = (w', Ok tt)
    /\ sections (working (db w')) = sections (working (db w)) ++ rows
    /\ videos (working (db w')) = videos (working (db w))
    /\ frames (working (db w')) = frames (working (db w))
    /\ map Section.title rows = map LangChain.title sections_data
    /\ map span rows = map slot (seq k (length sections_data))
    /\ Forall (fun s => Section.video_id s = video_id) rows.
Proof.
  induction sections_data as [|d rest IH]; intros k w.
  - exists w, []. simpl. rewrite app_nil_r. repeat split; constructor.
  - cbn [save_sections]. unfold bindM. cbn [add_section].
    set (s := {| Section.id := next_id (map Section.id (sections (working (db w))));
                 Section.video_id := video_id;
                 Section.title := LangChain.title d;
                 Section.start_time := inject_Z (Z.of_nat k * 60);
                 Section.end_time := inject_Z ((Z.of_nat k + 1) * 60) |}).
    set (w1 := emit (set_working w _) Insert).
    replace (Z.of_nat k + 1)%Z with (Z.of_nat (S k)) by lia.
    destruct (IH (S k) w1) as (w' & rows & Hrun & Hs & Hv & Hf & Ht & Hsp & Hall).
    exists w', (s :: rows). rewrite Hrun.
    split; [ reflexivity | ].
    split; [ rewrite Hs; simpl; now rewrite <- app_assoc | ].
    split; [ exact Hv | ]. split; [ exact Hf | ].
    split; [ simpl; now rewrite Ht | ].
    split; [ cbn [map length seq]; rewrite Hsp; reflexivity | ].
    constructor; [ reflexivity | exact Hall ].
Qed.

Lemma generate_sections_nonempty isdigit L video_id w :
  LangChain.generate_sections isdigit L video_id w <> [].
Proof.
  unfold LangChain.generate_sections.
  destruct (LangChain.get_qa_chain L video_id w) as [qa_chain|]; [ | discriminate ].
  destruct (qa_chain LangChain.sections_query); [ | discriminate ].
  destruct (LangChain.parse_titles isdigit _); discriminate.
Qed.

(** After [create_video] the lookup by URL finds the row it returned. *)
Lemma create_video_then_find url title w vid :
  VideoService.extract_video_id url = Ok vid ->
  exists w1 video,
    VideoService.create_video url title w = (w1, Ok video)
    /\ find (same_url url) (videos (working (db w1))) = Some video
    /\ sections (working (db w1)) = sections (working (db w)).
Proof.
  intros Hid.
  destruct (VideoServiceProps.create_video_cases url title w vid Hid)
    as [(v & Hfind & Hrun)|(Hnone & Hrun)].
  - exists (emit w Query), v. auto.
  - cbv zeta in Hrun. eexists _, _. split; [ exact Hrun | ].
    split; [ | reflexivity ]. cbn.
    apply VideoServiceProps.find_app_fresh; [ exact Hnone | ].
    unfold same_url. cbn. apply VideoServiceProps.str_eqb_refl.
Qed.

Lemma process_transcript_db L video_id url w :
  db (fst (LangChain.process_transcript L video_id url w)) = db w.
Proof.
  unfold LangChain.process_transcript.
  destruct (LangChain.fetch_transcript L url); [ reflexivity | ].
  destruct (StoreFacts.mkdir_parents_world (LangChain.chroma_dir video_id) w)
    as (_ & _ & Hd & _).
  destruct (mkdir_parents (LangChain.chroma_dir video_id) w) as [w1 [[]|e]];
    cbn [fst] in *; [ | exact Hd ].
  now destruct (LangChain.chroma_from_documents L _ _ _) as [fs [[]|e]].
Qed.

(** An upload of a URL without a video id is answered 400. *)
Lemma upload_video_invalid isdigit L url w e :
  VideoService.extract_video_id url = Raise e ->
  snd (upload_video isdigit L url w) = Raise (HTTPException 400 (str_of_exn e)).
Proof.
  intros He. unfold upload_video, try_exceptM, bindM.
  now rewrite (VideoServiceSpec.create_video_invalid url None w e He).
Qed.

(** What one upload of a usable URL does: it is answered 400 when
    [process_transcript] raises, and stores its sections otherwise. *)
Lemma upload_video_spec isdigit L url vid w :
  VideoService.extract_video_id url = Ok vid ->
  exists w1 video,
    VideoService.create_video url None w = (w1, Ok video)
    /\ find (same_url url) (videos (working (db w1))) = Some video
    /\ match LangChain.process_transcript L (Video.id video) url w1 with
       | (w2, Raise e) =>
           upload_video isdigit L url w
           = (w2, Raise (HTTPException 400 (str_of_exn e)))
       | (w2, Ok r) =>
           exists w' rows,
             upload_video isdigit L url w
             = (w', Ok {| video_id := Video.id video;
                          message := py "Video uploaded and processed";
                          transcript := r;
                          url := url |})
             /\ sections (working (db w')) = sections (working (db w)) ++ rows
             /\ videos (working (db w')) = videos (working (db w1))
             /\ committed (db w') = working (db w')
             /\ rows <> []
             /\ Forall (fun s => Section.video_id s = Video.id video) rows
             /\ (LangChain.success r = true ->
                 map Section.title rows
                 = map LangChain.title
                       (LangChain.generate_sections isdigit L (Video.id video) w2)
                 /\ map span rows = map slot (seq 0 (length rows)))
             /\ (LangChain.success r = false ->
                 exists s, rows = [s] /\ is_fallback_section (Video.id video) s)
       end.
Proof.
  intros Hid.
  destruct (create_video_then_find url None w vid Hid)
    as (w1 & video & Hcreate & Hfind & Hsec).
  exists w1, video. split; [ exact Hcreate | ]. split; [ exact Hfind | ].
  unfold upload_video, try_exceptM, bindM. rewrite Hcreate.
  pose proof (process_transcript_db L (Video.id video) url w1) as Hdb.
  destruct (LangChain.process_transcript L (Video.id video) url w1) as [w2 [r|e]];
    cbn [fst] in Hdb; [ | reflexivity ].
  destruct (LangChain.success r) eqn:Hsucc.
  - pose proof (generate_sections_nonempty isdigit L (Video.id video) w2) as Hne.
    destruct (save_sections_spec (Video.id video)
                (LangChain.generate_sections isdigit L (Video.id video) w2) 0 w2)
      as (w3 & rows & Hrun & Hs & Hv & _ & Ht & Hsp & Hall).
    change (Z.of_nat 0) with 0%Z in Hrun. rewrite Hrun.
    unfold bindM, commit, modify, ret.
    eexists _, rows. split; [ reflexivity | ].
    cbn [emit set_db db working committed].
    split; [ now rewrite Hs, Hdb, Hsec | ].
    split; [ now rewrite Hv, Hdb | ].
    split; [ reflexivity | ].
    split.
    { intros ->. apply Hne. destruct (LangChain.generate_sections _ _ _ _);
        [ reflexivity | discriminate ]. }
    split; [ exact Hall | ].
    split; [ | discriminate ].
    intros _. split; [ exact Ht | ].
    rewrite Hsp. f_equal. f_equal.
    apply (f_equal (@length _)) in Ht. now rewrite !length_map in Ht.
  - unfold bindM, add_section, commit, modify, ret.
    eexists _, [_]. split; [ reflexivity | ].
    cbn [emit set_db set_working db working committed sections videos].
    split; [ now rewrite Hdb, Hsec | ].
    split; [ now rewrite Hdb | ].
    split; [ reflexivity | ]. split; [ discriminate | ].
    split; [ repeat constructor | ].
    split; [ discriminate | ].
    intros _. eexists. split; [ reflexivity | repeat split ].
Qed.

(** Whether a directory can be made depends on the files and on the
    working directory only. *)
Lemma mkdir_parents_same p w w' :
  files w' = files w -> cwd w' = cwd w ->
  snd (mkdir_parents p w') = snd (mkdir_parents p w).
Proof.
  intros Hf Hc. unfold mkdir_parents, is_file, key. rewrite Hf, Hc.
  destruct (files w !! _); [ reflexivity | ].
  now destruct (existsb _ _).
Qed.

Lemma process_transcript_success L video_id url w :
  LangChain.fetch_transcript L url <> [] ->
  snd (mkdir_parents (LangChain.chroma_dir video_id) w) = Ok tt ->
  (forall docs dir fs, snd (LangChain.chroma_from_documents L docs dir fs) = Ok tt) ->
  exists r, snd (LangChain.process_transcript L video_id url w) = Ok r
            /\ LangChain.success r = true.
Proof.
  intros Hseg Hdir Hchroma. unfold LangChain.process_transcript.
  destruct (LangChain.fetch_transcript L url) as [|seg rest]; [ congruence | ].
  destruct (mkdir_parents (LangChain.chroma_dir video_id) w) as [w1 [[]|e]];
    cbn [snd] in Hdir; [ | discriminate ].
  match goal with
  | |- context [LangChain.chroma_from_documents L ?d ?p ?f] =>
      pose proof (Hchroma d p f) as Hok;
      destruct (LangChain.chroma_from_documents L d p f) as [fs [[]|e]]
  end; cbn [snd] in *; [ | discriminate ].
  eexists. split; reflexivity.
Qed.

(** X16.  An upload whose transcript is processed (the URL carries a video
    id, there is a transcript, the vector-store directory can be made and
    the store is built) is answered normally and stores one section per
    drafted section, for the uploaded video, with the drafted titles in
    their order; the section of index [k] runs from [60 k] to [60 (k + 1)]
    seconds, whatever times the draft carried; at least one section is
    stored, and all are committed. *)
Theorem upload_with_transcript_sections isdigit L url vid w :
  VideoService.extract_video_id url = Ok vid ->
  LangChain.fetch_transcript L url <> [] ->
  (forall video_id, snd (mkdir_parents (LangChain.chroma_dir video_id) w) = Ok tt) ->
  (forall docs dir fs, snd (LangChain.chroma_from_documents L docs dir fs) = Ok tt) ->
  exists w' response rows,
    upload_video isdigit L url w = (w', Ok response)
    /\ LangChain.success (transcript response) = true
    /\ sections (committed (db w')) = sections (working (db w)) ++ rows
    /\ rows <> []
    /\ Forall (fun s => Section.video_id s = video_id response) rows
    /\ map span rows = map slot (seq 0 (length rows))
    /\ map Section.title rows
       = map LangChain.title
             (LangChain.generate_sections isdigit L (video_id response)
                (fst (LangChain.process_transcript L (video_id response) url
                        (fst (VideoService.create_video url None w))))).
Proof.
  intros Hid Hseg Hdir Hchroma.
  destruct (upload_video_spec isdigit L url vid w Hid)
    as (w1 & video & Hcreate & _ & Hup).
  destruct (VideoServiceSpec.create_video_valid url None w vid Hid)
    as (w1' & video' & Hcreate' & _ & _ & _ & Hf1 & _ & Hc1).
  rewrite Hcreate in Hcreate'. injection Hcreate' as <- <-.
  destruct (process_transcript_success L (Video.id video) url w1 Hseg) as (r & Hr & Hsucc).
  { rewrite (mkdir_parents_same _ w w1) by assumption. apply Hdir. }
  { exact Hchroma. }
  destruct (LangChain.process_transcript L (Video.id video) url w1)
    as [w2 [r'|e]] eqn:Hpt; cbn [snd fst] in *; [ | discriminate ].
  injection Hr as ->.
  destruct Hup as (w' & rows & Hrun & Hs & _ & Hc & Hne & Hall & Hok & _).
  destruct (Hok Hsucc) as [Ht Hsp].
  eexists w', _, rows. split; [ exact Hrun | ]. cbn [transcript video_id].
  split; [ exact Hsucc | ]. split; [ now rewrite Hc | ].
  split; [ exact Hne | ]. split; [ exact Hall | ]. split; [ exact Hsp | ].
  rewrite Hcreate. cbn [fst]. rewrite Hpt. exact Ht.
Qed.

(** X16 on a captioned video whose chain answers [ok], which is no usable
    title: the four default titles are stored, a minute each. *)
Lemma upload_with_transcript_sections_witness :
  exists w' response rows,
    upload_video LangChain.ascii_isdigit (captioned (py "ok"))
      (py "https://youtu.be/abc123") deployed = (w', Ok response)
    /\ LangChain.success (transcript response) = true
    /\ sections (committed (db w')) = sections (working (db deployed)) ++ rows
    /\ Forall (fun s => Section.video_id s = video_id response) rows
    /\ map span rows = map slot (seq 0 4)
    /\ map Section.title rows
       = [ py "Video Introduction"; py "Main Discussion"; py "Key Points";
           py "Conclusion" ].
Proof.
  destruct (upload_with_transcript_sections LangChain.ascii_isdigit
              (captioned (py "ok")) (py "https://youtu.be/abc123")
              (py "abc123") deployed)
    as (w' & response & rows & Hrun & Hsuccess & Hcommitted & _ & Hall & Hspan
        & Htitles).
  - reflexivity.
  - discriminate.
  - intros video_id. now apply StoreFacts.mkdir_parents_no_files.
  - intros docs dir fs. reflexivity.
  - exists w', response, rows.
    assert (Hlen : length rows = 4%nat).
    { rewrite <- (length_map Section.title), Htitles, length_map.
      pose proof Hrun as Hrun'. vm_compute in Hrun'. injection Hrun' as _ <-.
      vm_compute. reflexivity. }
    split; [ exact Hrun | ]. split; [ exact Hsuccess | ].
    split; [ exact Hcommitted | ]. split; [ exact Hall | ].
    split; [ now rewrite Hspan, Hlen | ].
    rewrite Htitles.
    pose proof Hrun as Hrun'. vm_compute in Hrun'. injection Hrun' as _ <-.
    vm_compute. reflexivity.
Defined.

(** X17.  Uploading the same URL twice, both uploads answered normally:
    the second upload finds the video of the first (same id, no new Video
    row) and still adds its sections, so the video ends up with both sets
    of sections, those of the first upload followed by those of the
    second. *)
Theorem upload_twice_duplicates_sections isdigit L url w w1 w2 r1 r2 :
  upload_video isdigit L url w = (w1, Ok r1) ->
  upload_video isdigit L url w1 = (w2, Ok r2) ->
  video_id r2 = video_id r1
  /\ videos (working (db w2)) = videos (working (db w1))
  /\ exists rows1 rows2,
       sections (committed (db w2))
       = sections (working (db w)) ++ rows1 ++ rows2
       /\ rows1 <> [] /\ rows2 <> []
       /\ Forall (fun s => Section.video_id s = video_id r1) (rows1 ++ rows2).
Proof.
  intros Hup1 Hup2.
  destruct (VideoService.extract_video_id url) as [vid|e] eqn:Hid.
  2: { pose proof (upload_video_invalid isdigit L url w e Hid) as H.
       rewrite Hup1 in H. discriminate. }
  destruct (upload_video_spec isdigit L url vid w Hid)
    as (wa & video & Hcreate1 & Hfind1 & H1).
  destruct (LangChain.process_transcript L (Video.id video) url wa)
    as [wa2 [ra|ea]]; [ | rewrite Hup1 in H1; discriminate ].
  destruct H1 as (w1' & rows1 & Hrun1 & Hs1 & Hv1 & Hc1 & Hne1 & Hall1 & _).
  rewrite Hup1 in Hrun1. injection Hrun1 as <- ->.
  destruct (upload_video_spec isdigit L url vid w1 Hid)
    as (wb & video' & Hcreate2 & Hfind2 & H2).
  assert (Hsame : video' = video /\ videos (working (db wb)) = videos (working (db w1))).
  { destruct (VideoServiceProps.create_video_cases url None w1 vid Hid)
      as [(v & Hf & Hrun)|(Hnone & _)].
    - rewrite Hrun in Hcreate2. injection Hcreate2 as <- <-.
      rewrite Hv1, Hfind1 in Hf. injection Hf as <-. split; reflexivity.
    - rewrite Hv1, Hfind1 in Hnone. discriminate. }
  destruct Hsame as [-> Hvb].
  destruct (LangChain.process_transcript L (Video.id video) url wb)
    as [wb2 [rb|eb]]; [ | rewrite Hup2 in H2; discriminate ].
  destruct H2 as (w2' & rows2 & Hrun2 & Hs2 & Hv2 & Hc2 & Hne2 & Hall2 & _).
  rewrite Hup2 in Hrun2. injection Hrun2 as <- ->.
  cbn [video_id].
  split; [ reflexivity | ].
  split; [ now rewrite Hv2, Hvb | ].
  exists rows1, rows2.
  split; [ now rewrite Hc2, Hs2, Hs1, <- app_assoc | ].
  split; [ exact Hne1 | ]. split; [ exact Hne2 | ].
  apply Forall_app. now split.
Qed.

(** X17 on a captioned video, uploaded twice: both uploads are answered,
    for the same video. *)
Lemma upload_twice_duplicates_sections_witness :
  exists w1 w2 r1 r2,
    upload_video LangChain.ascii_isdigit (captioned (py "ok"))
      (py "https://youtu.be/abc123") deployed = (w1, Ok r1)
    /\ upload_video LangChain.ascii_isdigit (captioned (py "ok"))
         (py "https://youtu.be/abc123") w1 = (w2, Ok r2)
    /\ video_id r2 = video_id r1
    /\ exists rows1 rows2,
         sections (committed (db w2)) = rows1 ++ rows2
         /\ rows1 <> [] /\ rows2 <> [].
Proof.
  destruct (upload_video LangChain.ascii_isdigit (captioned (py "ok"))
              (py "https://youtu.be/abc123") deployed) as [w1 [r1|e1]] eqn:H1;
    [ | vm_compute in H1; discriminate ].
  destruct (upload_video LangChain.ascii_isdigit (captioned (py "ok"))
              (py "https://youtu.be/abc123") w1) as [w2 [r2|e2]] eqn:H2.
  2: { exfalso. pose proof H1 as H1'. vm_compute in H1'.
       injection H1' as <- <-. vm_compute in H2. discriminate. }
  exists w1, w2, r1, r2. split; [ reflexivity | ]. split; [ exact H2 | ].
  destruct (upload_twice_duplicates_sections LangChain.ascii_isdigit
              (captioned (py "ok")) (py "https://youtu.be/abc123")
              deployed w1 w2 r1 r2 H1 H2)
    as (Hid & _ & rows1 & rows2 & Hs & Hne1 & Hne2 & _).
  split; [ exact Hid | ]. exists rows1, rows2.
  split; [ exact Hs | ]. now split.
Defined.

(** *** Regenerating a section *)


(** *** Frame extraction through the service *)

(** X20.  [FrameService.extract_frames] for a video id the database can
    bind never raises: for an unknown video it answers [Video not found]
    after one query; for a video that has frames it answers success with
    their number after three queries, whatever the tools and however few
    turns the loop is given; and every report it makes carries the
    requested video id and is either a success or an error with a count of
    zero.  For any other video id the lookup of the video, which stands
    before the [try], raises, and nothing else happens. *)
Theorem extract_frames_report T fuel video_id w :
  let video :=
    find (fun v => (Video.id v =? video_id)%Z) (videos (working (db w))) in
  (bindable video_id = false ->
   FrameService.extract_frames T fuel video_id w = Some (w, Raise OverflowError))
  /\ (bindable video_id = true ->
      (video = None ->
       FrameService.extract_frames T fuel video_id w
       = Some (emit w Query, Ok FrameService.VideoNotFound))
      /\ (video <> None ->
          find (FrameExtractor.of_video video_id) (frames (working (db w))) <> None ->
          FrameService.extract_frames T fuel video_id w
          = Some (emit (emit (emit w Query) Query) Query,
                  Ok (FrameService.Report
                        (py "Frame extraction completed successfully") video_id
                        (length (List.filter (FrameExtractor.of_video video_id)
                                             (frames (working (db w)))))
                        (py "success"))))
      /\ (forall w' r,
            FrameService.extract_frames T fuel video_id w = Some (w', r) ->
            exists report,
              r = Ok report
              /\ match report with
                 | FrameService.VideoNotFound => video = None
                 | FrameService.Report _ v n status =>
                     video <> None /\ v = video_id
                     /\ (status = py "success"
                         \/ (status = py "error" /\ n = 0%nat))
                 end)).
Proof.
  intros video. subst video. unfold FrameService.extract_frames, run_query.
  destruct (bindable video_id); cbn [negb];
    [ split; [ discriminate | intros _ ] | split; [ reflexivity | discriminate ] ].
  destruct (find _ (videos (working (db w)))) as [video|] eqn:Hv.
  - split; [ discriminate | ]. split.
    + intros _ Hf.
      destruct (find (FrameExtractor.of_video video_id) (frames (working (db w))))
        as [f|] eqn:Hfind; [ | congruence ].
      apply find_some in Hfind as [Hin Hov]. apply Z.eqb_eq in Hov.
      now rewrite (FrameExtractorSpec.process_video_frames_existing
                     T fuel video_id (Video.url video) 10 (emit w Query) f Hin Hov).
    + intros w' r.
      destruct (FrameExtractor.process_video_frames T fuel video_id _ 10 _)
        as [[w2 [rows|e]]|]; [ | | discriminate ];
        intros [= <- <-]; eexists; (split; [ reflexivity | ]);
        (split; [ discriminate | ]); (split; [ reflexivity | ]); auto.
  - split; [ reflexivity | ]. split; [ congruence | ].
    intros w' r [= <- <-]. eexists. split; reflexivity.
Qed.

(** *** Generating embeddings through the endpoint *)

(** X21.  The embeddings endpoint answers success only for a video that
    exists and has frames, with an id the database can bind, a model that
    loaded and an embeddings directory that could be made; the total is the
    number of the video's frames and the processed count lies between zero
    and it.  Every error has one of these causes, and its text: the id
    cannot be bound ([Failed to generate embeddings: ...], from the route's
    own handler); [Video not found]; [No frames found. Extract frames
    first.]; the model loader raised; the embeddings directory could not be
    made; a directory is where the embeddings file goes.  With an error no
    file has changed.  The tables are never touched. *)
Theorem generate_embeddings_response open_clip video_id w :
  let out := generate_embeddings open_clip video_id w in
  let video :=
    find (fun v => (Video.id v =? video_id)%Z) (videos (working (db w))) in
  let rows :=
    List.filter (SimpleEmbeddings.of_video video_id) (frames (working (db w))) in
  let made :=
    mkdir_parents (SimpleEmbeddings.embeddings_dir video_id)
                  (emit (emit (emit w Query) Query) Query) in
  db (fst out) = db w
  /\ match snd out with
     | EmbeddingSuccess message processed total_frames =>
         bindable video_id = true
         /\ video <> None /\ rows <> []
         /\ (exists m, open_clip = Ok m)
         /\ snd made = Ok tt
         /\ total_frames = length rows
         /\ (0 <= processed <= Z.of_nat total_frames)%Z
         /\ message = py "Generated embeddings for " ++ str_of_Z processed
                      ++ py " frames"
     | EmbeddingError error =>
         files (fst out) = files w
         /\ ((bindable video_id = false
              /\ error = py "Failed to generate embeddings: "
                         ++ str_of_exn OverflowError)
             \/ (bindable video_id = true /\ video = None
                 /\ error = py "Video not found")
             \/ (bindable video_id = true /\ video <> None /\ rows = []
                 /\ error = py "No frames found. Extract frames first.")
             \/ (bindable video_id = true /\ video <> None /\ rows <> []
                 /\ ((exists e, open_clip = Raise e /\ error = str_of_exn e)
                     \/ (exists e, snd made = Raise e /\ error = str_of_exn e)
                     \/ error
                        = str_of_exn
                            (IsADirectoryError
                               (SimpleEmbeddings.embeddings_file video_id)))))
     end.
Proof.
  intros out video rows made. subst out video rows made.
  unfold generate_embeddings, run_query.
  destruct (bindable video_id) eqn:Hbind; cbn [negb];
    [ | cbn; split; [ reflexivity | split; [ reflexivity | left; now split ] ] ].
  destruct (find _ (videos (working (db w)))) as [video|] eqn:Hv;
    [ | cbn; split; [ reflexivity
                    | split; [ reflexivity | right; left; now repeat split ] ] ].
  cbn [emit db working].
  destruct (List.filter (SimpleEmbeddings.of_video video_id) (frames (working (db w))))
    as [|f0 rows] eqn:Hrows.
  { cbn. split; [ reflexivity | split; [ reflexivity | ] ].
    right. right. left. repeat split. discriminate. }
  pose proof (SimpleEmbeddingsProps.generate_frame_embeddings_cases open_clip
                {| SimpleEmbeddings.model := None |} video_id
                (emit (emit w Query) Query)) as H.
  cbv zeta in H. cbn [emit db working files] in H. rewrite Hrows, Hbind in H.
  assert (Hload : forall self' m,
             SimpleEmbeddings._load_clip_model open_clip
               {| SimpleEmbeddings.model := None |} = Ok (self', m) ->
             open_clip = Ok m).
  { unfold SimpleEmbeddings._load_clip_model. cbn [SimpleEmbeddings.model].
    intros self' m. destruct open_clip; cbn [bind]; [ | discriminate ].
    now intros [= _ ->]. }
  assert (Hfail : forall e,
             SimpleEmbeddings._load_clip_model open_clip
               {| SimpleEmbeddings.model := None |} = Raise e ->
             open_clip = Raise e).
  { unfold SimpleEmbeddings._load_clip_model. cbn [SimpleEmbeddings.model].
    intros e. destruct open_clip; cbn [bind]; [ discriminate | ].
    now intros [= ->]. }
  destruct (SimpleEmbeddings.generate_frame_embeddings open_clip _ video_id _)
    as [[w3 self3] [error processed|processed total file]]; cbn [fst snd].
  - destruct H as (_ & Hf & Hdb & Hcause).
    split; [ exact Hdb | ]. split; [ exact Hf | ].
    right. right. right.
    split; [ reflexivity | ]. split; [ discriminate | ]. split; [ discriminate | ].
    destruct Hcause as [(e & Hl & He)|[[Hb _]|[(_ & Hr & _)|[(_ & _ & e & Hm & He)
                                                            |(_ & _ & He)]]]].
    + left. exists e. split; [ now apply Hfail | exact He ].
    + discriminate.
    + discriminate.
    + right. left. exists e. now split.
    + right. right. exact He.
  - destruct H as ((self' & m & Hl) & _ & _ & Hm & Htotal & Hp & _ & _ & Hdb).
    split; [ exact Hdb | ].
    split; [ reflexivity | ]. split; [ discriminate | ]. split; [ discriminate | ].
    split; [ exists m; now apply (Hload self') | ].
    split; [ exact Hm | ]. split; [ exact Htotal | ]. split; [ exact Hp | reflexivity ].
Qed.

(** *** Visual search through the endpoint *)




(** *** Chat *)



(** *** Serving a frame image *)

(** X23.  A request path that starts with a slash replaces the storage
    root: the endpoint then looks at that absolute path itself.  It answers
    404 exactly when nothing exists there, and otherwise 403 or the file at
    that very path, so the status tells whether an arbitrary absolute path
    exists. *)
Theorem serve_frame_image_absolute_path file_path w :
  PosixPath.isabs file_path = true ->
  PosixPath.join (py "storage") file_path = file_path
  /\ (path_exists w file_path = false <->
      serve_frame_image file_path w
      = Raise (HTTPException 404 (py "Frame image not found")))
  /\ (path_exists w file_path = true ->
      serve_frame_image file_path w = Raise (HTTPException 403 (py "Access denied"))
      \/ exists r, serve_frame_image file_path w = Ok r /\ path r = file_path).
Proof.
  intros Habs.
  assert (Hjoin : PosixPath.join (py "storage") file_path = file_path).
  { unfold PosixPath.join. unfold PosixPath.isabs in Habs. now rewrite Habs. }
  split; [ exact Hjoin | ].
  unfold serve_frame_image. rewrite Hjoin.
  destruct (path_exists w file_path); cbn [negb].
  - split; [ split; [ discriminate | ] | ].
    + destruct (negb (startswith _ _)); discriminate.
    + intros _. destruct (negb (startswith _ _)); [ now left | right ].
      eexists. split; reflexivity.
  - split; [ split; reflexivity | discriminate ].
Qed.

(** X23 on two absolute paths: nothing is at [/etc/passwd] in the fresh
    world, and the file next to the storage root is served. *)
Lemma serve_frame_image_absolute_path_witness :
  serve_frame_image (py "/etc/passwd") fresh
  = Raise (HTTPException 404 (py "Frame image not found"))
  /\ exists r,
       serve_frame_image (py "/app/storage_backup/x.jpg") with_backup = Ok r
       /\ path r = py "/app/storage_backup/x.jpg".
Proof.
  split.
  - apply (serve_frame_image_absolute_path (py "/etc/passwd") fresh); reflexivity.
  - destruct (serve_frame_image_absolute_path (py "/app/storage_backup/x.jpg")
                with_backup eq_refl) as (_ & _ & H).
    destruct (H eq_refl) as [H403|Hok]; [ | exact Hok ].
    vm_compute in H403. discriminate.
Defined.

End RoutesProps.
